(** * file.d: the pipeline controller and two output plugins

    A shallow embedding of [pipeline/pipeline.go],
    [plugin/output/splunk/splunk.go] and [plugin/output/file/file.go].

    Go code mutates a [*Pipeline] and calls its collaborators (logger, input
    and output plugin, streamer, processors, event pool).  Here a method is a
    function from a state to an [outcome]: the state it leaves and the way it
    ends.  Calls to collaborators whose code is elsewhere are appended to a
    history kept next to the struct fields; what they answer is a parameter
    of the development. *)

From Stdlib Require Import ZArith List String Ascii Bool Lia.
From Stdlib.Strings Require Import Byte.
From Stdlib Require Import DecimalString DecimalPos DecimalZ.
Import ListNotations.
Open Scope string_scope.
Open Scope list_scope.
Open Scope Z_scope.

(** ** Machine integers *)

Definition wrap_unsigned (w z : Z) : Z := z mod 2 ^ w.
Definition wrap_signed (w z : Z) : Z := (z + 2 ^ (w - 1)) mod 2 ^ w - 2 ^ (w - 1).

Definition to_int32 : Z -> Z := wrap_signed 32.
Definition to_int64 : Z -> Z := wrap_signed 64.
Definition to_uint64 : Z -> Z := wrap_unsigned 64.
(** Go's [int] on the 64-bit targets the daemon is built for. *)
Definition to_int : Z -> Z := wrap_signed 64.

Definition max_int32 : Z := 2 ^ 31 - 1.
Definition max_int64 : Z := 2 ^ 63 - 1.

Definition len {A} (l : list A) : Z := Z.of_nat (List.length l).

(** ** Ways a call can end *)

Section Outcome.
Variable St : Type.

Inductive outcome (A : Type) : Type :=
| Returned (a : A) (s : St)  (* the call returns [a] *)
| Fatal (s : St)             (* [logger.Fatalf]: the process exits *)
| Panicked (s : St)          (* [logger.Panicf] or a run-time panic *)
| Blocked (s : St)           (* parked until another goroutine acts *)
| Spinning (s : St).         (* a loop that has not ended within the fuel *)

Definition M (A : Type) : Type := St -> outcome A.

Definition ret {A} (a : A) : M A := fun s => Returned A a s.

Definition bind {A B} (m : M A) (k : A -> M B) : M B :=
  fun s =>
    match m s with
    | Returned _ a s' => k a s'
    | Fatal _ s' => Fatal B s'
    | Panicked _ s' => Panicked B s'
    | Blocked _ s' => Blocked B s'
    | Spinning _ s' => Spinning B s'
    end.

Definition get : M St := fun s => Returned St s s.
Definition modify (f : St -> St) : M unit := fun s => Returned unit tt (f s).

(** The state a call leaves behind, however it ended. *)
Definition final {A} (o : outcome A) : St :=
  match o with
  | Returned _ _ s | Fatal _ s | Panicked _ s | Blocked _ s | Spinning _ s => s
  end.

Definition returned {A} (o : outcome A) : option A :=
  match o with Returned _ a _ => Some a | _ => None end.
End Outcome.

Arguments Returned {St A} a s.
Arguments Fatal {St A} s.
Arguments Panicked {St A} s.
Arguments Blocked {St A} s.
Arguments Spinning {St A} s.
Arguments ret {St A} a _.
Arguments bind {St A B} m k _.
Arguments get {St} _.
Arguments modify {St} f _.
Arguments final {St A} o.
Arguments returned {St A} o.

Declare Scope go_scope.
Delimit Scope go_scope with go.
Notation "x <- m ;; k" := (bind m (fun x => k))
  (at level 61, m at next level, right associativity) : go_scope.
Notation "m ;;; k" := (bind m (fun _ => k))
  (at level 61, right associativity) : go_scope.
Open Scope go_scope.

(** ** Documents (the insane-json tree the events carry) *)

#[warnings="-register-all"]
Inductive Node : Type :=
| JNull
| JBool (b : bool)
| JNumber (repr : string)
| JString (s : string)
| JArray (items : list Node)
| JObject (fields : list (string * Node)).

Fixpoint lookup_field (name : string) (fields : list (string * Node)) : option Node :=
  match fields with
  | [] => None
  | (k, v) :: rest => if String.eqb k name then Some v else lookup_field name rest
  end.

(** [root.Dig(field)]: the child of an object under [field], nil otherwise. *)
Definition Dig (root : Node) (field : string) : option Node :=
  match root with
  | JObject fields => lookup_field field fields
  | _ => None
  end.

(** [root.DecodeString("{}")]: the root becomes an empty object. *)
Definition DecodeString_empty_object : Node := JObject [].

(** [root.AddFieldNoAlloc(root, name)]: the field is appended (as null) unless
    the object has it already; the Go call returns the field's value node,
    which is addressed below by its name. *)
Definition AddFieldNoAlloc (root : Node) (name : string) : Node :=
  match root with
  | JObject fields =>
      match lookup_field name fields with
      | Some _ => root
      | None => JObject (fields ++ [(name, JNull)])
      end
  | _ => root
  end.

Fixpoint mutate_field (name : string) (v : Node) (fields : list (string * Node))
  : list (string * Node) :=
  match fields with
  | [] => []
  | (k, old) :: rest =>
      if String.eqb k name then (k, v) :: rest else (k, old) :: mutate_field name v rest
  end.

(** [node.MutateToBytesCopy(root, b)] on the value node of field [name]:
    the node becomes a string holding a copy of [b]. *)
Definition MutateToBytesCopy (root : Node) (name : string) (b : list byte) : Node :=
  match root with
  | JObject fields => JObject (mutate_field name (JString (string_of_list_byte b)) fields)
  | _ => root
  end.

(** [string(bytes)] and [[]byte(s)] of Go are the Standard Library's
    [string_of_list_byte] and [list_byte_of_string]. *)

(** ** Events and their pool *)

(** Modelled from the spec: the kinds of an event; [event.go] is not among the
    sources.  "a `kind` in {normal, timeout, unlocked}". *)
Inductive eventKind : Type := kindNormal | kindTimeout | kindUnlocked.

Definition StreamName : Type := string.

(** The fields of [Event] that [pipeline.go] reads or writes.  Go's type
    [SourceID] is [uint64]; it is written [Z], the name being taken by the
    field. *)
Record Event : Type := mkEvent {
  Root : Node;
  SeqID : Z;              (* uint64 *)
  Offset : Z;             (* int64 *)
  SourceID : Z;           (* SourceID = uint64 *)
  SourceName : string;
  streamName : StreamName;
  Size : Z;               (* int *)
  kind : eventKind
}.

Definition set_Root (v : Node) (e : Event) : Event :=
  mkEvent v (SeqID e) (Offset e) (SourceID e) (SourceName e) (streamName e) (Size e) (kind e).
Definition set_Offset (v : Z) (e : Event) : Event :=
  mkEvent (Root e) (SeqID e) v (SourceID e) (SourceName e) (streamName e) (Size e) (kind e).
Definition set_SourceID (v : Z) (e : Event) : Event :=
  mkEvent (Root e) (SeqID e) (Offset e) v (SourceName e) (streamName e) (Size e) (kind e).
Definition set_SourceName (v : string) (e : Event) : Event :=
  mkEvent (Root e) (SeqID e) (Offset e) (SourceID e) v (streamName e) (Size e) (kind e).
Definition set_streamName (v : StreamName) (e : Event) : Event :=
  mkEvent (Root e) (SeqID e) (Offset e) (SourceID e) (SourceName e) v (Size e) (kind e).
Definition set_Size (v : Z) (e : Event) : Event :=
  mkEvent (Root e) (SeqID e) (Offset e) (SourceID e) (SourceName e) (streamName e) v (kind e).

(** Modelled from the spec: [event.IsTimeoutKind]; [event.go] is not among the
    sources. *)
Definition IsTimeoutKind (e : Event) : bool :=
  match kind e with kindTimeout => true | _ => false end.

(** Modelled from the spec: the event pool; [event_pool.go] is not among the
    sources.  "Fixed capacity C", "an array of preallocated events plus a
    free list", "The pool records `freeEventsCount`", "`get()` blocks when
    exhausted", "`back(e)` releasing an event". *)
Record EventPool : Type := mkEventPool {
  capacity : Z;
  free : list Event
}.

(** Modelled from the spec: the count the pool records, the length of the
    free list. *)
Definition freeEventsCount (pool : EventPool) : Z := len (free pool).

(** Modelled from the spec: [eventPool.get]; [None] when the pool is
    exhausted and the caller parks. *)
Definition pool_get (pool : EventPool) : option (Event * EventPool) :=
  match free pool with
  | [] => None
  | e :: rest => Some (e, mkEventPool (capacity pool) rest)
  end.

(** Modelled from the spec: [eventPool.back]. *)
Definition pool_back (e : Event) (pool : EventPool) : EventPool :=
  mkEventPool (capacity pool) (free pool ++ [e]).

(** ** The pipeline *)

(** Modelled from the spec: [decoder.DecoderType] and its constants; package
    [decoder] is not among the sources.  "`json`/`raw`/`cri`/`postgres`/`auto`"
    and [decoder.NO], the zero value. *)
Inductive DecoderType : Type := NO | AUTO | JSON | RAW | CRI | POSTGRES.

Record Settings : Type := mkSettings {
  Decoder : string;
  Capacity : Z;
  MaintenanceInterval : Z;     (* time.Duration, nanoseconds *)
  AntispamThreshold : Z;
  AvgLogSize : Z;
  StreamField : string;
  IsStrict : bool
}.

(** A processor stands for the pointer [newProc] returns; [id] is its rank
    of creation, which is its index in [Procs] since every processor made
    by [newProc] is appended there at once. *)
Record processor : Type := mkProcessor { id : Z }.

Inductive Level : Type := LvlInfo | LvlWarn | LvlError.

(** What the pipeline does to its collaborators, and the writes to the
    flag that other goroutines poll. *)
Inductive Effect : Type :=
| Log (lvl : Level) (format : string)       (* logger.Infof / Warnf / Errorf *)
| LogFatal (format : string)                (* logger.Fatalf, logger.Fatal *)
| LogPanic (format : string)                (* logger.Panicf *)
| AntispamIsSpam (sourceID : Z) (sourceName : string) (isNewSource : bool)
| AntispamMaintenance
| MetricsMaintenance
| PoolGet (e : Event)
| PoolBack (e : Event)
| StreamerPutEvent (sourceID : Z) (name : StreamName) (e : Event)
| StreamerStop
| StreamCommit (e : Event)                  (* event.stream.commit(event) *)
| InputCommit (e : Event)                   (* p.input.Commit(event) *)
| InputStop
| OutputStop
| ProcessorStart (proc : processor)
| ProcessorStop (proc : processor)
| Sleep (d : Z)                             (* time.Sleep, nanoseconds *)
| StoreShouldStop (b : bool).               (* p.shouldStop = b *)

Record Pipeline : Type := mkPipeline {
  Name : string;
  settings : Settings;
  decoder : DecoderType;
  suggestedDecoder : DecoderType;
  eventPool : EventPool;
  useSpread : bool;
  disableStreams : bool;
  singleProc : bool;
  shouldStop : bool;
  Procs : list processor;
  procCount : option Z;       (* *atomic.Int32, nil until initProcs *)
  activeProcs : option Z;     (* *atomic.Int32, nil until initProcs *)
  eventLogEnabled : bool;
  eventLog : list string;
  inSample : list byte;
  outSample : list byte;
  totalCommitted : Z;         (* atomic.Int64 *)
  totalSize : Z;              (* atomic.Int64 *)
  maxSize : Z;                (* int *)
  history : list Effect       (* calls made so far, oldest first *)
}.

Definition set_suggestedDecoder (v : DecoderType) (p : Pipeline) : Pipeline :=
  mkPipeline (Name p) (settings p) (decoder p) v (eventPool p) (useSpread p)
    (disableStreams p) (singleProc p) (shouldStop p) (Procs p) (procCount p)
    (activeProcs p) (eventLogEnabled p) (eventLog p) (inSample p) (outSample p)
    (totalCommitted p) (totalSize p) (maxSize p) (history p).

Definition set_eventPool (v : EventPool) (p : Pipeline) : Pipeline :=
  mkPipeline (Name p) (settings p) (decoder p) (suggestedDecoder p) v (useSpread p)
    (disableStreams p) (singleProc p) (shouldStop p) (Procs p) (procCount p)
    (activeProcs p) (eventLogEnabled p) (eventLog p) (inSample p) (outSample p)
    (totalCommitted p) (totalSize p) (maxSize p) (history p).

Definition set_useSpread (v : bool) (p : Pipeline) : Pipeline :=
  mkPipeline (Name p) (settings p) (decoder p) (suggestedDecoder p) (eventPool p) v
    (disableStreams p) (singleProc p) (shouldStop p) (Procs p) (procCount p)
    (activeProcs p) (eventLogEnabled p) (eventLog p) (inSample p) (outSample p)
    (totalCommitted p) (totalSize p) (maxSize p) (history p).

Definition set_disableStreams (v : bool) (p : Pipeline) : Pipeline :=
  mkPipeline (Name p) (settings p) (decoder p) (suggestedDecoder p) (eventPool p)
    (useSpread p) v (singleProc p) (shouldStop p) (Procs p) (procCount p) (activeProcs
    p) (eventLogEnabled p) (eventLog p) (inSample p) (outSample p) (totalCommitted p)
    (totalSize p) (maxSize p) (history p).

Definition set_singleProc (v : bool) (p : Pipeline) : Pipeline :=
  mkPipeline (Name p) (settings p) (decoder p) (suggestedDecoder p) (eventPool p)
    (useSpread p) (disableStreams p) v (shouldStop p) (Procs p) (procCount p)
    (activeProcs p) (eventLogEnabled p) (eventLog p) (inSample p) (outSample p)
    (totalCommitted p) (totalSize p) (maxSize p) (history p).

Definition set_shouldStop (v : bool) (p : Pipeline) : Pipeline :=
  mkPipeline (Name p) (settings p) (decoder p) (suggestedDecoder p) (eventPool p)
    (useSpread p) (disableStreams p) (singleProc p) v (Procs p) (procCount p)
    (activeProcs p) (eventLogEnabled p) (eventLog p) (inSample p) (outSample p)
    (totalCommitted p) (totalSize p) (maxSize p) (history p).

Definition set_Procs (v : list processor) (p : Pipeline) : Pipeline :=
  mkPipeline (Name p) (settings p) (decoder p) (suggestedDecoder p) (eventPool p)
    (useSpread p) (disableStreams p) (singleProc p) (shouldStop p) v (procCount p)
    (activeProcs p) (eventLogEnabled p) (eventLog p) (inSample p) (outSample p)
    (totalCommitted p) (totalSize p) (maxSize p) (history p).

Definition set_procCount (v : option Z) (p : Pipeline) : Pipeline :=
  mkPipeline (Name p) (settings p) (decoder p) (suggestedDecoder p) (eventPool p)
    (useSpread p) (disableStreams p) (singleProc p) (shouldStop p) (Procs p) v
    (activeProcs p) (eventLogEnabled p) (eventLog p) (inSample p) (outSample p)
    (totalCommitted p) (totalSize p) (maxSize p) (history p).

Definition set_activeProcs (v : option Z) (p : Pipeline) : Pipeline :=
  mkPipeline (Name p) (settings p) (decoder p) (suggestedDecoder p) (eventPool p)
    (useSpread p) (disableStreams p) (singleProc p) (shouldStop p) (Procs p)
    (procCount p) v (eventLogEnabled p) (eventLog p) (inSample p) (outSample p)
    (totalCommitted p) (totalSize p) (maxSize p) (history p).

Definition set_eventLogEnabled (v : bool) (p : Pipeline) : Pipeline :=
  mkPipeline (Name p) (settings p) (decoder p) (suggestedDecoder p) (eventPool p)
    (useSpread p) (disableStreams p) (singleProc p) (shouldStop p) (Procs p)
    (procCount p) (activeProcs p) v (eventLog p) (inSample p) (outSample p)
    (totalCommitted p) (totalSize p) (maxSize p) (history p).

Definition set_eventLog (v : list string) (p : Pipeline) : Pipeline :=
  mkPipeline (Name p) (settings p) (decoder p) (suggestedDecoder p) (eventPool p)
    (useSpread p) (disableStreams p) (singleProc p) (shouldStop p) (Procs p)
    (procCount p) (activeProcs p) (eventLogEnabled p) v (inSample p) (outSample p)
    (totalCommitted p) (totalSize p) (maxSize p) (history p).

Definition set_inSample (v : list byte) (p : Pipeline) : Pipeline :=
  mkPipeline (Name p) (settings p) (decoder p) (suggestedDecoder p) (eventPool p)
    (useSpread p) (disableStreams p) (singleProc p) (shouldStop p) (Procs p)
    (procCount p) (activeProcs p) (eventLogEnabled p) (eventLog p) v (outSample p)
    (totalCommitted p) (totalSize p) (maxSize p) (history p).

Definition set_outSample (v : list byte) (p : Pipeline) : Pipeline :=
  mkPipeline (Name p) (settings p) (decoder p) (suggestedDecoder p) (eventPool p)
    (useSpread p) (disableStreams p) (singleProc p) (shouldStop p) (Procs p)
    (procCount p) (activeProcs p) (eventLogEnabled p) (eventLog p) (inSample p) v
    (totalCommitted p) (totalSize p) (maxSize p) (history p).

Definition set_totalCommitted (v : Z) (p : Pipeline) : Pipeline :=
  mkPipeline (Name p) (settings p) (decoder p) (suggestedDecoder p) (eventPool p)
    (useSpread p) (disableStreams p) (singleProc p) (shouldStop p) (Procs p)
    (procCount p) (activeProcs p) (eventLogEnabled p) (eventLog p) (inSample p)
    (outSample p) v (totalSize p) (maxSize p) (history p).

Definition set_totalSize (v : Z) (p : Pipeline) : Pipeline :=
  mkPipeline (Name p) (settings p) (decoder p) (suggestedDecoder p) (eventPool p)
    (useSpread p) (disableStreams p) (singleProc p) (shouldStop p) (Procs p)
    (procCount p) (activeProcs p) (eventLogEnabled p) (eventLog p) (inSample p)
    (outSample p) (totalCommitted p) v (maxSize p) (history p).

Definition set_maxSize (v : Z) (p : Pipeline) : Pipeline :=
  mkPipeline (Name p) (settings p) (decoder p) (suggestedDecoder p) (eventPool p)
    (useSpread p) (disableStreams p) (singleProc p) (shouldStop p) (Procs p)
    (procCount p) (activeProcs p) (eventLogEnabled p) (eventLog p) (inSample p)
    (outSample p) (totalCommitted p) (totalSize p) v (history p).

Definition set_history (v : list Effect) (p : Pipeline) : Pipeline :=
  mkPipeline (Name p) (settings p) (decoder p) (suggestedDecoder p) (eventPool p)
    (useSpread p) (disableStreams p) (singleProc p) (shouldStop p) (Procs p)
    (procCount p) (activeProcs p) (eventLogEnabled p) (eventLog p) (inSample p)
    (outSample p) (totalCommitted p) (totalSize p) (maxSize p) v.

(** ** Collaborators

    Code of the repository that [pipeline.go] calls and that is not among the
    sources is taken as a parameter: what it answers, as a function of its
    arguments and, where it keeps state of its own, of the calls made so
    far. *)

Inductive result (A : Type) : Type :=
| Ok (a : A)
| Err (msg : string).       (* a non-nil [error], with its [Error()] text *)
Arguments Ok {A} a.
Arguments Err {A} msg.

Record Collaborators : Type := mkCollaborators {
  (* p.antispamer.isSpam(sourceID, sourceName, isNewSource) *)
  isSpam : list Effect -> Z -> string -> bool -> bool;
  (* event.parseJSON(bytes): the decoded root, or the error *)
  parseJSON : list byte -> result Node;
  (* decoder.DecodeCRI(event.Root, bytes) *)
  DecodeCRI : Node -> list byte -> result Node;
  (* decoder.DecodePostgres(event.Root, bytes) *)
  DecodePostgres : Node -> list byte -> result Node;
  (* the sequence id p.streamer.putEvent returns *)
  putEvent : list Effect -> Z -> StreamName -> Event -> Z;
  (* root.Encode(nil) *)
  Encode : Node -> list byte
}.

Definition DefaultStreamField : string := "stream".
Definition DefaultCapacity : Z := 1024.
Definition DefaultFieldValue : string := "not_set".
Definition DefaultStreamName : StreamName := "not_set".

Definition PM : Type -> Type := M Pipeline.

Definition call (e : Effect) : PM unit :=
  modify (fun p => set_history (history p ++ [e]) p).

Definition Infof (format : string) : PM unit := call (Log LvlInfo format).
Definition Warnf (format : string) : PM unit := call (Log LvlWarn format).
Definition Errorf (format : string) : PM unit := call (Log LvlError format).

Definition Fatalf {A} (format : string) : PM A :=
  fun p => Fatal (set_history (history p ++ [LogFatal format]) p).

Definition Panicf {A} (format : string) : PM A :=
  fun p => Panicked (set_history (history p ++ [LogPanic format]) p).

(** A run-time panic: nil dereference, division by zero. *)
Definition panic {A} : PM A := fun p => Panicked p.

Fixpoint times (n : nat) (body : PM unit) : PM unit :=
  match n with
  | O => ret tt
  | S k => body ;;; times k body
  end.

Fixpoint for_each {A} (l : list A) (body : A -> PM unit) : PM unit :=
  match l with
  | [] => ret tt
  | a :: rest => body a ;;; for_each rest body
  end.

Definition when (b : bool) (body : PM unit) : PM unit :=
  if b then body else ret tt.

Definition eventPool_get : PM Event :=
  fun p =>
    match pool_get (eventPool p) with
    | None => Blocked p
    | Some (e, pool') =>
        Returned e (set_history (history p ++ [PoolGet e]) (set_eventPool pool' p))
    end.

Definition eventPool_back (e : Event) : PM unit :=
  modify (fun p =>
            set_history (history p ++ [PoolBack e])
              (set_eventPool (pool_back e (eventPool p)) p)).

Section Methods.
Variable env : Collaborators.

Definition EncodeToString (n : Node) : string := string_of_list_byte (Encode env n).

(** [node.AsString()] *)
Definition AsString (n : Node) : string :=
  match n with
  | JString s => s
  | JNumber repr => repr
  | JBool true => "true"
  | JBool false => "false"
  | JNull => "null"
  | JArray _ | JObject _ => EncodeToString n
  end.

Definition antispamer_isSpam (sourceID : Z) (sourceName : string) (isNewSource : bool)
  : PM bool :=
  fun p =>
    Returned (isSpam env (history p) sourceID sourceName isNewSource)
      (set_history (history p ++ [AntispamIsSpam sourceID sourceName isNewSource]) p).

Definition streamer_putEvent (sourceID : Z) (name : StreamName) (e : Event) : PM Z :=
  fun p =>
    Returned (putEvent env (history p) sourceID name e)
      (set_history (history p ++ [StreamerPutEvent sourceID name e]) p).

Definition streamEvent (event : Event) : PM Z :=
  p <- get ;;
  (* spread events across all processors *)
  event <- (if useSpread p then
              match procCount p with
              | None => panic
              | Some pc =>
                  if to_uint64 pc =? 0 then panic
                  else ret (set_SourceID (SeqID event mod to_uint64 pc) event)
              end
            else ret event) ;;
  let event :=
    if negb (disableStreams p) then
      match Dig (Root event) (StreamField (settings p)) with
      | Some node => set_streamName (AsString node) event
      | None => event
      end
    else event in
  streamer_putEvent (SourceID event) (streamName event) event.

(** The statements of [In] after its [switch]. *)
Definition In_enqueue (event : Event) (sourceID : Z) (sourceName : string) (offset : Z)
           (bytes : list byte) : PM Z :=
  let event := set_Offset offset event in
  let event := set_SourceID sourceID event in
  let event := set_SourceName sourceName event in
  let event := set_streamName DefaultStreamName event in
  let event := set_Size (len bytes) event in
  p <- get ;;
  when (len (inSample p) =? 0)
       (modify (set_inSample (inSample p ++ Encode env (Root event)))) ;;;
  streamEvent event.

(** [length == 0 || (bytes[0] == '\n' && length == 1)] *)
Definition isEmpty (bytes : list byte) : bool :=
  let length := len bytes in
  (length =? 0) || (Byte.eqb (nth 0 bytes x00) x0a && (length =? 1)).

(** The decoder [In] settles on before its [switch]. *)
Definition selected_decoder (p : Pipeline) : DecoderType :=
  let dec := match decoder p with AUTO => suggestedDecoder p | d => d end in
  match dec with NO => JSON | d => d end.

Definition In (sourceID : Z) (sourceName : string) (offset : Z) (bytes : list byte)
           (isNewSource : bool) : PM Z :=
  (* don't process empty records *)
  isSpam <- antispamer_isSpam sourceID sourceName isNewSource ;;
  if isEmpty bytes || isSpam then ret 0 else
  event <- eventPool_get ;;
  p <- get ;;
  match selected_decoder p with
  | JSON =>
      match parseJSON env bytes with
      | Err _ =>
          if IsStrict (settings p) then
            Fatalf "wrong json format offset=%d, length=%d, err=%s, source=%d:%s, json=%s"
          else
            Errorf "wrong json format offset=%d, length=%d, err=%s, source=%d:%s, json=%s" ;;;
            ret 0
      | Ok root => In_enqueue (set_Root root event) sourceID sourceName offset bytes
      end
  | RAW =>
      let root := DecodeString_empty_object in
      let root := AddFieldNoAlloc root "message" in
      let root := MutateToBytesCopy root "message"
                    (firstn (Z.to_nat (len bytes - 1)) bytes) in
      In_enqueue (set_Root root event) sourceID sourceName offset bytes
  | CRI =>
      match DecodeCRI env DecodeString_empty_object bytes with
      | Err _ =>
          Fatalf "wrong cri format offset=%d, length=%d, err=%s, source=%d:%s, cri=%s"
      | Ok root => In_enqueue (set_Root root event) sourceID sourceName offset bytes
      end
  | POSTGRES =>
      match DecodePostgres env DecodeString_empty_object bytes with
      | Err _ =>
          Fatalf "wrong postgres format offset=%d, length=%d, err=%s, source=%d:%s, cri=%s"
      | Ok root => In_enqueue (set_Root root event) sourceID sourceName offset bytes
      end
  | NO | AUTO => Panicf "unknown decoder %d for pipeline %q"
  end.

(** [coin] is what [rand.Int()] returns when it is asked. *)
Definition finalize (event : Event) (notifyInput backEvent : bool) (coin : Z) : PM unit :=
  if IsTimeoutKind event then ret tt else
  when notifyInput
    (call (InputCommit event) ;;;
     modify (fun p => set_totalCommitted (to_int64 (totalCommitted p + 1)) p) ;;;
     modify (fun p => set_totalSize (to_int64 (totalSize p + to_int64 (Size event))) p) ;;;
     p <- get ;;
     when ((len (outSample p) =? 0) && (Z.land coin 1 =? 1))
          (modify (set_outSample (outSample p ++ Encode env (Root event)))) ;;;
     p <- get ;;
     when (Size event >? maxSize p) (modify (set_maxSize (Size event)))) ;;;
  call (StreamCommit event) ;;;
  if negb backEvent then ret tt else
  p <- get ;;
  when (eventLogEnabled p)
       (modify (set_eventLog (eventLog p ++ [EncodeToString (Root event)]))) ;;;
  eventPool_back event.

Definition Commit (event : Event) (coin : Z) : PM unit :=
  finalize event true true coin.

Definition Error (err : string) : PM unit :=
  p <- get ;;
  if IsStrict (settings p) then Fatalf err else Errorf err.

Definition newProc : PM processor :=
  p <- get ;;
  ret (mkProcessor (len (Procs p))).

(** The body of the loop of [initProcs]. *)
Definition enlist : PM unit :=
  proc <- newProc ;;
  modify (fun p => set_Procs (Procs p ++ [proc]) p).

(** [gomaxprocs] is what [runtime.GOMAXPROCS(0)] returns. *)
Definition initProcs (gomaxprocs : Z) : PM unit :=
  p <- get ;;
  (* default proc count is CPU cores * 2 *)
  let procCount := if singleProc p then 1 else to_int (gomaxprocs * 2) in
  Infof "starting pipeline %q: procs=%d" ;;;
  modify (set_procCount (Some (to_int32 procCount))) ;;;
  modify (set_activeProcs (Some 0)) ;;;
  modify (set_Procs []) ;;;
  times (Z.to_nat procCount) enlist.

(** The body of the loop of [expandProcs]. *)
Definition spawn : PM unit :=
  proc <- newProc ;;
  modify (fun p => set_Procs (Procs p ++ [proc]) p) ;;;
  call (ProcessorStart proc).

Definition expandProcs : PM unit :=
  p <- get ;;
  if singleProc p then ret tt else
  match procCount p with
  | None => panic
  | Some from =>
      let to := to_int32 (from * 2) in
      Infof "processors count expanded from %d to %d" ;;;
      when (to >? 10000) (Warnf "too many processors: %d") ;;;
      times (Z.to_nat (to_int (to_int32 (to - from)))) spawn ;;;
      modify (set_procCount (Some to))
  end.

Definition millisecond : Z := 1000000.
Definition second : Z := 1000 * millisecond.

(** One turn of the loop of [growProcs].  [t] is the local variable;
    [now1] and [now2] are what [time.Now()] returns where the turn resets
    [t] and where it compares.  [None]: the function returns. *)
Definition growProcs_turn (t now1 now2 : Z) : PM (option Z) :=
  let interval := millisecond * 100 in
  call (Sleep interval) ;;;
  p <- get ;;
  if shouldStop p then ret None else
  match procCount p, activeProcs p with
  | Some pc, Some ap =>
      let t := if negb (pc =? ap) then now1 else t in
      when (now2 - t >? interval) expandProcs ;;;
      ret (Some t)
  | _, _ => panic
  end.

(** [growProcs]: [t0] is the first [time.Now()], [clock i] the two readings
    of turn [i]. *)
Fixpoint growProcs_from (fuel : nat) (clock : nat -> Z * Z) (i : nat) (t : Z) : PM unit :=
  match fuel with
  | O => fun p => Spinning p
  | S fuel' =>
      r <- growProcs_turn t (fst (clock i)) (snd (clock i)) ;;
      match r with
      | None => ret tt
      | Some t' => growProcs_from fuel' clock (S i) t'
      end
  end.

Definition growProcs (fuel : nat) (t0 : Z) (clock : nat -> Z * Z) : PM unit :=
  growProcs_from fuel clock O t0.

(** One turn of the loop of [maintenance]; the rates it computes are in
    floating point and go to the log line only.  The arguments of the stats
    line load [p.activeProcs] and [p.procCount], which are nil until
    [initProcs] has run.  [None]: the function returns. *)
Definition maintenance_turn (lastCommitted lastSize : Z) : PM (option (Z * Z)) :=
  p <- get ;;
  let interval := MaintenanceInterval (settings p) in
  call (Sleep interval) ;;;
  p <- get ;;
  if shouldStop p then ret None else
  call AntispamMaintenance ;;;
  call MetricsMaintenance ;;;
  p <- get ;;
  let totalCommitted := totalCommitted p in
  let totalSize := totalSize p in
  match activeProcs p, procCount p with
  | Some _, Some _ =>
      Infof "%q pipeline stats interval=%ds, active procs=%d/%d, queue=%d/%d, out=%d|%.1fMb, rate=%d/s|%.1fMb/s, total=%d|%.1fMb, avg size=%d, max size=%d"
  | _, _ => panic     (* p.activeProcs.Load(), p.procCount.Load() *)
  end ;;;
  p <- get ;;
  when (len (inSample p) >? 0)
       (Infof "%q pipeline input event sample: %s" ;;; modify (set_inSample [])) ;;;
  p <- get ;;
  when (len (outSample p) >? 0)
       (Infof "%q pipeline output event sample: %s" ;;; modify (set_outSample [])) ;;;
  ret (Some (totalCommitted, totalSize)).

Fixpoint maintenance_from (fuel : nat) (lastCommitted lastSize : Z) : PM unit :=
  match fuel with
  | O => fun p => Spinning p
  | S fuel' =>
      r <- maintenance_turn lastCommitted lastSize ;;
      match r with
      | None => ret tt
      | Some (c, s) => maintenance_from fuel' c s
      end
  end.

Definition maintenance (fuel : nat) : PM unit := maintenance_from fuel 0 0.

Definition store_shouldStop (b : bool) : PM unit :=
  call (StoreShouldStop b) ;;; modify (set_shouldStop b).

Definition Stop : PM unit :=
  Infof "stopping pipeline %q, total committed=%d" ;;;
  Infof "stopping processors count=%d" ;;;
  p <- get ;;
  for_each (Procs p) (fun processor => call (ProcessorStop processor)) ;;;
  call StreamerStop ;;;
  Infof "stopping %q input" ;;;
  call InputStop ;;;
  Infof "stopping %q output" ;;;
  call OutputStop ;;;
  store_shouldStop true.

Definition UseSpread : PM unit := modify (set_useSpread true).
Definition DisableStreams : PM unit := modify (set_disableStreams true).
Definition SuggestDecoder (t : DecoderType) : PM unit := modify (set_suggestedDecoder t).
Definition DisableParallelism : PM unit := modify (set_singleProc true).
Definition EnableEventLog : PM unit := modify (set_eventLogEnabled true).

End Methods.

(** ** The admin handlers

    [http.ResponseWriter] as net/http documents it: the first [Write] sends
    the header with status 200 unless [WriteHeader] ran before, and a
    [WriteHeader] after the header is sent changes nothing. *)

Record ResponseWriter : Type := mkResponseWriter {
  header : list (string * string);
  status : option Z;           (* None: the header is not sent yet *)
  body : list byte
}.

Definition newResponseWriter : ResponseWriter := mkResponseWriter [] None [].

Definition StatusOK : Z := 200.
Definition StatusBadRequest : Z := 400.
Definition StatusInternalServerError : Z := 500.

Definition HM : Type -> Type := M ResponseWriter.

Definition Header_Add (key value : string) : HM unit :=
  modify (fun w => mkResponseWriter (header w ++ [(key, value)]) (status w) (body w)).

Definition WriteHeader (code : Z) : HM unit :=
  modify (fun w =>
            match status w with
            | Some _ => w      (* superfluous call: logged by net/http and dropped *)
            | None => mkResponseWriter (header w) (Some code) (body w)
            end).

Definition Write (b : list byte) : HM unit :=
  WriteHeader StatusOK ;;;
  modify (fun w => mkResponseWriter (header w) (status w) (body w ++ b)).

(** Modelled from the spec: the statuses an action's metric counts;
    [metrics_holder.go] is not among the sources.  "keyed by status", one of received,
    discarded, passed. *)
Definition eventStatusReceived : string := "received".
Definition eventStatusDiscarded : string := "discarded".
Definition eventStatusPassed : string := "passed".

(** Modelled from the spec: one action's [metrics], with the counters of its
    current window; [metrics_holder.go] is not among the sources. *)
Record metrics : Type := mkMetrics {
  name : string;
  totalCounter : list (string * Z)
}.

(** The field of [ActionPluginStaticInfo] that the handlers read. *)
Record ActionPluginStaticInfo : Type := mkActionInfo {
  MetricName : string
}.

(** The local [Event] struct of [serveActionInfo]. *)
Record InfoEvent : Type := mkInfoEvent {
  Status : string;
  Count : Z
}.

Fixpoint find_metric (n : string) (ms : list metrics) : option metrics :=
  match ms with
  | [] => None
  | m :: rest => if String.eqb (name m) n then Some m else find_metric n rest
  end.

Fixpoint counter_of (statusName : string) (cs : list (string * Z)) : option Z :=
  match cs with
  | [] => None
  | (k, c) :: rest => if String.eqb k statusName then Some c else counter_of statusName rest
  end.

Section Handlers.
(** [encoding/json]: [json.Marshal] of an [ErrResp] and of the events, and
    [sample.Marshal]. *)
Variable Marshal_ErrResp : string -> list byte.
Variable Marshal_events : list InfoEvent -> list byte.

Definition writeErr (err : string) : HM unit :=
  let respErr := Marshal_ErrResp err in
  Write respErr.

Definition no_metric_message : string :=
  "If you want to see a statistic about events, consider adding `metric_name` to the action's configuration.".

(** [holder] is [p.metricsHolder.metrics]. *)
Definition serveActionInfo (info : ActionPluginStaticInfo) (holder : list metrics) : HM unit :=
  Header_Add "Content-Type" "application/json" ;;;
  if String.eqb (MetricName info) EmptyString then
    writeErr no_metric_message ;;;
    WriteHeader StatusBadRequest
  else
    match find_metric (MetricName info) holder with
    | None => fun w => Panicked w     (* actionMetric is nil *)
    | Some actionMetric =>
        let events :=
          map (fun st =>
                 let c := match counter_of st (totalCounter actionMetric) with
                          | Some c => c
                          | None => 0
                          end in
                 mkInfoEvent st (to_int c))
              [eventStatusReceived; eventStatusDiscarded; eventStatusPassed] in
        Write (Marshal_events events)
    end.

Definition no_processors_message : string := "There are no active processors".
Definition timeout_message : string :=
  "Timeout while try to display an event before and after the action processing.".

(** [firstSample]: the marshalled sample that reaches the channel before
    the five seconds are over, [None] when the timer fires first. *)
Definition serveActionSample (p : Pipeline) (firstSample : option (list byte)) : HM unit :=
  Header_Add "Content-Type" "application/json" ;;;
  let refuse := writeErr no_processors_message ;;; WriteHeader StatusBadRequest in
  let nil_dereference : HM unit := fun w => Panicked w in
  match activeProcs p with
  | None => nil_dereference
  | Some ap =>
      if ap <=? 0 then refuse else
      match procCount p with
      | None => nil_dereference
      | Some pc =>
          if pc <=? 0 then refuse else
          match firstSample with
          | Some s => Write s
          | None =>
              writeErr timeout_message ;;;
              WriteHeader StatusInternalServerError
          end
      end
  end.
End Handlers.


(** ** The output plugins *)

(** Modelled from the spec: [pipeline.Batch]; [batcher.go] is not among the
    sources.  "A sequence of event references bound to one output worker". *)
Record Batch : Type := mkBatch {
  Events : list Event
}.

(** *** plugin/output/splunk *)
Module Splunk.

Record Config : Type := mkConfig {
  Endpoint : string;
  Token : string;
  WorkersCount_ : Z;
  RequestTimeout_ : Z;        (* time.Duration, nanoseconds *)
  BatchSize_ : Z;
  BatchFlushTimeout_ : Z
}.

Record data : Type := mkData {
  outBuf : list byte
}.

Inductive Effect : Type :=
| Post (endpoint : string) (payload : list byte) (timeout : Z)   (* c.Do(req) *)
| LogError (format : string)
| Sleep (d : Z).

(** The plugin, the cell [*workerData] of the batcher worker that calls
    [out], and the calls made so far. *)
Record Plugin : Type := mkPlugin {
  config : Config;
  avgLogSize : Z;
  workerData : option data;
  history : list Effect
}.

Definition set_workerData (v : option data) (p : Plugin) : Plugin :=
  mkPlugin (config p) (avgLogSize p) v (history p).
Definition set_history (v : list Effect) (p : Plugin) : Plugin :=
  mkPlugin (config p) (avgLogSize p) (workerData p) v.

(** What one request meets on its way. *)
Inductive exchange : Type :=
| RequestRejected (err : string)    (* http.NewRequestWithContext fails *)
| DoFailed (err : string)           (* c.Do fails *)
| ReadFailed (err : string)         (* io.ReadAll fails *)
| Replied (b : list byte).

Section Out.
(** [network i]: what the [i]-th request of a call of [out] meets. *)
Variable network : nat -> exchange.
(** insane-json: [DecodeBytes], [AsInt] (0 on nil) and [Encode]. *)
Variable DecodeBytes : list byte -> result Node.
Variable AsInt : option Node -> Z.
Variable Encode : Node -> list byte.

Definition call (e : Effect) : M Plugin unit :=
  modify (fun p => set_history (history p ++ [e]) p).

Definition send_result (x : exchange) : result unit :=
  match x with
  | RequestRejected err => Err ("can't create request: " ++ err)
  | DoFailed err => Err ("can't send request: " ++ err)
  | ReadFailed err => Err ("can't read response: " ++ err)
  | Replied b =>
      match DecodeBytes b with
      | Err err => Err ("can't decode response: " ++ err)
      | Ok root =>
          let code := AsInt (Dig root "code") in
          if code >? 0 then
            Err ("error while sending to splunk: " ++ string_of_list_byte b)
          else Ok tt
      end
  end.

Definition send (attempt : nat) (payload : list byte) (timeout : Z)
  : M Plugin (result unit) :=
  p <- get ;;
  match network attempt with
  | RequestRejected _ => ret tt
  | _ => call (Post (Endpoint (config p)) payload timeout)
  end ;;;
  ret (send_result (network attempt)).

(** The [for] loop that ends [out]. *)
Fixpoint send_loop (fuel : nat) (attempt : nat) (outBuf : list byte) : M Plugin unit :=
  match fuel with
  | O => fun p => Spinning p
  | S fuel' =>
      p <- get ;;
      r <- send attempt outBuf (RequestTimeout_ (config p)) ;;
      match r with
      | Err _ =>
          call (LogError "can't send data to splunk address=%s: %s") ;;;
          call (Sleep second) ;;;
          send_loop fuel' (S attempt) outBuf
      | Ok _ => ret tt
      end
  end.

Definition encode_batch (batch : Batch) : list byte :=
  fold_left (fun outBuf event => outBuf ++ Encode (JObject [("event", Root event)]))
            (Events batch) [].

(** The capacity of [data.outBuf] decides only whether the buffer is
    allocated anew; its content starts empty either way. *)
Definition out (fuel : nat) (batch : Batch) : M Plugin unit :=
  let outBuf := encode_batch batch in
  modify (set_workerData (Some (mkData outBuf))) ;;;
  send_loop fuel O outBuf.

(** The [i]-th request fails. *)
Definition fails (i : nat) : Prop := exists msg, send_result (network i) = Err msg.

(** What the [i]-th request adds to the history: the post, unless the
    request could not be built. *)
Definition attempt (p : Plugin) (i : nat) (payload : list byte) : list Effect :=
  match network i with
  | RequestRejected _ => []
  | _ => [Post (Endpoint (config p)) payload (RequestTimeout_ (config p))]
  end.

(** [n] failed requests from the [i]-th on, each followed by the error line
    and the sleep of one second. *)
Fixpoint retries (p : Plugin) (i : nat) (n : nat) (payload : list byte) : list Effect :=
  match n with
  | O => []
  | S k =>
      attempt p i payload ++
      [LogError "can't send data to splunk address=%s: %s"; Sleep second] ++
      retries p (S i) k payload
  end.

Definition sleeps (h : list Effect) : list Z :=
  flat_map (fun x => match x with Sleep d => [d] | _ => [] end) h.

End Out.
End Splunk.

(** *** plugin/output/file *)
Module FileOutput.

Inductive Effect : Type :=
| FileWrite (payload : list byte)     (* p.file.Write(data) *)
| LogFatal (format : string).

Record Plugin : Type := mkPlugin {
  BatchSize_ : Z;
  avgLogSize : Z;
  workerData : option (list byte);    (* the [outBuf] of [*workerData] *)
  history : list Effect
}.

Definition set_workerData (v : option (list byte)) (p : Plugin) : Plugin :=
  mkPlugin (BatchSize_ p) (avgLogSize p) v (history p).
Definition set_history (v : list Effect) (p : Plugin) : Plugin :=
  mkPlugin (BatchSize_ p) (avgLogSize p) (workerData p) v.

Section Out.
(** [file_Write data]: the error [p.file.Write(data)] returns, if any. *)
Variable file_Write : list byte -> option string.
(** [event.Encode(nil)] *)
Variable Encode : Event -> list byte.

Definition call (e : Effect) : M Plugin unit :=
  modify (fun p => set_history (history p ++ [e]) p).

Definition write (payload : list byte) : M Plugin unit :=
  call (FileWrite payload) ;;;
  match file_Write payload with
  | Some _ =>
      fun p => Fatal (set_history
                        (history p ++ [LogFatal "could not write into the file: %s, error: %s"]) p)
  | None => ret tt
  end.

Definition encode_batch (batch : Batch) : list byte :=
  fold_left (fun outBuf event => (outBuf ++ Encode event) ++ [x0a]) (Events batch) [].

Definition out (batch : Batch) : M Plugin unit :=
  let outBuf := encode_batch batch in
  modify (set_workerData (Some outBuf)) ;;;
  write outBuf.

End Out.
End FileOutput.


(** ** Readings of a history *)

(** The events handed to the stream registry, with the source and the stream
    name they were filed under. *)
Definition enqueued (h : list Effect) : list (Z * StreamName * Event) :=
  flat_map (fun x => match x with
                     | StreamerPutEvent sourceID n e => [(sourceID, n, e)]
                     | _ => []
                     end) h.

(** The events given back to the pool. *)
Definition released (h : list Effect) : list Event :=
  flat_map (fun x => match x with PoolBack e => [e] | _ => [] end) h.

Definition is_log (x : Effect) : bool :=
  match x with Log _ _ | LogFatal _ | LogPanic _ => true | _ => false end.

Definition without_logs (h : list Effect) : list Effect :=
  filter (fun x => negb (is_log x)) h.

Definition is_component_stop (x : Effect) : bool :=
  match x with
  | ProcessorStop _ | StreamerStop | InputStop | OutputStop => true
  | _ => false
  end.

(** "sets a flag then stops components": the store of the flag comes in the
    history before any component is stopped. *)
Fixpoint flag_set_before_stops (h : list Effect) : bool :=
  match h with
  | [] => true
  | StoreShouldStop true :: _ => true
  | x :: rest => if is_component_stop x then false else flag_set_before_stops rest
  end.

(** The document the source builds for the raw decoder. *)
Definition raw_document (bytes : list byte) : Node :=
  MutateToBytesCopy (AddFieldNoAlloc DecodeString_empty_object "message") "message"
    (firstn (Z.to_nat (len bytes - 1)) bytes).

(** "wrap bytes as {message: ...}" in the spec's words: one field, holding
    the record's bytes. *)
Definition spec_raw_document (bytes : list byte) : Node :=
  JObject [("message", JString (string_of_list_byte bytes))].

(** "the stream name is taken from the string value of the configured
    StreamField", "an empty StreamName defaults to the literal not_set", in
    the spec's words. *)
Definition spec_stream_name (value : string) : StreamName :=
  if String.eqb value EmptyString then "not_set" else value.

(** The root [In] gives the event when its [switch] does not return. *)
Definition decoded (env : Collaborators) (p : Pipeline) (bytes : list byte) : option Node :=
  match selected_decoder p with
  | JSON => match parseJSON env bytes with Ok root => Some root | Err _ => None end
  | RAW => Some (raw_document bytes)
  | CRI => match DecodeCRI env DecodeString_empty_object bytes with
           | Ok root => Some root
           | Err _ => None
           end
  | POSTGRES => match DecodePostgres env DecodeString_empty_object bytes with
                | Ok root => Some root
                | Err _ => None
                end
  | NO | AUTO => None
  end.

(** The name [streamEvent] files an event under. *)
Definition stream_name_of (env : Collaborators) (p : Pipeline) (event : Event) : StreamName :=
  if disableStreams p then streamName event
  else match Dig (Root event) (StreamField (settings p)) with
       | Some node => AsString env node
       | None => streamName event
       end.

(** ** What can happen to a started pipeline *)

Inductive Op : Type :=
| OpIn (sourceID : Z) (sourceName : string) (offset : Z) (bytes : list byte)
       (isNewSource : bool)
| OpCommit (e : Event) (coin : Z)
| OpFinalize (e : Event) (notifyInput backEvent : bool) (coin : Z)
| OpError (err : string)
| OpExpandProcs
| OpGrowProcsTurn (t now1 now2 : Z)
| OpMaintenanceTurn (lastCommitted lastSize : Z)
| OpStop
| OpUseSpread
| OpDisableStreams
| OpSuggestDecoder (t : DecoderType)
| OpDisableParallelism
| OpEnableEventLog
| OpActive (n : Z).       (* the processors keep [activeProcs] up to date *)

Definition run_op (env : Collaborators) (op : Op) (p : Pipeline) : Pipeline :=
  match op with
  | OpIn sourceID sourceName offset bytes isNewSource =>
      final (In env sourceID sourceName offset bytes isNewSource p)
  | OpCommit e coin => final (Commit env e coin p)
  | OpFinalize e notifyInput backEvent coin => final (finalize env e notifyInput backEvent coin p)
  | OpError err => final (Error err p)
  | OpExpandProcs => final (expandProcs p)
  | OpGrowProcsTurn t now1 now2 => final (growProcs_turn t now1 now2 p)
  | OpMaintenanceTurn lastCommitted lastSize =>
      final (maintenance_turn lastCommitted lastSize p)
  | OpStop => final (Stop p)
  | OpUseSpread => final (UseSpread p)
  | OpDisableStreams => final (DisableStreams p)
  | OpSuggestDecoder t => final (SuggestDecoder t p)
  | OpDisableParallelism => final (DisableParallelism p)
  | OpEnableEventLog => final (EnableEventLog p)
  | OpActive n => set_activeProcs (Some (to_int32 n)) p
  end.

Definition run_ops (env : Collaborators) (ops : list Op) (p : Pipeline) : Pipeline :=
  fold_left (fun q op => run_op env op q) ops p.

(** The count of processors the pipeline aims at, 0 before [initProcs]. *)
Definition target (p : Pipeline) : Z :=
  match procCount p with Some n => n | None => 0 end.


(** The event as [In] stamps it after its [switch]. *)
Definition stamped (event : Event) (sourceID : Z) (sourceName : string) (offset : Z)
           (bytes : list byte) : Event :=
  set_Size (len bytes)
    (set_streamName DefaultStreamName
       (set_SourceName sourceName (set_SourceID sourceID (set_Offset offset event)))).

(** The pipeline once [In] has kept its first record as the input sample. *)
Definition sampled (env : Collaborators) (root : Node) (p : Pipeline) : Pipeline :=
  if len (inSample p) =? 0 then set_inSample (inSample p ++ Encode env root) p else p.

(** The event as [streamEvent] hands it to the streamer; [None] where the
    spreading panics (no processor count yet, or a count of zero). *)
Definition filed (env : Collaborators) (p : Pipeline) (event : Event) : option Event :=
  let spread :=
    if useSpread p then
      match procCount p with
      | None => None
      | Some pc =>
          if to_uint64 pc =? 0 then None
          else Some (set_SourceID (SeqID event mod to_uint64 pc) event)
      end
    else Some event in
  match spread with
  | None => None
  | Some event =>
      Some (if negb (disableStreams p) then
              match Dig (Root event) (StreamField (settings p)) with
              | Some node => set_streamName (AsString env node) event
              | None => event
              end
            else event)
  end.


(** The format [In] logs a JSON decode error with. *)
Definition json_error_format : string :=
  "wrong json format offset=%d, length=%d, err=%s, source=%d:%s, json=%s".

(** The spreading does not panic: it is off, or there is a processor count
    that is not zero. *)
Definition can_spread (p : Pipeline) : Prop :=
  useSpread p = true -> exists pc, procCount p = Some pc /\ to_uint64 pc <> 0.

(** The processors [newProc] makes one after the other, the first with rank
    [first]. *)
Fixpoint spawned (first : Z) (n : nat) : list processor :=
  match n with
  | O => []
  | S k => mkProcessor first :: spawned (first + 1) k
  end.

(** The interval of [growProcs]. *)
Definition growth_interval : Z := millisecond * 100.





(** The processor count and the processors are those of [p]. *)
Definition same_fleet (p q : Pipeline) : Prop :=
  procCount q = procCount p /\ Procs q = Procs p.

(** A method that leaves the fleet alone, however it ends. *)
Definition keeps_fleet {A} (m : PM A) : Prop :=
  forall p, same_fleet p (final (m p)).

(** The response of an admin call that wrote [payload] with [status]. *)
Definition error_response (status : Z) (payload : list byte) : ResponseWriter :=
  mkResponseWriter [("Content-Type", "application/json")] (Some status) payload.

(** ** More of the controller *)




Definition GetEventsTotal : PM Z :=
  p <- get ;;
  ret (to_int (totalCommitted p)).

(** [p.eventLog[index]] panics on a negative index. *)
Definition GetEventLogItem (index : Z) : PM string :=
  p <- get ;;
  when (index >=? len (eventLog p)) (Fatalf "can't find log item with index %d") ;;;
  if index <? 0 then panic
  else ret (nth (Z.to_nat index) (eventLog p) EmptyString).

(** The events the input plugin was told to commit. *)
Definition committed (h : list Effect) : list Event :=
  flat_map (fun x => match x with InputCommit e => [e] | _ => [] end) h.

(** A method that leaves [f] of the pipeline as it was, however it ends. *)
Definition unchanged {T A} (f : Pipeline -> T) (m : PM A) : Prop :=
  forall p, f (final (m p)) = f p.

(** What the controller keeps about commits. *)
Definition accounts (p : Pipeline) : Z * Z * Z * list byte * list string * list Event :=
  (totalCommitted p, totalSize p, maxSize p, outSample p, eventLog p, committed (history p)).

Definition is_OpStop (op : Op) : bool :=
  match op with OpStop => true | _ => false end.

(** One [Commit] per event, in the order of the list, each with its coin. *)
Fixpoint commits (es : list (Event * Z)) : list Op :=
  match es with
  | [] => []
  | (e, coin) :: rest => OpCommit e coin :: commits rest
  end.

Fixpoint sum_sizes (es : list (Event * Z)) : Z :=
  match es with
  | [] => 0
  | (e, _) :: rest => Size e + sum_sizes rest
  end.

Fixpoint turns (ts : list (Z * Z * Z)) : list Op :=
  match ts with
  | [] => []
  | (t, now1, now2) :: rest => OpGrowProcsTurn t now1 now2 :: turns rest
  end.

(** A value of Go's [int64]. *)
Definition is_int64 (z : Z) : Prop := - 2 ^ 63 <= z <= max_int64.

(** The events of a list that are not of timeout kind. *)
Definition not_timeouts (es : list (Event * Z)) : list (Event * Z) :=
  filter (fun ec => negb (IsTimeoutKind (fst ec))) es.


(** The count an action's metric holds for a status, 0 when it has none. *)
Definition count_of (m : metrics) (statusName : string) : Z :=
  match counter_of statusName (totalCounter m) with
  | Some c => to_int c
  | None => to_int 0
  end.

(** ** Go strings, paths and numbers as text

    [strings], [strconv], [fmt] and [path/filepath] (on Unix) as the Go
    documentation has them, for what [plugin/output/file] asks of them. *)

Definition slen (s : string) : Z := Z.of_nat (String.length s).

(** [s[lo:hi]]; [None] where Go panics with slice bounds out of range. *)
Definition slice (s : string) (lo hi : Z) : option string :=
  if (0 <=? lo) && (lo <=? hi) && (hi <=? slen s)
  then Some (substring (Z.to_nat lo) (Z.to_nat (hi - lo)) s)
  else None.

(** The index of the last [c] of [s], counted from [pos]; -1 when [s] has
    none. *)
Fixpoint last_index_from (c : ascii) (s : string) (pos : Z) : Z :=
  match s with
  | EmptyString => -1
  | String a rest =>
      let j := last_index_from c rest (pos + 1) in
      if 0 <=? j then j else if Ascii.eqb a c then pos else -1
  end.

Definition LastIndexByte (s : string) (c : ascii) : Z := last_index_from c s 0.

(** [s[i:]] for [0 <= i <= len(s)]. *)
Definition from_index (s : string) (i : Z) : string :=
  substring (Z.to_nat i) (String.length s - Z.to_nat i) s.

(** [filepath.Split]: the path is cut after its last separator. *)
Definition Split (path : string) : string * string :=
  let i := LastIndexByte path "/" in
  (substring 0 (Z.to_nat (i + 1)) path, from_index path (i + 1)).

(** [filepath.Ext]: the suffix from the last dot of the last element. *)
Definition Ext (path : string) : string :=
  let dot := LastIndexByte path "." in
  if LastIndexByte path "/" <? dot then from_index path dot else EmptyString.

Fixpoint strip_trailing_slashes (s : string) : string :=
  match s with
  | EmptyString => EmptyString
  | String a rest =>
      match strip_trailing_slashes rest with
      | EmptyString => if Ascii.eqb a "/" then EmptyString else String a EmptyString
      | r => String a r
      end
  end.

(** [filepath.Base] and [path.Base]. *)
Definition Base (path : string) : string :=
  match path with
  | EmptyString => "."
  | _ =>
      let path := strip_trailing_slashes path in
      let i := LastIndexByte path "/" in
      let path := if 0 <=? i then from_index path (i + 1) else path in
      match path with
      | EmptyString => "/"
      | _ => path
      end
  end.

(** [%d] of [fmt.Sprintf]. *)
Definition Sprint_d (z : Z) : string := NilZero.string_of_int (Z.to_int z).

(** [strconv.ParseInt(s, 10, 64)], which is [strconv.Atoi] where [int] has
    64 bits: an optional sign, then decimal digits only, at least one; a
    value that does not fit is an error too. *)
Definition ParseInt (s : string) : result Z :=
  match s with
  | EmptyString => Err "invalid syntax"
  | String c rest =>
      let neg := Ascii.eqb c "-" in
      let digits := if Ascii.eqb c "+" || neg then rest else s in
      match NilZero.uint_of_string digits with
      | None => Err "invalid syntax"
      | Some d =>
          let un := Z.of_uint d in
          if neg then (if un <=? 2 ^ 63 then Ok (- un) else Err "value out of range")
          else (if un <? 2 ^ 63 then Ok un else Err "value out of range")
      end
  end.

Definition Atoi : string -> result Z := ParseInt.

(** *** plugin/output/file: names and rotation *)
Module FileSeal.

Definition fileNameSeparator : string := "_".

Record Config : Type := mkConfig {
  TargetFile : string;
  retention : Z;              (* the nanoseconds behind [RetentionInterval_] *)
  Layout : string;
  FileMode_ : Z
}.

(** [RetentionInterval_], a [time.Duration]: an int64 of nanoseconds. *)
Definition RetentionInterval_ (c : Config) : Z := to_int64 (retention c).

Inductive Effect : Type :=
| MkdirAll (dir : string)
| Glob (pattern : string)
| OpenFile (path : string) (mode : Z)
| Stat (path : option string)
| Rename (oldpath newpath : string)
| Close (path : option string)
| NewBatcher
| BatcherStart
| GoSealUpTicker                              (* longpanic.Go(p.fileSealUpTicker) *)
| GoSealUpCallback (newFileName : string)
| LogFatal (format : string)
| LogPanic (format : string).

(** [time.Time] without a monotonic reading, as [time.Unix] makes it: the
    seconds since the first of January of year 1, an int64, and the
    nanoseconds within the second. *)
Record Time : Type := mkTime {
  ext : Z;
  nsec : Z
}.

Definition unixToInternal : Z := 62135596800.

(** [time.Unix(sec, 0)]: the sum wraps. *)
Definition Unix (sec : Z) : Time := mkTime (to_int64 (sec + unixToInternal)) 0.

(** [t.addSec(d)]: a sum that does not fit stops at the end of the range. *)
Definition addSec (d : Z) (t : Time) : Time :=
  let sum := to_int64 (ext t + d) in
  if Bool.eqb (sum >? ext t) (d >? 0) then mkTime sum (nsec t)
  else if d >? 0 then mkTime max_int64 (nsec t)
  else mkTime (- max_int64) (nsec t).

(** [t.Add(d)] *)
Definition Add (t : Time) (d : Z) : Time :=
  let dsec := Z.quot d 1000000000 in
  let nsec' := nsec t + Z.rem d 1000000000 in
  if nsec' >=? 1000000000 then addSec (dsec + 1) (mkTime (ext t) (nsec' - 1000000000))
  else if nsec' <? 0 then addSec (dsec - 1) (mkTime (ext t) (nsec' + 1000000000))
  else addSec dsec (mkTime (ext t) nsec').

(** The instant a [Time] stands for, in nanoseconds from the Unix epoch.
    The plugin's [nextSealUpTime] is kept as this number. *)
Definition instant (t : Time) : Z := (ext t - unixToInternal) * second + nsec t.

(** The zero [Time], the first of January of year 1. *)
Definition zero_time : Z := - 62135596800 * second.

(** The fields of the plugin that naming and rotation use.  [file] is the
    path the open [*os.File] was opened with. *)
Record Plugin : Type := mkPlugin {
  config : Config;
  file : option string;
  idx : Z;                    (* int *)
  nextSealUpTime : Z;
  targetDir : string;
  fileExtension : string;
  fileName : string;
  tsFileName : string;
  hasSealUpCallback : bool;   (* p.SealUpCallback != nil *)
  history : list Effect
}.

Definition set_config (v : Config) (p : Plugin) : Plugin :=
  mkPlugin v (file p) (idx p) (nextSealUpTime p) (targetDir p) (fileExtension p)
    (fileName p) (tsFileName p) (hasSealUpCallback p) (history p).
Definition set_file (v : option string) (p : Plugin) : Plugin :=
  mkPlugin (config p) v (idx p) (nextSealUpTime p) (targetDir p) (fileExtension p)
    (fileName p) (tsFileName p) (hasSealUpCallback p) (history p).
Definition set_idx (v : Z) (p : Plugin) : Plugin :=
  mkPlugin (config p) (file p) v (nextSealUpTime p) (targetDir p) (fileExtension p)
    (fileName p) (tsFileName p) (hasSealUpCallback p) (history p).
Definition set_nextSealUpTime (v : Z) (p : Plugin) : Plugin :=
  mkPlugin (config p) (file p) (idx p) v (targetDir p) (fileExtension p) (fileName p)
    (tsFileName p) (hasSealUpCallback p) (history p).
Definition set_targetDir (v : string) (p : Plugin) : Plugin :=
  mkPlugin (config p) (file p) (idx p) (nextSealUpTime p) v (fileExtension p)
    (fileName p) (tsFileName p) (hasSealUpCallback p) (history p).
Definition set_fileExtension (v : string) (p : Plugin) : Plugin :=
  mkPlugin (config p) (file p) (idx p) (nextSealUpTime p) (targetDir p) v (fileName p)
    (tsFileName p) (hasSealUpCallback p) (history p).
Definition set_fileName (v : string) (p : Plugin) : Plugin :=
  mkPlugin (config p) (file p) (idx p) (nextSealUpTime p) (targetDir p) (fileExtension
    p) v (tsFileName p) (hasSealUpCallback p) (history p).
Definition set_tsFileName (v : string) (p : Plugin) : Plugin :=
  mkPlugin (config p) (file p) (idx p) (nextSealUpTime p) (targetDir p) (fileExtension
    p) (fileName p) v (hasSealUpCallback p) (history p).
Definition set_history (v : list Effect) (p : Plugin) : Plugin :=
  mkPlugin (config p) (file p) (idx p) (nextSealUpTime p) (targetDir p) (fileExtension
    p) (fileName p) (tsFileName p) (hasSealUpCallback p) v.

(** [&Plugin{}], as [Factory] makes it. *)
Definition blank (callback : bool) : Plugin :=
  mkPlugin (mkConfig EmptyString 0 EmptyString 0) None 0 zero_time
    EmptyString EmptyString EmptyString EmptyString callback [].

(** What the file system answers, given the calls made so far. *)
Record FileSystem : Type := mkFileSystem {
  mkdir_error : list Effect -> string -> option string;
  glob_result : list Effect -> string -> result (list string);
  open_error : list Effect -> string -> option string;
  stat_size : list Effect -> option string -> result Z;
  rename_error : list Effect -> string -> string -> option string;
  close_error : list Effect -> option string -> option string
}.

Definition FM : Type -> Type := M Plugin.

Definition call (e : Effect) : FM unit :=
  modify (fun p => set_history (history p ++ [e]) p).

Definition Fatalf {A} (format : string) : FM A :=
  fun p => Fatal (set_history (history p ++ [LogFatal format]) p).

Definition Panicf {A} (format : string) : FM A :=
  fun p => Panicked (set_history (history p ++ [LogPanic format]) p).

(** A run-time panic: slice bounds out of range. *)
Definition panic {A} : FM A := fun p => Panicked p.

Definition when (b : bool) (body : FM unit) : FM unit :=
  if b then body else ret tt.

Section Methods.
Variable fs : FileSystem.
(** [filepath.Join] *)
Variable Join : string -> string -> string.

Definition glob (pattern : string) : FM (result (list string)) :=
  fun p => Returned (glob_result fs (history p) pattern)
             (set_history (history p ++ [Glob pattern]) p).

(** The loop of [getStartIdx]; [None] where a slice panics. *)
Fixpoint scan (p : Plugin) (matches : list string) (idx : Z) : option Z :=
  match matches with
  | [] => Some idx
  | v :: rest =>
      let file := Base v in
      match slice file (slen (fileName p) + slen fileNameSeparator)
                  (slen file - slen (fileExtension p) - slen (Layout (config p))
                   - slen fileNameSeparator) with
      | None => None
      | Some i =>
          match Atoi i with
          | Err _ => Some idx                 (* break *)
          | Ok maxIdx => scan p rest (if maxIdx >? idx then maxIdx else idx)
          end
      end
  end.

Definition getStartIdx : FM Z :=
  p <- get ;;
  let pattern := (targetDir p ++ "/" ++ fileName p ++ fileNameSeparator ++ "*"
                  ++ fileNameSeparator ++ "*" ++ fileExtension p)%string in
  r <- glob pattern ;;
  match r with
  | Err _ => Panicf "%s"
  | Ok matches =>
      match scan p matches (-1) with
      | None => panic
      | Some idx => ret (to_int (idx + 1))
      end
  end.

(** [now]: what [time.Now().Unix()] returns. *)
Definition createNew (now : Z) : FM unit :=
  modify (fun p => set_tsFileName
                     (Sprint_d now ++ fileNameSeparator ++ fileName p ++ fileExtension p)%string
                     p) ;;;
  p <- get ;;
  let f := (targetDir p ++ tsFileName p)%string in
  let pattern := (targetDir p ++ "*" ++ fileNameSeparator ++ fileName p
                  ++ fileExtension p)%string in
  r <- glob pattern ;;
  let matches := match r with Ok matches => matches | Err _ => [] end in
  f <- (if len matches =? 1 then
          modify (set_tsFileName (Base (nth 0 matches EmptyString))) ;;;
          p <- get ;;
          ret (targetDir p ++ tsFileName p)%string
        else ret f) ;;
  p <- get ;;
  call (OpenFile f (FileMode_ (config p))) ;;;
  match open_error fs (history p) f with
  | Some _ => Panicf "could not open or create file: %s, error: %s"
  | None => modify (set_file (Some f))
  end.

Definition setNextSealUpTime : FM unit :=
  p <- get ;;
  match slice (tsFileName p) 0
              (slen (tsFileName p) - slen fileNameSeparator - slen (fileName p)
               - slen (fileExtension p)) with
  | None => panic
  | Some ts =>
      match ParseInt ts with
      | Err _ => Panicf "coult nod convert timestamp to int for file: %s, error: %s"
      | Ok t =>
          let creationTime := Unix t in
          modify (set_nextSealUpTime
                    (instant (Add creationTime (RetentionInterval_ (config p)))))
      end
  end.

Definition rename (newFileName : string) : FM unit :=
  p <- get ;;
  let f := (targetDir p ++ tsFileName p)%string in
  call (Rename f newFileName) ;;;
  match rename_error fs (history p) f newFileName with
  | Some _ => Panicf "could not rename file, error: %s"
  | None => modify (fun p => set_idx (to_int (idx p + 1)) p)
  end.

(** [stamp]: what [time.Now().Format(p.config.Layout)] returns; [unix] and
    [now]: what [time.Now().Unix()] and [time.Now()] return afterwards.
    [now] is a reading of the clock, a time of these years: [Add] of an
    int64 of nanoseconds stays far from the ends of its range there. *)
Definition sealUp (stamp : string) (unix now : Z) : FM unit :=
  p <- get ;;
  call (Stat (file p)) ;;;
  match stat_size fs (history p) (file p) with
  | Err _ => Panicf "could not get info about file: %s, error: %s"
  | Ok size =>
      if size =? 0 then ret tt else
      (* newFileName will be like: .var/log/log_1_01-02-2009_15:04.log *)
      let newFileName :=
        Join (targetDir p)
             (fileName p ++ fileNameSeparator ++ Sprint_d (idx p) ++ fileNameSeparator
              ++ stamp ++ fileExtension p)%string in
      rename newFileName ;;;
      let oldFile := file p in
      createNew unix ;;;
      modify (fun p => set_nextSealUpTime (now + RetentionInterval_ (config p)) p) ;;;
      q <- get ;;
      call (Close oldFile) ;;;
      match close_error fs (history q) oldFile with
      | Some _ => Panicf "could not close file: %s, error: %s"
      | None => when (hasSealUpCallback q) (call (GoSealUpCallback newFileName))
      end
  end.

(** [unix]: what [time.Now().Unix()] returns in [createNew]. *)
Definition Start (cfg : Config) (unix : Z) : FM unit :=
  modify (set_config cfg) ;;;
  let (dir, file') := Split (TargetFile cfg) in
  modify (set_targetDir dir) ;;;
  modify (set_fileExtension (Ext file')) ;;;
  p <- get ;;
  match slice file' 0 (slen file' - slen (fileExtension p)) with
  | None => panic
  | Some name =>
      modify (set_fileName name) ;;;
      modify (set_tsFileName ("%s" ++ "-" ++ name)%string) ;;;
      call NewBatcher ;;;
      p <- get ;;
      call (MkdirAll (targetDir p)) ;;;
      match mkdir_error fs (history p) (targetDir p) with
      | Some _ => Fatalf "could not create target dir: %s, error: %s"
      | None =>
          i <- getStartIdx ;;
          modify (set_idx i) ;;;
          createNew unix ;;;
          setNextSealUpTime ;;;
          p <- get ;;
          when (match file p with None => true | Some _ => false end)
               (Panicf "file struct is nil!") ;;;
          when (nextSealUpTime p =? zero_time) (Panicf "next seal up time is nil!") ;;;
          call GoSealUpTicker ;;;
          call BatcherStart
      end
  end.

End Methods.
End FileSeal.

(** The name [createNew] gives a file it makes at [unix]. *)
Definition fresh_name (p : FileSeal.Plugin) (unix : Z) : string :=
  (Sprint_d unix ++ FileSeal.fileNameSeparator ++ FileSeal.fileName p
   ++ FileSeal.fileExtension p)%string.

(** The last element of the name [sealUp] gives the file it seals with
    index [i] at the time that formats as [stamp]. *)
Definition sealed_name (p : FileSeal.Plugin) (i : Z) (stamp : string) : string :=
  (FileSeal.fileName p ++ FileSeal.fileNameSeparator ++ Sprint_d i
   ++ FileSeal.fileNameSeparator ++ stamp ++ FileSeal.fileExtension p)%string.

(** A match of [getStartIdx] that is a sealed file with index [i]. *)
Definition is_sealed (p : FileSeal.Plugin) (v : string) (i : Z) : Prop :=
  exists stamp,
    Base v = sealed_name p i stamp /\
    slen stamp = slen (FileSeal.Layout (FileSeal.config p)) /\
    is_int64 i.

(** A match of [getStartIdx] whose index does not read as a number. *)
Definition is_unreadable (p : FileSeal.Plugin) (v : string) : Prop :=
  exists text stamp msg,
    Base v = (FileSeal.fileName p ++ FileSeal.fileNameSeparator ++ text
              ++ FileSeal.fileNameSeparator ++ stamp ++ FileSeal.fileExtension p)%string /\
    slen stamp = slen (FileSeal.Layout (FileSeal.config p)) /\
    Atoi text = Err msg.

(** ** Sample values

    A small pipeline and stand-ins for the collaborators, to run the
    definitions on. *)
Module Sample.

Definition dq : string := String (ascii_of_nat 34) EmptyString.

(** Two JSON records, each with its line feed: an object whose field
    [stream] is the string [A], and one whose field [stream] is the empty
    string. *)
Definition record_A : list byte :=
  list_byte_of_string ("{" ++ dq ++ "stream" ++ dq ++ ":" ++ dq ++ "A" ++ dq ++ "}")%string
  ++ [x0a].
Definition record_empty_name : list byte :=
  list_byte_of_string ("{" ++ dq ++ "stream" ++ dq ++ ":" ++ dq ++ dq ++ "}")%string
  ++ [x0a].
Definition record_not_json : list byte := list_byte_of_string "not json".
Definition record_hi : list byte := list_byte_of_string "hi".

Definition eqb_bytes (a b : list byte) : bool :=
  String.eqb (string_of_list_byte a) (string_of_list_byte b).

(** A JSON decoder that knows the two records above and rejects the rest. *)
Definition parse (b : list byte) : result Node :=
  if eqb_bytes b record_A then Ok (JObject [("stream", JString "A")])
  else if eqb_bytes b record_empty_name then Ok (JObject [("stream", JString EmptyString)])
  else Err "unexpected symbol".

(** The sequence id the streamer hands out: the rank of the event among
    those filed so far. *)
Definition next_seq (h : list Effect) (_ : Z) (_ : StreamName) (_ : Event) : Z :=
  len (enqueued h) + 1.

Definition env : Collaborators :=
  mkCollaborators
    (fun _ _ _ _ => false)
    parse
    (fun _ _ => Err "timestamp is not found")
    (fun _ _ => Err "timestamp is not found")
    next_seq
    (fun _ => list_byte_of_string "{}").

Definition the_settings (strict : bool) : Settings :=
  mkSettings "json" 1024 (5 * second) 0 (16 * 1024) "stream" strict.

Definition blank (seq : Z) : Event := mkEvent JNull seq 0 0 EmptyString EmptyString 0 kindNormal.

Definition pipeline (dec : DecoderType) (strict : bool) : Pipeline :=
  mkPipeline "test" (the_settings strict) dec NO
    (mkEventPool 2 [blank 7; blank 8])
    false false false false
    [mkProcessor 0; mkProcessor 1] (Some 2) (Some 0)
    false [] [] [] 0 0 0 [].

Definition event_with (root : Node) : Event :=
  mkEvent root 7 10 3 "file.log" DefaultStreamName 14 kindNormal.

(** [json.Marshal] of an [ErrResp] whose text needs no escaping. *)
Definition marshal_error (err : string) : list byte :=
  list_byte_of_string
    ("{" ++ dq ++ "error" ++ dq ++ ":" ++ dq ++ err ++ dq ++ "}")%string.

Definition marshal_events (events : list InfoEvent) : list byte :=
  list_byte_of_string "[]".

(** A collector that refuses the first two requests and then accepts. *)
Definition network (i : nat) : Splunk.exchange :=
  if (i <? 2)%nat then Splunk.DoFailed "connection refused"
  else Splunk.Replied (list_byte_of_string "{}").

Definition decode_reply (b : list byte) : result Node := Ok (JObject []).
Definition as_int (n : option Node) : Z := 0.
Definition encode (n : Node) : list byte := list_byte_of_string "{}".

Definition splunk : Splunk.Plugin :=
  Splunk.mkPlugin
    (Splunk.mkConfig "http://127.0.0.1:8088/services/collector" "token" 1 second 4
                     (200 * millisecond))
    (16 * 1024) None [].

Definition batch : Batch := mkBatch [event_with JNull].

Definition file : FileOutput.Plugin := FileOutput.mkPlugin 4 0 None [].

(** A disk that takes nothing. *)
Definition full_disk (b : list byte) : option string := Some "no space left on device".
Definition encode_event (e : Event) : list byte := list_byte_of_string "{}".

Definition holder : list metrics :=
  [mkMetrics "other" []; mkMetrics "throttled" [("received", 5); ("passed", 3)]].

(** The file output with its default target and layout, sealing every
    hour. *)
Definition seal_config : FileSeal.Config :=
  FileSeal.mkConfig "/var/log/file-d.log" (3600 * second) "01-02-2006_15:04:05" 438.

(** The plugin some time after [Start]: two files sealed, a third one
    open. *)
Definition sealing : FileSeal.Plugin :=
  FileSeal.mkPlugin seal_config (Some "/var/log/1600000000_file-d.log") 2
    (1600003600 * second) "/var/log/" ".log" "file-d" "1600000000_file-d.log" true [].

(** A directory where nothing fails: every glob finds [found], and the
    open file holds [size] bytes. *)
Definition disk (found : list string) (size : Z) : FileSeal.FileSystem :=
  FileSeal.mkFileSystem
    (fun _ _ => None)
    (fun _ _ => Ok found)
    (fun _ _ => None)
    (fun _ _ => Ok size)
    (fun _ _ _ => None)
    (fun _ _ => None).

(** A file system that refuses to make the directory. *)
Definition read_only : FileSeal.FileSystem :=
  FileSeal.mkFileSystem
    (fun _ _ => Some "read-only file system")
    (fun _ _ => Ok [])
    (fun _ _ => None)
    (fun _ _ => Ok 0)
    (fun _ _ _ => None)
    (fun _ _ => None).

(** [filepath.Join] of a clean directory that ends in a separator and a
    plain file name. *)
Definition join (dir name : string) : string := (dir ++ name)%string.

Definition sealed_files : list string :=
  ["/var/log/file-d_0_09-13-2020_12:26:40.log";
   "/var/log/file-d_1_09-13-2020_13:26:40.log"].

End Sample.

(** ** Proof steps *)

(** Unfolds the monad so that a method applied to a state computes. *)
Ltac step_monad :=
  unfold bind, ret, get, modify, when, call, Infof, Warnf, Errorf, Fatalf, Panicf, panic;
  cbn.

(** Splits on every [match] and [if] of the goal, so that each path of a
    method is looked at on its own. *)
Ltac each_path :=
  repeat (match goal with
          | |- context [match ?x with _ => _ end] => destruct x
          end; cbn).

(** Computes the fields of a file-output plugin after its setters. *)
Ltac seal_fields :=
  cbv [FileSeal.set_config FileSeal.set_file FileSeal.set_idx FileSeal.set_nextSealUpTime
       FileSeal.set_targetDir FileSeal.set_fileExtension FileSeal.set_fileName
       FileSeal.set_tsFileName FileSeal.set_history
       FileSeal.config FileSeal.file FileSeal.idx FileSeal.nextSealUpTime FileSeal.targetDir
       FileSeal.fileExtension FileSeal.fileName FileSeal.tsFileName
       FileSeal.hasSealUpCallback FileSeal.history].

(** * Theorems *)

(** ** Integers that fit *)

Lemma wrap_signed_small (w z : Z) :
  0 < w -> - 2 ^ (w - 1) <= z < 2 ^ (w - 1) -> wrap_signed w z = z.
Proof.
  intros Hw Hz. unfold wrap_signed.
  assert (E : 2 ^ w = 2 * 2 ^ (w - 1)).
  { replace w with (Z.succ (w - 1)) at 1 by lia. apply Z.pow_succ_r. lia. }
  rewrite Z.mod_small; lia.
Qed.

Lemma to_int32_small (z : Z) : - 2 ^ 31 <= z <= max_int32 -> to_int32 z = z.
Proof.
  intros H. unfold to_int32. apply wrap_signed_small; [lia | unfold max_int32 in H; simpl; lia].
Qed.

Lemma to_int64_small (z : Z) : - 2 ^ 63 <= z <= max_int64 -> to_int64 z = z.
Proof.
  intros H. unfold to_int64. apply wrap_signed_small; [lia | unfold max_int64 in H; simpl; lia].
Qed.

Lemma to_int_small (z : Z) : - 2 ^ 63 <= z <= max_int64 -> to_int z = z.
Proof. exact (to_int64_small z). Qed.

Lemma to_uint64_small (z : Z) : 0 <= z < 2 ^ 64 -> to_uint64 z = z.
Proof. intros H. unfold to_uint64, wrap_unsigned. apply Z.mod_small. exact H. Qed.

Lemma len_app {A} (l1 l2 : list A) : len (l1 ++ l2) = len l1 + len l2.
Proof. unfold len. rewrite length_app. lia. Qed.

Lemma len_nonneg {A} (l : list A) : 0 <= len l.
Proof. unfold len. lia. Qed.

(** ** Readings of a history, piecewise *)

Lemma enqueued_app (h1 h2 : list Effect) : enqueued (h1 ++ h2) = enqueued h1 ++ enqueued h2.
Proof. unfold enqueued. apply flat_map_app. Qed.

Lemma released_app (h1 h2 : list Effect) : released (h1 ++ h2) = released h1 ++ released h2.
Proof. unfold released. apply flat_map_app. Qed.

Lemma without_logs_app (h1 h2 : list Effect) :
  without_logs (h1 ++ h2) = without_logs h1 ++ without_logs h2.
Proof. unfold without_logs. apply filter_app. Qed.

(** ** Intake *)

(** Up to its [switch], [In] asks the antispamer and checks an event out. *)
Lemma In_reaches_switch env p sourceID sourceName offset bytes isNewSource e rest :
  isEmpty bytes = false ->
  isSpam env (history p) sourceID sourceName isNewSource = false ->
  free (eventPool p) = e :: rest ->
  In env sourceID sourceName offset bytes isNewSource p =
  let q := set_history (history p ++ [AntispamIsSpam sourceID sourceName isNewSource;
                                      PoolGet e])
             (set_eventPool (mkEventPool (capacity (eventPool p)) rest) p) in
  match selected_decoder p with
  | JSON =>
      match parseJSON env bytes with
      | Err _ =>
          if IsStrict (settings p) then
            Fatalf "wrong json format offset=%d, length=%d, err=%s, source=%d:%s, json=%s" q
          else
            Returned 0
              (set_history
                 (history q ++
                  [Log LvlError
                     "wrong json format offset=%d, length=%d, err=%s, source=%d:%s, json=%s"])
                 q)
      | Ok root => In_enqueue env (set_Root root e) sourceID sourceName offset bytes q
      end
  | RAW => In_enqueue env (set_Root (raw_document bytes) e) sourceID sourceName offset bytes q
  | CRI =>
      match DecodeCRI env DecodeString_empty_object bytes with
      | Err _ =>
          Fatalf "wrong cri format offset=%d, length=%d, err=%s, source=%d:%s, cri=%s" q
      | Ok root => In_enqueue env (set_Root root e) sourceID sourceName offset bytes q
      end
  | POSTGRES =>
      match DecodePostgres env DecodeString_empty_object bytes with
      | Err _ =>
          Fatalf "wrong postgres format offset=%d, length=%d, err=%s, source=%d:%s, cri=%s" q
      | Ok root => In_enqueue env (set_Root root e) sourceID sourceName offset bytes q
      end
  | NO | AUTO => Panicked (set_history (history q ++ [LogPanic "unknown decoder %d for pipeline %q"]) q)
  end.
Proof.
  intros Hne Hspam Hfree.
  unfold In, antispamer_isSpam, eventPool_get, pool_get. step_monad.
  rewrite Hne, Hspam. cbn. rewrite Hfree. cbn.
  rewrite <- app_assoc. cbn.
  unfold selected_decoder. cbn.
  destruct (decoder p), (suggestedDecoder p); cbn; try reflexivity;
    try (destruct (parseJSON env bytes); [reflexivity |]);
    try (destruct (DecodeCRI env DecodeString_empty_object bytes); reflexivity);
    try (destruct (DecodePostgres env DecodeString_empty_object bytes); reflexivity);
    destruct (IsStrict (settings p)); reflexivity.
Qed.

Lemma streamEvent_files env event p :
  streamEvent env event p =
  match filed env p event with
  | None => Panicked p
  | Some e =>
      Returned (putEvent env (history p) (SourceID e) (streamName e) e)
        (set_history (history p ++ [StreamerPutEvent (SourceID e) (streamName e) e]) p)
  end.
Proof.
  unfold streamEvent, filed, streamer_putEvent. step_monad.
  destruct (useSpread p); cbn.
  - destruct (procCount p) as [pc|]; cbn; [| reflexivity].
    destruct (to_uint64 pc =? 0); reflexivity.
  - reflexivity.
Qed.

Lemma In_enqueue_files env event sourceID sourceName offset bytes p :
  In_enqueue env event sourceID sourceName offset bytes p =
  streamEvent env (stamped event sourceID sourceName offset bytes)
    (sampled env (Root event) p).
Proof.
  unfold In_enqueue, sampled, stamped. step_monad.
  destruct (len (inSample p) =? 0); reflexivity.
Qed.

(** C10.  When the JSON decoder is selected, the pipeline is not strict and
    the record does not decode, [In] returns 0 after logging the error.  The
    event it took from the pool is not given back ([eventPool.back] is not
    called: the history gains the antispam check, the checkout and the log
    line only) and it is not filed with the streamer either, so the pool is
    left with one free event fewer. *)
Theorem In_json_error_keeps_the_event
        env p sourceID sourceName offset bytes isNewSource e rest msg :
  selected_decoder p = JSON ->
  IsStrict (settings p) = false ->
  isEmpty bytes = false ->
  isSpam env (history p) sourceID sourceName isNewSource = false ->
  free (eventPool p) = e :: rest ->
  parseJSON env bytes = Err msg ->
  exists p',
    In env sourceID sourceName offset bytes isNewSource p = Returned 0 p' /\
    history p' = history p ++ [AntispamIsSpam sourceID sourceName isNewSource;
                               PoolGet e;
                               Log LvlError json_error_format] /\
    released (history p') = released (history p) /\
    enqueued (history p') = enqueued (history p) /\
    free (eventPool p') = rest /\
    freeEventsCount (eventPool p') = freeEventsCount (eventPool p) - 1.
Proof.
  intros Hdec Hstrict Hne Hspam Hfree Hparse.
  rewrite (In_reaches_switch env p sourceID sourceName offset bytes isNewSource e rest
             Hne Hspam Hfree).
  cbv zeta. rewrite Hdec, Hparse, Hstrict.
  eexists. split; [reflexivity |]. cbn.
  rewrite <- app_assoc. cbn.
  split; [reflexivity |].
  split. { rewrite released_app. cbn. apply app_nil_r. }
  split. { rewrite enqueued_app. cbn. apply app_nil_r. }
  split; [reflexivity |].
  unfold freeEventsCount, len. rewrite Hfree. cbn [List.length free]. lia.
Qed.

Lemma In_json_error_keeps_the_event_witness :
  exists p',
    In Sample.env 3 "file.log" 10 Sample.record_not_json false (Sample.pipeline JSON false)
    = Returned 0 p' /\
    history p' = [AntispamIsSpam 3 "file.log" false;
                  PoolGet (Sample.blank 7);
                  Log LvlError json_error_format] /\
    released (history p') = [] /\
    enqueued (history p') = [] /\
    free (eventPool p') = [Sample.blank 8] /\
    freeEventsCount (eventPool p') = 2 - 1.
Proof.
  apply (In_json_error_keeps_the_event Sample.env (Sample.pipeline JSON false)
           3 "file.log" 10 Sample.record_not_json false
           (Sample.blank 7) [Sample.blank 8] "unexpected symbol");
    reflexivity.
Defined.

(** Each such record costs the pool one event for good: [k] of them leave
    it with [k] free events fewer and nothing filed or given back, and once
    it is empty [In] parks on the checkout. *)
Lemma In_json_errors_drain env sourceID sourceName offset bytes isNewSource msg :
  isEmpty bytes = false ->
  (forall h, isSpam env h sourceID sourceName isNewSource = false) ->
  parseJSON env bytes = Err msg ->
  forall k p,
    selected_decoder p = JSON ->
    IsStrict (settings p) = false ->
    (k <= List.length (free (eventPool p)))%nat ->
    let p' := run_ops env (repeat (OpIn sourceID sourceName offset bytes isNewSource) k) p in
    free (eventPool p') = skipn k (free (eventPool p)) /\
    enqueued (history p') = enqueued (history p) /\
    released (history p') = released (history p).
Proof.
  intros Hne Hspam Hparse. induction k as [| k IH]; intros p Hdec Hstrict Hk.
  - cbn. repeat split.
  - destruct (free (eventPool p)) as [| e rest] eqn:Hfree; [cbn in Hk; lia |].
    cbn [repeat]. cbv zeta.
    change (run_ops env (?op :: ?ops) p) with (run_ops env ops (run_op env op p)).
    cbn [run_op].
    rewrite (In_reaches_switch env p sourceID sourceName offset bytes isNewSource e rest
               Hne (Hspam _) Hfree).
    cbv zeta. rewrite Hdec, Hparse, Hstrict. cbn [final].
    match goal with |- context [run_ops env _ ?q] => set (q1 := q) end.
    destruct (IH q1) as [H1 [H2 H3]].
    + exact Hdec.
    + exact Hstrict.
    + cbn in Hk |- *. lia.
    + rewrite H1, H2, H3. unfold q1. cbn [history set_history eventPool set_eventPool free skipn].
      rewrite !enqueued_app, !released_app. cbn. rewrite !app_nil_r. repeat split.
Qed.

Lemma In_parks_on_empty_pool env p sourceID sourceName offset bytes isNewSource :
  isEmpty bytes = false ->
  isSpam env (history p) sourceID sourceName isNewSource = false ->
  free (eventPool p) = [] ->
  In env sourceID sourceName offset bytes isNewSource p =
  Blocked (set_history (history p ++ [AntispamIsSpam sourceID sourceName isNewSource]) p).
Proof.
  intros Hne Hspam Hfree.
  unfold In, antispamer_isSpam, eventPool_get, pool_get. unfold bind.
  rewrite Hne, Hspam. cbn [orb eventPool set_history]. rewrite Hfree. reflexivity.
Qed.

(** C1, as the code has it.  A record that does not decode is handled by
    strictness for the JSON decoder only: not strict, [In] logs, returns 0
    and files nothing; strict, the process exits.  For the CRI and the
    postgres decoder the process exits whatever [IsStrict] says. *)
Theorem In_decode_failure_by_decoder
        env p sourceID sourceName offset bytes isNewSource e rest :
  isEmpty bytes = false ->
  isSpam env (history p) sourceID sourceName isNewSource = false ->
  free (eventPool p) = e :: rest ->
  decoded env p bytes = None ->
  (selected_decoder p = JSON -> IsStrict (settings p) = false ->
   exists p', In env sourceID sourceName offset bytes isNewSource p = Returned 0 p' /\
              enqueued (history p') = enqueued (history p))
  /\
  (selected_decoder p = JSON -> IsStrict (settings p) = true ->
   exists p', In env sourceID sourceName offset bytes isNewSource p = Fatal p')
  /\
  (selected_decoder p = CRI \/ selected_decoder p = POSTGRES ->
   exists p', In env sourceID sourceName offset bytes isNewSource p = Fatal p' /\
              enqueued (history p') = enqueued (history p)).
Proof.
  intros Hne Hspam Hfree Hdecoded.
  rewrite (In_reaches_switch env p sourceID sourceName offset bytes isNewSource e rest
             Hne Hspam Hfree).
  cbv zeta. unfold decoded in Hdecoded.
  repeat split.
  - intros Hdec Hstrict. rewrite Hdec in *.
    destruct (parseJSON env bytes); [discriminate |].
    rewrite Hstrict. eexists. split; [reflexivity |].
    cbn. rewrite !enqueued_app. cbn. rewrite !app_nil_r. reflexivity.
  - intros Hdec Hstrict. rewrite Hdec in *.
    destruct (parseJSON env bytes); [discriminate |].
    rewrite Hstrict. eexists. reflexivity.
  - intros [Hdec | Hdec]; rewrite Hdec in *.
    + destruct (DecodeCRI env DecodeString_empty_object bytes); [discriminate |].
      eexists. split; [reflexivity |].
      cbn. rewrite !enqueued_app. cbn. rewrite !app_nil_r. reflexivity.
    + destruct (DecodePostgres env DecodeString_empty_object bytes); [discriminate |].
      eexists. split; [reflexivity |].
      cbn. rewrite !enqueued_app. cbn. rewrite !app_nil_r. reflexivity.
Qed.

Lemma In_decode_failure_by_decoder_witness :
  exists p',
    In Sample.env 3 "file.log" 10 Sample.record_not_json false (Sample.pipeline CRI false)
    = Fatal p' /\
    enqueued (history p') = [].
Proof.
  apply (In_decode_failure_by_decoder Sample.env (Sample.pipeline CRI false)
           3 "file.log" 10 Sample.record_not_json false
           (Sample.blank 7) [Sample.blank 8]); try reflexivity.
  left. reflexivity.
Defined.

(** ** Commit *)

(** What [finalize] leaves of the out sample: the first committed event for
    which the coin falls on an odd number fills an empty sample. *)
Lemma finalize_committing env e coin p :
  IsTimeoutKind e = false ->
  finalize env e true true coin p =
  Returned tt
    (set_history (history p ++ [InputCommit e; StreamCommit e; PoolBack e])
       (set_eventPool (pool_back e (eventPool p))
          (set_eventLog (if eventLogEnabled p
                         then eventLog p ++ [EncodeToString env (Root e)]
                         else eventLog p)
             (set_maxSize (if Size e >? maxSize p then Size e else maxSize p)
                (set_outSample (if (len (outSample p) =? 0) && (Z.land coin 1 =? 1)
                                then outSample p ++ Encode env (Root e)
                                else outSample p)
                   (set_totalSize (to_int64 (totalSize p + to_int64 (Size e)))
                      (set_totalCommitted (to_int64 (totalCommitted p + 1)) p))))))).
Proof.
  intros Hkind. unfold finalize, eventPool_back. rewrite Hkind. step_monad.
  destruct ((len (outSample p) =? 0) && (Z.land coin 1 =? 1)); cbn;
    destruct (Size e >? maxSize p); cbn;
      destruct (eventLogEnabled p); cbn;
        rewrite <- !app_assoc; reflexivity.
Qed.

(** C2.  [Commit] of an event of normal kind calls the input plugin's
    [Commit] with it, adds one to [totalCommitted] and the event's size to
    [totalSize] (in 64-bit arithmetic, so exactly that as long as the
    counters fit), and gives the event back to the pool. *)
Theorem Commit_normal_event env e coin p :
  kind e = kindNormal ->
  exists p',
    Commit env e coin p = Returned tt p' /\
    history p' = history p ++ [InputCommit e; StreamCommit e; PoolBack e] /\
    totalCommitted p' = to_int64 (totalCommitted p + 1) /\
    (- 2 ^ 63 <= totalCommitted p < max_int64 -> totalCommitted p' = totalCommitted p + 1) /\
    totalSize p' = to_int64 (totalSize p + to_int64 (Size e)) /\
    (- 2 ^ 63 <= Size e <= max_int64 ->
     - 2 ^ 63 <= totalSize p + Size e <= max_int64 ->
     totalSize p' = totalSize p + Size e) /\
    eventPool p' = pool_back e (eventPool p) /\
    free (eventPool p') = free (eventPool p) ++ [e] /\
    freeEventsCount (eventPool p') = freeEventsCount (eventPool p) + 1.
Proof.
  intros Hkind. unfold Commit.
  rewrite finalize_committing by (unfold IsTimeoutKind; rewrite Hkind; reflexivity).
  eexists. split; [reflexivity |]. cbn.
  split; [reflexivity |].
  split; [reflexivity |].
  split. { intros H. apply to_int64_small. unfold max_int64 in *. lia. }
  split; [reflexivity |].
  split. { intros Hs Ht. rewrite (to_int64_small (Size e)) by exact Hs.
           apply to_int64_small. exact Ht. }
  split; [reflexivity |].
  split; [reflexivity |].
  unfold freeEventsCount, len. cbn. rewrite length_app. cbn [List.length]. lia.
Qed.

Lemma Commit_normal_event_witness :
  exists p',
    Commit Sample.env (Sample.event_with JNull) 1 (Sample.pipeline JSON false)
    = Returned tt p' /\
    history p' = [InputCommit (Sample.event_with JNull);
                  StreamCommit (Sample.event_with JNull);
                  PoolBack (Sample.event_with JNull)] /\
    totalCommitted p' = 1 /\
    totalSize p' = 14 /\
    freeEventsCount (eventPool p') = 3.
Proof.
  destruct (Commit_normal_event Sample.env (Sample.event_with JNull) 1
              (Sample.pipeline JSON false) eq_refl)
    as [p' [Hrun [Hhist [Hcount [_ [Hsize [_ [_ [_ Hfree]]]]]]]]].
  exists p'. repeat split; assumption.
Defined.

(** ** Filing an event *)

Lemma In_decoded env p sourceID sourceName offset bytes isNewSource e rest root :
  isEmpty bytes = false ->
  isSpam env (history p) sourceID sourceName isNewSource = false ->
  free (eventPool p) = e :: rest ->
  decoded env p bytes = Some root ->
  In env sourceID sourceName offset bytes isNewSource p =
  In_enqueue env (set_Root root e) sourceID sourceName offset bytes
    (set_history (history p ++ [AntispamIsSpam sourceID sourceName isNewSource; PoolGet e])
       (set_eventPool (mkEventPool (capacity (eventPool p)) rest) p)).
Proof.
  intros Hne Hspam Hfree Hdecoded.
  rewrite (In_reaches_switch env p sourceID sourceName offset bytes isNewSource e rest
             Hne Hspam Hfree).
  cbv zeta. unfold decoded in Hdecoded.
  destruct (selected_decoder p); try discriminate.
  - destruct (parseJSON env bytes); [| discriminate]. congruence.
  - congruence.
  - destruct (DecodeCRI env DecodeString_empty_object bytes); [| discriminate]. congruence.
  - destruct (DecodePostgres env DecodeString_empty_object bytes); [| discriminate]. congruence.
Qed.

Lemma filed_event env p event :
  can_spread p ->
  exists e,
    filed env p event = Some e /\
    Root e = Root event /\
    SeqID e = SeqID event /\
    streamName e = stream_name_of env p event /\
    SourceID e = (if useSpread p then SeqID event mod to_uint64 (target p)
                  else SourceID event) /\
    Size e = Size event /\ Offset e = Offset event /\ SourceName e = SourceName event.
Proof.
  intros Hspread. unfold filed, stream_name_of, target, can_spread in *.
  destruct (useSpread p).
  - destruct (Hspread eq_refl) as [pc [Hpc Hnz]]. rewrite Hpc.
    apply Z.eqb_neq in Hnz. rewrite Hnz. cbn.
    destruct (disableStreams p); cbn.
    + eexists. repeat split.
    + destruct (Dig (Root event) (StreamField (settings p))); eexists; repeat split.
  - destruct (disableStreams p); cbn.
    + eexists. repeat split.
    + destruct (Dig (Root event) (StreamField (settings p))); eexists; repeat split.
Qed.

Lemma history_sampled env root p : history (sampled env root p) = history p.
Proof. unfold sampled. destruct (len (inSample p) =? 0); reflexivity. Qed.

(** Where a record goes that [In] decodes. *)
Lemma In_files env p sourceID sourceName offset bytes isNewSource e rest root :
  isEmpty bytes = false ->
  isSpam env (history p) sourceID sourceName isNewSource = false ->
  free (eventPool p) = e :: rest ->
  decoded env p bytes = Some root ->
  can_spread p ->
  exists seq p' e',
    In env sourceID sourceName offset bytes isNewSource p = Returned seq p' /\
    enqueued (history p') = enqueued (history p) ++ [(SourceID e', streamName e', e')] /\
    Root e' = root /\
    streamName e' =
      (if disableStreams p then DefaultStreamName
       else match Dig root (StreamField (settings p)) with
            | Some node => AsString env node
            | None => DefaultStreamName
            end) /\
    Size e' = len bytes /\ Offset e' = offset /\ SourceName e' = sourceName.
Proof.
  intros Hne Hspam Hfree Hdecoded Hspread.
  rewrite (In_decoded env p sourceID sourceName offset bytes isNewSource e rest root
             Hne Hspam Hfree Hdecoded).
  rewrite In_enqueue_files, streamEvent_files.
  set (q := sampled env _ _).
  assert (Hq : can_spread q).
  { unfold can_spread, q, sampled in *. cbn.
    destruct (len (inSample p) =? 0); cbn; exact Hspread. }
  destruct (filed_event env q (stamped (set_Root root e) sourceID sourceName offset bytes) Hq)
    as [e' [Hfiled [Hroot [_ [Hname [_ [Hsize [Hoffset Hsource]]]]]]]].
  rewrite Hfiled.
  eexists. eexists. exists e'. split; [reflexivity |].
  split.
  { cbn [history set_history]. rewrite enqueued_app.
    unfold q. rewrite history_sampled. cbn [history set_history].
    rewrite enqueued_app. cbn [enqueued flat_map app].
    rewrite app_nil_r. reflexivity. }
  split; [exact Hroot |].
  split.
  { rewrite Hname. unfold stream_name_of, q, sampled. cbn.
    destruct (len (inSample p) =? 0); reflexivity. }
  split; [exact Hsize |]. split; [exact Hoffset | exact Hsource].
Qed.

(** C3, the claim as stated fails: the record whose [stream] field is the
    empty string is filed under
    the empty stream name, which is the string value of its stream field;
    the name is not replaced by [not_set]. *)
Lemma In_files_empty_stream_name :
  let doc := JObject [("stream", JString EmptyString)] in
  let e' := set_streamName EmptyString (Sample.event_with doc) in
  (exists p' e,
      In Sample.env 3 "file.log" 10 Sample.record_empty_name false
         (Sample.pipeline JSON false) = Returned 1 p' /\
      enqueued (history p') = [(3, EmptyString, e)] /\
      Root e = doc /\ streamName e = EmptyString) /\
  streamEvent Sample.env (Sample.event_with doc) (Sample.pipeline JSON false) =
  Returned 1 (set_history [StreamerPutEvent 3 EmptyString e'] (Sample.pipeline JSON false)) /\
  streamName e' <> spec_stream_name (AsString Sample.env (JString EmptyString)).
Proof.
  cbv zeta. split; [| split].
  - eexists. eexists. split; [vm_compute; reflexivity |]. cbn. repeat split.
  - vm_compute. reflexivity.
  - vm_compute. discriminate.
Qed.

(** C3, amended.  An event that [In] files goes to the streamer once, with
    the decoded document as its root.  With streams enabled its stream name
    is the string value of the document's [StreamField] when the document
    has that field (an empty value gives an empty name) and [not_set] when
    it has not; with [DisableStreams] the name is [not_set] whatever the
    document holds. *)
Theorem In_stream_name env p sourceID sourceName offset bytes isNewSource e rest root :
  isEmpty bytes = false ->
  isSpam env (history p) sourceID sourceName isNewSource = false ->
  free (eventPool p) = e :: rest ->
  decoded env p bytes = Some root ->
  can_spread p ->
  exists seq p' e',
    In env sourceID sourceName offset bytes isNewSource p = Returned seq p' /\
    enqueued (history p') = enqueued (history p) ++ [(SourceID e', streamName e', e')] /\
    Root e' = root /\
    streamName e' =
      (if disableStreams p then DefaultStreamName
       else match Dig root (StreamField (settings p)) with
            | Some node => AsString env node
            | None => DefaultStreamName
            end).
Proof.
  intros Hne Hspam Hfree Hdecoded Hspread.
  destruct (In_files env p sourceID sourceName offset bytes isNewSource e rest root
              Hne Hspam Hfree Hdecoded Hspread)
    as [seq [p' [e' [Hrun [Hfiled [Hroot [Hname _]]]]]]].
  exists seq, p', e'. repeat split; assumption.
Qed.

Lemma In_stream_name_witness :
  exists seq p' e',
    In Sample.env 3 "file.log" 10 Sample.record_A false (Sample.pipeline JSON false)
    = Returned seq p' /\
    enqueued (history p') = [] ++ [(SourceID e', streamName e', e')] /\
    Root e' = JObject [("stream", JString "A")] /\
    streamName e' = "A".
Proof.
  apply (In_stream_name Sample.env (Sample.pipeline JSON false) 3 "file.log" 10
           Sample.record_A false (Sample.blank 7) [Sample.blank 8]
           (JObject [("stream", JString "A")])); try reflexivity.
  intros H. discriminate H.
Defined.

(** C4.  With [UseSpread] on and a positive processor count, [streamEvent]
    replaces the event's [SourceID] by [SeqID mod procCount] and files the
    event with the streamer under that source id. *)
Theorem streamEvent_spreads env event p pc :
  useSpread p = true ->
  procCount p = Some pc ->
  0 < pc <= max_int32 ->
  exists e',
    streamEvent env event p =
    Returned (putEvent env (history p) (SeqID event mod pc) (streamName e') e')
      (set_history (history p ++ [StreamerPutEvent (SeqID event mod pc) (streamName e') e']) p) /\
    SourceID e' = SeqID event mod pc /\
    0 <= SourceID e' < pc /\
    SeqID e' = SeqID event /\
    Root e' = Root event.
Proof.
  intros Hspread Hpc Hrange.
  assert (Hu : to_uint64 pc = pc).
  { apply to_uint64_small. unfold max_int32 in Hrange. lia. }
  assert (Hcan : can_spread p).
  { intros _. exists pc. split; [exact Hpc |]. rewrite Hu. lia. }
  destruct (filed_event env p event Hcan) as [e' [Hfiled [Hroot [Hseq [_ [Hsource _]]]]]].
  rewrite Hspread in Hsource. unfold target in Hsource. rewrite Hpc, Hu in Hsource.
  exists e'. rewrite streamEvent_files, Hfiled, Hsource.
  split; [reflexivity |].
  split; [reflexivity |].
  split; [apply Z.mod_pos_bound; lia |].
  split; assumption.
Qed.

Lemma streamEvent_spreads_witness :
  exists e',
    streamEvent Sample.env (Sample.event_with JNull)
      (set_useSpread true (Sample.pipeline JSON false)) =
    Returned 1
      (set_history [StreamerPutEvent 1 (streamName e') e']
         (set_useSpread true (Sample.pipeline JSON false))) /\
    SourceID e' = 7 mod 2 /\
    0 <= SourceID e' < 2 /\
    SeqID e' = 7 /\
    Root e' = JNull.
Proof.
  apply (streamEvent_spreads Sample.env (Sample.event_with JNull)
           (set_useSpread true (Sample.pipeline JSON false)) 2).
  - reflexivity.
  - reflexivity.
  - unfold max_int32. lia.
Defined.

(** ** The fleet of processors *)

Lemma length_spawned first n : List.length (spawned first n) = n.
Proof. revert first. induction n as [| n IH]; intros first; cbn; [| rewrite IH]; reflexivity. Qed.

Lemma set_history_twice h h' p : set_history h (set_history h' p) = set_history h p.
Proof. reflexivity. Qed.

Lemma pipeline_eta p :
  mkPipeline (Name p) (settings p) (decoder p) (suggestedDecoder p) (eventPool p)
    (useSpread p) (disableStreams p) (singleProc p) (shouldStop p) (Procs p) (procCount p)
    (activeProcs p) (eventLogEnabled p) (eventLog p) (inSample p) (outSample p)
    (totalCommitted p) (totalSize p) (maxSize p) (history p) = p.
Proof. destruct p. reflexivity. Qed.


Lemma enlist_loop n p :
  times n enlist p =
  Returned tt (set_Procs (Procs p ++ spawned (len (Procs p)) n) p).
Proof.
  revert p. induction n as [| n IH]; intros p.
  - cbn. unfold ret, set_Procs. rewrite app_nil_r, pipeline_eta. reflexivity.
  - cbn [times]. unfold bind at 1. unfold enlist, newProc. step_monad.
    rewrite IH. unfold set_Procs. cbn.
    rewrite len_app. change (len [mkProcessor (len (Procs p))]) with 1.
    rewrite <- !app_assoc. reflexivity.
Qed.

(** [Start] leaves a positive processor count, with as many processors. *)
Lemma initProcs_starts gomaxprocs p :
  0 < gomaxprocs -> 2 * gomaxprocs <= max_int32 ->
  let c := if singleProc p then 1 else 2 * gomaxprocs in
  exists p',
    initProcs gomaxprocs p = Returned tt p' /\
    procCount p' = Some c /\ 0 < c <= max_int32 /\
    activeProcs p' = Some 0 /\
    Procs p' = spawned 0 (Z.to_nat c) /\ len (Procs p') = c.
Proof.
  intros Hpos Hfit c.
  assert (Hc : 0 < c <= max_int32).
  { unfold c, max_int32 in *. destruct (singleProc p); lia. }
  assert (Hint : (if singleProc p then 1 else to_int (gomaxprocs * 2)) = c).
  { unfold c. destruct (singleProc p); [reflexivity |].
    rewrite to_int_small; unfold max_int32, max_int64 in *; lia. }
  unfold initProcs. unfold bind at 1. unfold get at 1. rewrite Hint.
  rewrite to_int32_small by (unfold max_int32 in *; lia).
  unfold bind at 1. unfold Infof, call, modify at 1.
  unfold bind at 1. unfold modify at 1.
  unfold bind at 1. unfold modify at 1.
  unfold bind at 1. unfold modify at 1.
  rewrite enlist_loop. eexists. split; [reflexivity |].
  cbn [procCount activeProcs Procs set_procCount set_activeProcs set_Procs set_history app len
       List.length Z.of_nat].
  repeat split; try apply Hc.
  unfold len. rewrite length_spawned. lia.
Qed.



Lemma expandProcs_single p : singleProc p = true -> expandProcs p = Returned tt p.
Proof. intros Hsingle. unfold expandProcs, bind, get. rewrite Hsingle. reflexivity. Qed.


Lemma growProcs_turn_stops p t now1 now2 :
  shouldStop p = true ->
  growProcs_turn t now1 now2 p =
  Returned None (set_history (history p ++ [Sleep growth_interval]) p).
Proof.
  intros Hstop. unfold growProcs_turn. fold growth_interval. step_monad.
  rewrite Hstop. reflexivity.
Qed.

Lemma stop_loop procs p :
  for_each procs (fun processor => call (ProcessorStop processor)) p =
  Returned tt (set_history (history p ++ map ProcessorStop procs) p).
Proof.
  revert p. induction procs as [| x procs IH]; intros p.
  - cbn. unfold ret, set_history. cbn. rewrite app_nil_r, pipeline_eta. reflexivity.
  - cbn [for_each]. unfold bind at 1. unfold call at 1, modify at 1.
    rewrite IH. unfold set_history. cbn. rewrite <- app_assoc. reflexivity.
Qed.

Lemma Stop_runs p :
  Stop p =
  Returned tt
    (set_shouldStop true
       (set_history
          (history p ++
           [Log LvlInfo "stopping pipeline %q, total committed=%d";
            Log LvlInfo "stopping processors count=%d"] ++
           map ProcessorStop (Procs p) ++
           [StreamerStop;
            Log LvlInfo "stopping %q input"; InputStop;
            Log LvlInfo "stopping %q output"; OutputStop;
            StoreShouldStop true]) p)).
Proof.
  unfold Stop, store_shouldStop, Infof.
  unfold bind at 1. unfold call at 1, modify at 1.
  unfold bind at 1. unfold call at 1, modify at 1.
  unfold bind at 1. unfold get at 1.
  unfold bind at 1. rewrite stop_loop.
  unfold bind, call, modify. cbn [history set_history]. rewrite !set_history_twice.
  rewrite <- !app_assoc. reflexivity.
Qed.

Lemma same_fleet_refl p : same_fleet p p.
Proof. split; reflexivity. Qed.

Lemma same_fleet_trans p q r : same_fleet p q -> same_fleet q r -> same_fleet p r.
Proof. intros [H1 H2] [H3 H4]. split; congruence. Qed.

Lemma keeps_ret {A} (a : A) : keeps_fleet (ret a).
Proof. intros p. apply same_fleet_refl. Qed.

Lemma keeps_get : keeps_fleet get.
Proof. intros p. apply same_fleet_refl. Qed.

Lemma keeps_bind {A B} (m : PM A) (k : A -> PM B) :
  keeps_fleet m -> (forall a, keeps_fleet (k a)) -> keeps_fleet (bind m k).
Proof.
  intros Hm Hk p. unfold bind. specialize (Hm p).
  destruct (m p) as [a q | q | q | q | q]; cbn [final] in *; try exact Hm.
  apply (same_fleet_trans p q); [exact Hm | apply Hk].
Qed.

Lemma keeps_modify (f : Pipeline -> Pipeline) :
  (forall p, same_fleet p (f p)) -> keeps_fleet (modify f).
Proof. intros Hf p. apply Hf. Qed.

Lemma keeps_call x : keeps_fleet (call x).
Proof. apply keeps_modify. intros p. split; reflexivity. Qed.

Lemma keeps_Fatalf {A} format : keeps_fleet (@Fatalf A format).
Proof. intros p. split; reflexivity. Qed.

Lemma keeps_Panicf {A} format : keeps_fleet (@Panicf A format).
Proof. intros p. split; reflexivity. Qed.

Lemma keeps_panic {A} : keeps_fleet (@panic A).
Proof. intros p. split; reflexivity. Qed.

Lemma keeps_when b (m : PM unit) : keeps_fleet m -> keeps_fleet (when b m).
Proof. intros Hm. destruct b; [exact Hm | apply keeps_ret]. Qed.

Lemma keeps_eventPool_get : keeps_fleet eventPool_get.
Proof.
  intros p. unfold eventPool_get. destruct (pool_get (eventPool p)) as [[e pool'] |];
    split; reflexivity.
Qed.

Lemma keeps_eventPool_back e : keeps_fleet (eventPool_back e).
Proof. apply keeps_modify. intros p. split; reflexivity. Qed.

Lemma keeps_isSpam env sourceID sourceName isNewSource :
  keeps_fleet (antispamer_isSpam env sourceID sourceName isNewSource).
Proof. intros p. split; reflexivity. Qed.

Lemma keeps_putEvent env sourceID n e : keeps_fleet (streamer_putEvent env sourceID n e).
Proof. intros p. split; reflexivity. Qed.

(** Goes through a method statement by statement. *)
Ltac keeps :=
  repeat first
    [ apply keeps_ret | apply keeps_get | apply keeps_call
    | apply keeps_Fatalf | apply keeps_Panicf | apply keeps_panic
    | apply keeps_eventPool_get | apply keeps_eventPool_back
    | apply keeps_isSpam | apply keeps_putEvent
    | apply keeps_when
    | apply keeps_bind; [| intro]
    | apply keeps_modify; intro; split; reflexivity
    | match goal with
      | |- keeps_fleet (match ?x with _ => _ end) => destruct x
      | |- keeps_fleet (let _ := _ in _) => cbv zeta
      end ].

Lemma keeps_streamEvent env e : keeps_fleet (streamEvent env e).
Proof. unfold streamEvent, Infof, Warnf, Errorf. keeps. Qed.

Lemma keeps_In_enqueue env e sourceID sourceName offset bytes :
  keeps_fleet (In_enqueue env e sourceID sourceName offset bytes).
Proof. unfold In_enqueue. keeps. Qed.

Lemma In_keeps_fleet env sourceID sourceName offset bytes isNewSource p :
  same_fleet p (final (In env sourceID sourceName offset bytes isNewSource p)).
Proof.
  revert p. change (keeps_fleet (In env sourceID sourceName offset bytes isNewSource)).
  unfold In, Errorf. keeps.
Qed.

Lemma finalize_keeps_fleet env e notifyInput backEvent coin p :
  same_fleet p (final (finalize env e notifyInput backEvent coin p)).
Proof.
  revert p. change (keeps_fleet (finalize env e notifyInput backEvent coin)).
  unfold finalize. keeps.
Qed.

Lemma maintenance_turn_keeps_fleet lastCommitted lastSize p :
  same_fleet p (final (maintenance_turn lastCommitted lastSize p)).
Proof.
  revert p. change (keeps_fleet (maintenance_turn lastCommitted lastSize)).
  unfold maintenance_turn, Infof. keeps.
Qed.

Lemma Error_keeps_fleet err p : same_fleet p (final (Error err p)).
Proof.
  revert p. change (keeps_fleet (Error err)).
  unfold Error, Errorf. keeps.
Qed.

Lemma Stop_keeps_fleet p : same_fleet p (final (Stop p)).
Proof. rewrite Stop_runs. split; reflexivity. Qed.









(** ** Stop *)

Lemma without_logs_stops procs :
  without_logs (map ProcessorStop procs) = map ProcessorStop procs.
Proof.
  induction procs as [| x procs IH]; [reflexivity |].
  cbn. unfold without_logs in IH. rewrite IH. reflexivity.
Qed.

Lemma maintenance_turn_stops p lastCommitted lastSize :
  shouldStop p = true ->
  maintenance_turn lastCommitted lastSize p =
  Returned None (set_history (history p ++ [Sleep (MaintenanceInterval (settings p))]) p).
Proof.
  intros Hstop. unfold maintenance_turn. step_monad. rewrite Hstop. reflexivity.
Qed.

(** C7, the claim as stated fails: on a pipeline with two processors [Stop]
    stores the flag after it has stopped the processors, the streamer, the
    input and the output. *)
Lemma Stop_sets_flag_last :
  without_logs (history (final (Stop (Sample.pipeline JSON false)))) =
  [ProcessorStop (mkProcessor 0); ProcessorStop (mkProcessor 1);
   StreamerStop; InputStop; OutputStop; StoreShouldStop true] /\
  flag_set_before_stops (history (final (Stop (Sample.pipeline JSON false)))) = false.
Proof. vm_compute. split; reflexivity. Qed.

(** C7, amended.  [Stop] stops the processors in the order of [Procs], then
    the streamer, then the input plugin, then the output plugin, and sets
    the stop flag last.  Once the flag is set a turn of the growth loop and
    a turn of the maintenance loop see it after their sleep and return, so
    both loops end. *)
Theorem Stop_order p :
  exists p',
    Stop p = Returned tt p' /\
    without_logs (history p') =
      without_logs (history p) ++ map ProcessorStop (Procs p) ++
      [StreamerStop; InputStop; OutputStop; StoreShouldStop true] /\
    shouldStop p' = true /\
    (forall fuel t0 clock,
        growProcs (S fuel) t0 clock p' =
        Returned tt (set_history (history p' ++ [Sleep growth_interval]) p')) /\
    (forall fuel,
        maintenance (S fuel) p' =
        Returned tt
          (set_history (history p' ++ [Sleep (MaintenanceInterval (settings p'))]) p')).
Proof.
  rewrite Stop_runs. eexists. split; [reflexivity |].
  split.
  { cbn [history set_history set_shouldStop].
    rewrite !without_logs_app, without_logs_stops. reflexivity. }
  split; [reflexivity |].
  split.
  - intros fuel t0 clock. unfold growProcs. cbn [growProcs_from].
    unfold bind. rewrite growProcs_turn_stops by reflexivity. reflexivity.
  - intros fuel. unfold maintenance. cbn [maintenance_from].
    unfold bind. rewrite maintenance_turn_stops by reflexivity. reflexivity.
Qed.

(** ** The raw decoder *)

Lemma firstn_all_but_last {A} (l : list A) :
  firstn (Z.to_nat (len l - 1)) l = removelast l.
Proof.
  rewrite removelast_firstn_len. f_equal. unfold len. lia.
Qed.

Lemma raw_document_message bytes :
  raw_document bytes =
  JObject [("message", JString (string_of_list_byte (removelast bytes)))].
Proof. unfold raw_document. rewrite firstn_all_but_last. reflexivity. Qed.

(** C8, the claim as stated fails: of the record [hi] the raw decoder keeps
    [h]; the message is not the record's bytes. *)
Lemma In_raw_loses_a_byte :
  exists p' e,
    In Sample.env 3 "file.log" 10 Sample.record_hi false (Sample.pipeline RAW false)
    = Returned 1 p' /\
    enqueued (history p') = [(3, "not_set", e)] /\
    Root e = JObject [("message", JString "h")] /\
    Root e <> spec_raw_document Sample.record_hi.
Proof.
  eexists. eexists. split; [vm_compute; reflexivity |].
  split; [vm_compute; reflexivity |].
  split; [reflexivity |].
  vm_compute. discriminate.
Qed.

(** C8, amended.  For a record that is not empty the raw decoder makes [In]
    file an event whose document is a fresh object with the single field
    [message], holding the record's bytes without the last one. *)
Theorem In_raw_document env p sourceID sourceName offset bytes isNewSource e rest :
  selected_decoder p = RAW ->
  isEmpty bytes = false ->
  isSpam env (history p) sourceID sourceName isNewSource = false ->
  free (eventPool p) = e :: rest ->
  can_spread p ->
  exists seq p' e',
    In env sourceID sourceName offset bytes isNewSource p = Returned seq p' /\
    enqueued (history p') = enqueued (history p) ++ [(SourceID e', streamName e', e')] /\
    Root e' = JObject [("message", JString (string_of_list_byte (removelast bytes)))] /\
    Size e' = len bytes.
Proof.
  intros Hdec Hne Hspam Hfree Hspread.
  assert (Hdecoded : decoded env p bytes = Some (raw_document bytes)).
  { unfold decoded. rewrite Hdec. reflexivity. }
  destruct (In_files env p sourceID sourceName offset bytes isNewSource e rest _
              Hne Hspam Hfree Hdecoded Hspread)
    as [seq [p' [e' [Hrun [Hfiled [Hroot [_ [Hsize _]]]]]]]].
  exists seq, p', e'. rewrite raw_document_message in Hroot.
  repeat split; assumption.
Qed.

Lemma In_raw_document_witness :
  exists seq p' e',
    In Sample.env 3 "file.log" 10 Sample.record_hi false (Sample.pipeline RAW false)
    = Returned seq p' /\
    enqueued (history p') = [] ++ [(SourceID e', streamName e', e')] /\
    Root e' = JObject [("message", JString "h")] /\
    Size e' = 2.
Proof.
  apply (In_raw_document Sample.env (Sample.pipeline RAW false) 3 "file.log" 10
           Sample.record_hi false (Sample.blank 7) [Sample.blank 8]); try reflexivity.
  intros H. discriminate H.
Defined.

(** ** The admin handlers *)

(** C9, as the code has it.  The body of an admin error is the JSON
    [ErrResp], but it is written before [WriteHeader] is called: the header
    has gone out with status 200 by then, and the 400 and the 500 the
    handlers ask for afterwards are dropped. *)
Theorem admin_errors_answer_200 Marshal_ErrResp Marshal_events :
  (forall info holder,
      MetricName info = EmptyString ->
      serveActionInfo Marshal_ErrResp Marshal_events info holder newResponseWriter =
      Returned tt (error_response StatusOK (Marshal_ErrResp no_metric_message)))
  /\
  (forall p firstSample ap,
      activeProcs p = Some ap -> ap <= 0 ->
      serveActionSample Marshal_ErrResp p firstSample newResponseWriter =
      Returned tt (error_response StatusOK (Marshal_ErrResp no_processors_message)))
  /\
  (forall p firstSample ap pc,
      activeProcs p = Some ap -> procCount p = Some pc -> pc <= 0 ->
      serveActionSample Marshal_ErrResp p firstSample newResponseWriter =
      Returned tt (error_response StatusOK (Marshal_ErrResp no_processors_message)))
  /\
  (forall p ap pc,
      activeProcs p = Some ap -> procCount p = Some pc -> 0 < ap -> 0 < pc ->
      serveActionSample Marshal_ErrResp p None newResponseWriter =
      Returned tt (error_response StatusOK (Marshal_ErrResp timeout_message))).
Proof.
  repeat split.
  - intros info holder Hname. unfold serveActionInfo. rewrite Hname. reflexivity.
  - intros p firstSample ap Hap Hle. unfold serveActionSample. rewrite Hap.
    apply Z.leb_le in Hle. step_monad. rewrite Hle. reflexivity.
  - intros p firstSample ap pc Hap Hpc Hle. unfold serveActionSample. rewrite Hap, Hpc.
    apply Z.leb_le in Hle. step_monad. rewrite Hle.
    destruct (ap <=? 0); reflexivity.
  - intros p ap pc Hap Hpc Ha Hp. unfold serveActionSample. rewrite Hap, Hpc.
    apply Z.leb_gt in Ha. apply Z.leb_gt in Hp. step_monad. rewrite Ha, Hp. reflexivity.
Qed.

Lemma admin_errors_answer_200_witness :
  serveActionInfo Sample.marshal_error Sample.marshal_events (mkActionInfo EmptyString) []
    newResponseWriter =
  Returned tt (error_response 200 (Sample.marshal_error no_metric_message)) /\
  serveActionSample Sample.marshal_error (Sample.pipeline JSON false) None
    newResponseWriter =
  Returned tt (error_response 200 (Sample.marshal_error no_processors_message)) /\
  serveActionSample Sample.marshal_error
    (set_activeProcs (Some 2) (Sample.pipeline JSON false)) None newResponseWriter =
  Returned tt (error_response 200 (Sample.marshal_error timeout_message)).
Proof.
  destruct (admin_errors_answer_200 Sample.marshal_error Sample.marshal_events)
    as [Hinfo [Hnone [_ Htimeout]]].
  split; [| split].
  - apply Hinfo. reflexivity.
  - apply (Hnone _ _ 0); [reflexivity | lia].
  - apply (Htimeout _ 2 2); [reflexivity | reflexivity | lia | lia].
Defined.

(** ** The flush functions of the outputs *)

Section SplunkOut.
Variable network : nat -> Splunk.exchange.
Variable DecodeBytes : list byte -> result Node.
Variable AsInt : option Node -> Z.
Variable Encode : Node -> list byte.

#[local] Abbreviation send := (Splunk.send network DecodeBytes AsInt).
#[local] Abbreviation send_loop := (Splunk.send_loop network DecodeBytes AsInt).
#[local] Abbreviation send_result := (Splunk.send_result DecodeBytes AsInt).
#[local] Abbreviation fails := (Splunk.fails network DecodeBytes AsInt).
#[local] Abbreviation attempt := (Splunk.attempt network).
#[local] Abbreviation retries := (Splunk.retries network).

Lemma splunk_send_runs i payload p :
  send i payload (Splunk.RequestTimeout_ (Splunk.config p)) p =
  Returned (send_result (network i))
    (Splunk.set_history (Splunk.history p ++ attempt p i payload) p).
Proof.
  unfold Splunk.send, Splunk.attempt, Splunk.call. unfold bind, get, modify, ret.
  destruct p as [c a w h]. destruct (network i); cbn; rewrite ?app_nil_r; reflexivity.
Qed.

Lemma splunk_history_twice h h' p :
  Splunk.set_history h (Splunk.set_history h' p) = Splunk.set_history h p.
Proof. reflexivity. Qed.

Lemma attempt_history h p i payload :
  attempt (Splunk.set_history h p) i payload = attempt p i payload.
Proof. reflexivity. Qed.

Lemma retries_history h p n :
  forall i payload, retries (Splunk.set_history h p) i n payload = retries p i n payload.
Proof.
  induction n as [| n IH]; intros i payload; [reflexivity |].
  cbn [Splunk.retries]. rewrite IH, attempt_history. reflexivity.
Qed.

Lemma attempt_workerData w p i payload :
  attempt (Splunk.set_workerData w p) i payload = attempt p i payload.
Proof. reflexivity. Qed.

Lemma retries_workerData w p n :
  forall i payload, retries (Splunk.set_workerData w p) i n payload = retries p i n payload.
Proof.
  induction n as [| n IH]; intros i payload; [reflexivity |].
  cbn [Splunk.retries]. rewrite IH, attempt_workerData. reflexivity.
Qed.

Lemma splunk_loop_returns payload n :
  forall i fuel p,
    (forall k, (k < n)%nat -> fails (i + k)%nat) ->
    send_result (network (i + n)%nat) = Ok tt ->
    (n < fuel)%nat ->
    send_loop fuel i payload p =
    Returned tt
      (Splunk.set_history
         (Splunk.history p ++ retries p i n payload ++ attempt p (i + n)%nat payload) p).
Proof.
  induction n as [| n IH]; intros i fuel p Hfail Hok Hfuel.
  - destruct fuel as [| fuel]; [lia |].
    cbn [Splunk.send_loop Splunk.retries]. unfold bind at 1. unfold get at 1.
    unfold bind at 1. rewrite splunk_send_runs.
    rewrite Nat.add_0_r in Hok. rewrite Hok. rewrite Nat.add_0_r. reflexivity.
  - destruct fuel as [| fuel]; [lia |].
    cbn [Splunk.send_loop Splunk.retries]. unfold bind at 1. unfold get at 1.
    unfold bind at 1. rewrite splunk_send_runs.
    destruct (Hfail O ltac:(lia)) as [msg Hmsg]. rewrite Nat.add_0_r in Hmsg. rewrite Hmsg.
    unfold bind at 1. unfold Splunk.call at 1, modify at 1.
    unfold bind at 1. unfold Splunk.call at 1, modify at 1.
    rewrite (IH (S i) fuel).
    + rewrite !retries_history, !attempt_history, !splunk_history_twice.
      cbn [Splunk.history Splunk.set_history].
      rewrite <- !app_assoc. replace (S i + n)%nat with (i + S n)%nat by lia. reflexivity.
    + intros k Hk. replace (S i + k)%nat with (i + S k)%nat by lia. apply Hfail. lia.
    + replace (S i + n)%nat with (i + S n)%nat by lia. exact Hok.
    + lia.
Qed.

Lemma splunk_loop_spins payload :
  (forall k, fails k) ->
  forall fuel i p,
    send_loop fuel i payload p =
    Spinning (Splunk.set_history (Splunk.history p ++ retries p i fuel payload) p).
Proof.
  intros Hfail. induction fuel as [| fuel IH]; intros i p.
  - cbn. destruct p as [c a w h]. unfold Splunk.set_history. cbn.
    rewrite app_nil_r. reflexivity.
  - cbn [Splunk.send_loop Splunk.retries]. unfold bind at 1. unfold get at 1.
    unfold bind at 1. rewrite splunk_send_runs.
    destruct (Hfail i) as [msg Hmsg]. rewrite Hmsg.
    unfold bind at 1. unfold Splunk.call at 1, modify at 1.
    unfold bind at 1. unfold Splunk.call at 1, modify at 1.
    rewrite IH. rewrite !retries_history, !splunk_history_twice.
    cbn [Splunk.history Splunk.set_history].
    rewrite <- !app_assoc. reflexivity.
Qed.

Lemma sleeps_retries p i n payload :
  Splunk.sleeps (retries p i n payload) = repeat second n.
Proof.
  revert i. induction n as [| n IH]; intros i; [reflexivity |].
  cbn [Splunk.retries repeat]. unfold Splunk.sleeps in *.
  rewrite !flat_map_app, IH. unfold Splunk.attempt.
  destruct (network i); reflexivity.
Qed.

End SplunkOut.

Lemma splunk_loop_returned network DecodeBytes AsInt payload :
  forall fuel i p p',
    Splunk.send_loop network DecodeBytes AsInt fuel i payload p = Returned tt p' ->
    exists k, Splunk.send_result DecodeBytes AsInt (network k) = Ok tt.
Proof.
  induction fuel as [| fuel IH]; intros i p p' Hrun; [discriminate |].
  cbn [Splunk.send_loop] in Hrun. unfold bind at 1 in Hrun. unfold get at 1 in Hrun.
  unfold bind at 1 in Hrun. rewrite splunk_send_runs in Hrun.
  destruct (Splunk.send_result DecodeBytes AsInt (network i)) as [[] | msg] eqn:Hres.
  - exists i. exact Hres.
  - unfold bind at 1 in Hrun. unfold Splunk.call at 1, modify at 1 in Hrun.
    unfold bind at 1 in Hrun. unfold Splunk.call at 1, modify at 1 in Hrun.
    apply IH in Hrun. exact Hrun.
Qed.

(** C6, the claim as stated fails: when the write fails, the flush function
    of the file output writes once and ends the process; it does not sleep
    and does not write the batch again. *)
Lemma file_out_does_not_retry :
  let payload := list_byte_of_string "{}" ++ [x0a] in
  FileOutput.out Sample.full_disk Sample.encode_event Sample.batch Sample.file =
  Fatal (FileOutput.mkPlugin 4 0 (Some payload)
           [FileOutput.FileWrite payload;
            FileOutput.LogFatal "could not write into the file: %s, error: %s"]).
Proof. vm_compute. reflexivity. Qed.

(** C6, amended.  The flush function of the splunk output posts the same
    payload again and again, logging the error and sleeping one second
    after each failure, and returns once a request succeeds: with [n]
    failures before the first success it returns after [n + 1] requests and
    [n] sleeps, it returns nothing to its caller, it cannot return without
    a successful request, and while every request fails it keeps going.
    The flush function of the file output does not retry: a failed write
    ends the process. *)
Theorem flush_on_failure
        network DecodeBytes AsInt Encode file_Write EncodeEvent
        (batch : Batch) (sp : Splunk.Plugin) (fp : FileOutput.Plugin) (n : nat) :
  (forall k, (k < n)%nat -> Splunk.fails network DecodeBytes AsInt k) ->
  Splunk.send_result DecodeBytes AsInt (network n) = Ok tt ->
  let payload := Splunk.encode_batch Encode batch in
  let retried := Splunk.retries network sp O n payload in
  (forall fuel, (n < fuel)%nat ->
      Splunk.out network DecodeBytes AsInt Encode fuel batch sp =
      Returned tt
        (Splunk.mkPlugin (Splunk.config sp) (Splunk.avgLogSize sp)
           (Some (Splunk.mkData payload))
           (Splunk.history sp ++ retried ++ Splunk.attempt network sp n payload)))
  /\ Splunk.sleeps retried = repeat second n
  /\ (forall fuel sp',
         Splunk.out network DecodeBytes AsInt Encode fuel batch sp = Returned tt sp' ->
         exists k, Splunk.send_result DecodeBytes AsInt (network k) = Ok tt)
  /\ (forall network',
         (forall k, Splunk.fails network' DecodeBytes AsInt k) ->
         forall fuel,
           Splunk.out network' DecodeBytes AsInt Encode fuel batch sp =
           Spinning
             (Splunk.mkPlugin (Splunk.config sp) (Splunk.avgLogSize sp)
                (Some (Splunk.mkData payload))
                (Splunk.history sp ++ Splunk.retries network' sp O fuel payload))
           /\ Splunk.sleeps (Splunk.retries network' sp O fuel payload) = repeat second fuel)
  /\ (forall err,
         file_Write (FileOutput.encode_batch EncodeEvent batch) = Some err ->
         FileOutput.out file_Write EncodeEvent batch fp =
         Fatal
           (FileOutput.mkPlugin (FileOutput.BatchSize_ fp) (FileOutput.avgLogSize fp)
              (Some (FileOutput.encode_batch EncodeEvent batch))
              (FileOutput.history fp ++
               [FileOutput.FileWrite (FileOutput.encode_batch EncodeEvent batch);
                FileOutput.LogFatal "could not write into the file: %s, error: %s"]))).
Proof.
  intros Hfail Hok payload retried.
  split; [| split; [| split; [| split]]].
  - intros fuel Hfuel. unfold Splunk.out. unfold bind at 1. unfold modify at 1.
    fold payload.
    rewrite (splunk_loop_returns network DecodeBytes AsInt payload n O fuel);
      [| exact Hfail | exact Hok | exact Hfuel].
    rewrite retries_workerData, attempt_workerData. reflexivity.
  - apply sleeps_retries.
  - intros fuel sp' Hrun. unfold Splunk.out in Hrun. unfold bind at 1 in Hrun.
    unfold modify at 1 in Hrun.
    exact (splunk_loop_returned network DecodeBytes AsInt _ _ _ _ _ Hrun).
  - intros network' Hall fuel. split; [| apply sleeps_retries].
    unfold Splunk.out. unfold bind at 1. unfold modify at 1. fold payload.
    rewrite (splunk_loop_spins network' DecodeBytes AsInt payload Hall).
    rewrite retries_workerData. reflexivity.
  - intros err Herr. unfold FileOutput.out, FileOutput.write, FileOutput.call.
    unfold bind, modify. rewrite Herr. unfold FileOutput.set_history. cbn.
    rewrite <- app_assoc. reflexivity.
Qed.

Lemma flush_on_failure_witness :
  Splunk.out Sample.network Sample.decode_reply Sample.as_int Sample.encode 3
    Sample.batch Sample.splunk =
  Returned tt
    (Splunk.mkPlugin (Splunk.config Sample.splunk) (Splunk.avgLogSize Sample.splunk)
       (Some (Splunk.mkData (Splunk.encode_batch Sample.encode Sample.batch)))
       (Splunk.history Sample.splunk ++
        Splunk.retries Sample.network Sample.splunk O 2
          (Splunk.encode_batch Sample.encode Sample.batch) ++
        Splunk.attempt Sample.network Sample.splunk 2
          (Splunk.encode_batch Sample.encode Sample.batch))).
Proof.
  destruct (flush_on_failure Sample.network Sample.decode_reply Sample.as_int Sample.encode
              Sample.full_disk Sample.encode_event Sample.batch Sample.splunk Sample.file 2)
    as [Hout _].
  - intros k Hk. exists "can't send request: connection refused".
    destruct k as [| [| k]]; [reflexivity | reflexivity | lia].
  - reflexivity.
  - apply Hout. lia.
Defined.

(** * More of the code *)

(** ** Records that [In] turns away *)

Lemma isEmpty_records bytes : isEmpty bytes = true <-> bytes = [] \/ bytes = [x0a].
Proof.
  unfold isEmpty, len. split.
  - destruct bytes as [| b [| c rest]]; cbn [List.length nth].
    + intros _. left. reflexivity.
    + intros H. right. apply orb_true_iff in H. destruct H as [H | H].
      * apply Z.eqb_eq in H. lia.
      * apply andb_true_iff in H. destruct H as [H _].
        apply Byte.byte_dec_bl in H. subst. reflexivity.
    + intros H. exfalso. apply orb_true_iff in H. destruct H as [H | H].
      * apply Z.eqb_eq in H. lia.
      * apply andb_true_iff in H. destruct H as [_ H]. apply Z.eqb_eq in H. lia.
  - intros [-> | ->]; reflexivity.
Qed.

(** X1.  A record without bytes, a record that is a lone line feed and a
    record the antispamer refuses are dropped alike: [In] returns 0 after
    the antispam check (which it makes even for an empty record), takes no
    event from the pool and files nothing. *)
Theorem In_turns_away env p sourceID sourceName offset bytes isNewSource :
  bytes = [] \/ bytes = [x0a] \/
  isSpam env (history p) sourceID sourceName isNewSource = true ->
  In env sourceID sourceName offset bytes isNewSource p =
  Returned 0
    (set_history (history p ++ [AntispamIsSpam sourceID sourceName isNewSource]) p).
Proof.
  intros H.
  assert (Hdrop : isEmpty bytes
                  || isSpam env (history p) sourceID sourceName isNewSource = true).
  { destruct H as [H | [H | H]].
    - rewrite (proj2 (isEmpty_records bytes)) by (left; exact H). reflexivity.
    - rewrite (proj2 (isEmpty_records bytes)) by (right; exact H). reflexivity.
    - rewrite H. apply orb_true_r. }
  unfold In, antispamer_isSpam. unfold bind at 1. rewrite Hdrop. reflexivity.
Qed.

Lemma In_turns_away_witness :
  In Sample.env 3 "file.log" 10 [x0a] false (Sample.pipeline JSON false) =
  Returned 0
    (set_history [AntispamIsSpam 3 "file.log" false] (Sample.pipeline JSON false)).
Proof.
  apply (In_turns_away Sample.env (Sample.pipeline JSON false) 3 "file.log" 10 [x0a] false).
  right. left. reflexivity.
Defined.

(** X2.  With no free event in the pool, [In] of a record that is neither
    empty nor spam does not return: it has asked the antispam and waits for
    an event to come back; nothing is decoded, filed or logged. *)
Theorem In_waits_for_a_free_event env p sourceID sourceName offset bytes isNewSource :
  isEmpty bytes = false ->
  isSpam env (history p) sourceID sourceName isNewSource = false ->
  free (eventPool p) = [] ->
  In env sourceID sourceName offset bytes isNewSource p =
  Blocked (set_history (history p ++ [AntispamIsSpam sourceID sourceName isNewSource]) p).
Proof.
  intros Hne Hspam Hfree.
  unfold In, antispamer_isSpam, eventPool_get, pool_get. unfold bind.
  rewrite Hne, Hspam. cbn [orb eventPool set_history]. rewrite Hfree. reflexivity.
Qed.

Lemma In_waits_for_a_free_event_witness :
  In Sample.env 3 "file.log" 10 Sample.record_A false
     (set_eventPool (mkEventPool 2 []) (Sample.pipeline JSON false)) =
  Blocked
    (set_history [AntispamIsSpam 3 "file.log" false]
       (set_eventPool (mkEventPool 2 []) (Sample.pipeline JSON false))).
Proof.
  apply (In_waits_for_a_free_event Sample.env
           (set_eventPool (mkEventPool 2 []) (Sample.pipeline JSON false))
           3 "file.log" 10 Sample.record_A false); reflexivity.
Defined.

(** ** What [In] files *)

Lemma filed_without_spread env p event :
  useSpread p = false ->
  exists e,
    filed env p event = Some e /\
    Root e = Root event /\ SeqID e = SeqID event /\ Offset e = Offset event /\
    SourceID e = SourceID event /\ SourceName e = SourceName event /\
    Size e = Size event /\ kind e = kind event.
Proof.
  intros Hspread. unfold filed. rewrite Hspread.
  destruct (negb (disableStreams p)).
  - destruct (Dig (Root event) (StreamField (settings p))); eexists; repeat split.
  - eexists. repeat split.
Qed.

(** X3.  Without spreading, the event [In] files is the one it took from the
    pool, with the decoded document and stamped with the offset, the source
    id, the source name and the length of the record; its sequence id and
    kind are left as they came from the pool.  [In] files it under the
    source id it was called with and returns what the streamer answers. *)
Theorem In_stamps_event env p sourceID sourceName offset bytes isNewSource e rest root :
  isEmpty bytes = false ->
  isSpam env (history p) sourceID sourceName isNewSource = false ->
  free (eventPool p) = e :: rest ->
  decoded env p bytes = Some root ->
  useSpread p = false ->
  exists e',
    let h := history p ++ [AntispamIsSpam sourceID sourceName isNewSource; PoolGet e] in
    returned (In env sourceID sourceName offset bytes isNewSource p) =
      Some (putEvent env h sourceID (streamName e') e') /\
    history (final (In env sourceID sourceName offset bytes isNewSource p)) =
      h ++ [StreamerPutEvent sourceID (streamName e') e'] /\
    Root e' = root /\ Offset e' = offset /\ SourceID e' = sourceID /\
    SourceName e' = sourceName /\ Size e' = len bytes /\
    SeqID e' = SeqID e /\ kind e' = kind e.
Proof.
  intros Hne Hspam Hfree Hdecoded Hspread.
  rewrite (In_decoded env p sourceID sourceName offset bytes isNewSource e rest root
             Hne Hspam Hfree Hdecoded).
  rewrite In_enqueue_files, streamEvent_files.
  set (q := sampled env _ _).
  assert (Hq : useSpread q = false).
  { unfold q, sampled. destruct (len (inSample _) =? 0); exact Hspread. }
  destruct (filed_without_spread env q
              (stamped (set_Root root e) sourceID sourceName offset bytes) Hq)
    as [e' [Hfiled [Hroot [Hseq [Hoff [Hsid [Hname [Hsize Hkind]]]]]]]].
  rewrite Hfiled. exists e'. cbv zeta. cbn [returned final history set_history].
  unfold q at 1 2. rewrite !history_sampled. cbn [history set_history].
  cbn in Hsid. rewrite Hsid.
  repeat split; assumption.
Qed.

Lemma In_stamps_event_witness :
  exists e',
    returned (In Sample.env 3 "file.log" 10 Sample.record_A false
                 (Sample.pipeline JSON false)) =
      Some (putEvent Sample.env
              ([] ++ [AntispamIsSpam 3 "file.log" false; PoolGet (Sample.blank 7)])
              3 (streamName e') e') /\
    history (final (In Sample.env 3 "file.log" 10 Sample.record_A false
                       (Sample.pipeline JSON false))) =
      ([] ++ [AntispamIsSpam 3 "file.log" false; PoolGet (Sample.blank 7)]) ++
      [StreamerPutEvent 3 (streamName e') e'] /\
    Root e' = JObject [("stream", JString "A")] /\ Offset e' = 10 /\ SourceID e' = 3 /\
    SourceName e' = "file.log" /\ Size e' = len Sample.record_A /\
    SeqID e' = 7 /\ kind e' = kindNormal.
Proof.
  apply (In_stamps_event Sample.env (Sample.pipeline JSON false) 3 "file.log" 10
           Sample.record_A false (Sample.blank 7) [Sample.blank 8]
           (JObject [("stream", JString "A")])); reflexivity.
Defined.

(** ** What a method leaves alone *)

Lemma committed_app (h1 h2 : list Effect) :
  committed (h1 ++ h2) = committed h1 ++ committed h2.
Proof. unfold committed. apply flat_map_app. Qed.

Lemma unchanged_ret {T A} (f : Pipeline -> T) (a : A) : unchanged f (ret a).
Proof. intros p. reflexivity. Qed.

Lemma unchanged_bind {T A B} (f : Pipeline -> T) (m : PM A) (k : A -> PM B) :
  unchanged f m -> (forall a, unchanged f (k a)) -> unchanged f (bind m k).
Proof.
  intros Hm Hk p. unfold bind. specialize (Hm p).
  destruct (m p) as [a q | q | q | q | q]; cbn [final] in *; try exact Hm.
  rewrite <- Hm. apply Hk.
Qed.

Lemma unchanged_when {T} (f : Pipeline -> T) b (m : PM unit) :
  unchanged f m -> unchanged f (when b m).
Proof. intros Hm. destruct b; [exact Hm | apply unchanged_ret]. Qed.

Lemma unchanged_times {T} (f : Pipeline -> T) n (m : PM unit) :
  unchanged f m -> unchanged f (times n m).
Proof.
  intros Hm. induction n as [| n IH]; [apply unchanged_ret |].
  cbn [times]. apply unchanged_bind; [exact Hm | intros _; exact IH].
Qed.

Lemma unchanged_for_each {T A} (f : Pipeline -> T) (l : list A) (body : A -> PM unit) :
  (forall a, unchanged f (body a)) -> unchanged f (for_each l body).
Proof.
  intros Hbody. induction l as [| a l IH]; [apply unchanged_ret |].
  cbn [for_each]. apply unchanged_bind; [apply Hbody | intros _; exact IH].
Qed.

(** A statement that is one call or one assignment. *)
Ltac still_one :=
  let p := fresh "p" in
  intro p;
  unfold antispamer_isSpam, streamer_putEvent, eventPool_get, eventPool_back, pool_get,
    Infof, Warnf, Errorf, call, modify, Fatalf, Panicf, panic, ret, get, accounts;
  try destruct (free (eventPool p));
  cbn -[committed released]; rewrite ?committed_app, ?released_app; cbn;
  rewrite ?app_nil_r; reflexivity.

(** Goes through a method statement by statement. *)
Ltac still :=
  repeat first
    [ apply unchanged_ret
    | apply unchanged_when
    | apply unchanged_times
    | apply unchanged_for_each; intro
    | match goal with
      | |- unchanged _ (match ?x with _ => _ end) => destruct x
      | |- unchanged _ (let _ := _ in _) => cbv zeta
      end
    | still_one
    | apply unchanged_bind; [| intro] ].

Lemma In_unchanged_accounts env sourceID sourceName offset bytes isNewSource :
  unchanged accounts (In env sourceID sourceName offset bytes isNewSource).
Proof. unfold In, In_enqueue, streamEvent. still. Qed.

Lemma In_unchanged_released env sourceID sourceName offset bytes isNewSource :
  unchanged (fun p => released (history p))
    (In env sourceID sourceName offset bytes isNewSource).
Proof. unfold In, In_enqueue, streamEvent. still. Qed.

(** X4.  However [In] ends (returning, exiting, panicking or parked on the
    pool), it commits nothing and gives nothing back: the counters of
    committed events and bytes, the largest size, the out sample and the
    event log are as before, the input plugin is not told to commit and no
    event returns to the pool. *)
Theorem In_commits_nothing env sourceID sourceName offset bytes isNewSource p :
  let p' := final (In env sourceID sourceName offset bytes isNewSource p) in
  totalCommitted p' = totalCommitted p /\
  totalSize p' = totalSize p /\
  maxSize p' = maxSize p /\
  outSample p' = outSample p /\
  eventLog p' = eventLog p /\
  committed (history p') = committed (history p) /\
  released (history p') = released (history p).
Proof.
  cbv zeta.
  pose proof (In_unchanged_accounts env sourceID sourceName offset bytes isNewSource p) as H.
  pose proof (In_unchanged_released env sourceID sourceName offset bytes isNewSource p) as Hr.
  unfold accounts in H. cbv beta in Hr. inversion H as [[H1 H2 H3 H4 H5 H6]].
  repeat split; assumption.
Qed.

(** ** The stop flag *)

Lemma finalize_unchanged_shouldStop env e notifyInput backEvent coin :
  unchanged shouldStop (finalize env e notifyInput backEvent coin).
Proof. unfold finalize. still. Qed.

Lemma expandProcs_unchanged_shouldStop : unchanged shouldStop expandProcs.
Proof. unfold expandProcs, spawn, newProc. still. Qed.

Lemma growProcs_turn_unchanged_shouldStop t now1 now2 :
  unchanged shouldStop (growProcs_turn t now1 now2).
Proof.
  unfold growProcs_turn.
  apply unchanged_bind; [still_one | intros _].
  apply unchanged_bind; [still_one | intros q].
  destruct (shouldStop q); [apply unchanged_ret |].
  destruct (procCount q); [| still_one].
  destruct (activeProcs q); [| still_one].
  cbv zeta. apply unchanged_bind; [| intros _; apply unchanged_ret].
  apply unchanged_when. apply expandProcs_unchanged_shouldStop.
Qed.

Lemma maintenance_turn_unchanged_shouldStop lastCommitted lastSize :
  unchanged shouldStop (maintenance_turn lastCommitted lastSize).
Proof. unfold maintenance_turn. still. Qed.

(** X5.  [Stop] is the only operation that writes the stop flag, and it sets
    it: no operation on the pipeline clears the flag once it is set. *)
Theorem stop_flag_is_only_set env op p :
  shouldStop (run_op env op p) = shouldStop p || is_OpStop op.
Proof.
  destruct op; cbn [run_op is_OpStop]; rewrite ?orb_false_r.
  - assert (H : unchanged shouldStop (In env sourceID sourceName offset bytes isNewSource)).
    { unfold In, In_enqueue, streamEvent. still. }
    apply H.
  - apply finalize_unchanged_shouldStop.
  - apply finalize_unchanged_shouldStop.
  - assert (H : unchanged shouldStop (Error err)) by (unfold Error; still). apply H.
  - apply expandProcs_unchanged_shouldStop.
  - apply growProcs_turn_unchanged_shouldStop.
  - apply maintenance_turn_unchanged_shouldStop.
  - rewrite Stop_runs. cbn. rewrite orb_true_r. reflexivity.
  - reflexivity.
  - reflexivity.
  - reflexivity.
  - reflexivity.
  - reflexivity.
  - reflexivity.
Qed.

(** ** Finalizing *)

Lemma to_int64_add_l a b : to_int64 (to_int64 a + b) = to_int64 (a + b).
Proof.
  unfold to_int64, wrap_signed.
  replace ((a + 2 ^ (64 - 1)) mod 2 ^ 64 - 2 ^ (64 - 1) + b + 2 ^ (64 - 1))
    with ((a + 2 ^ (64 - 1)) mod 2 ^ 64 + b) by lia.
  rewrite Zplus_mod_idemp_l. f_equal. f_equal. lia.
Qed.

Lemma to_int64_add_r a b : to_int64 (a + to_int64 b) = to_int64 (a + b).
Proof. rewrite (Z.add_comm a), to_int64_add_l. f_equal. lia. Qed.

Lemma larger_is_max s m : (if s >? m then s else m) = Z.max m s.
Proof. destruct (s >? m) eqn:H; [apply Z.gtb_lt in H | rewrite Z.gtb_ltb in H; apply Z.ltb_ge in H]; lia. Qed.

(** X6.  [finalize] of an event that is not of timeout kind, by its two
    flags: the input plugin is told to commit and the counters, the largest
    size and the out sample move only with [notifyInput]; the stream is
    told in every case; the event goes back to the pool, and into the event
    log when that is enabled, only with [backEvent]. *)
Theorem finalize_by_flags env e notifyInput backEvent coin p :
  IsTimeoutKind e = false ->
  exists p',
    finalize env e notifyInput backEvent coin p = Returned tt p' /\
    history p' = history p ++ (if notifyInput then [InputCommit e] else []) ++
                 [StreamCommit e] ++ (if backEvent then [PoolBack e] else []) /\
    totalCommitted p' =
      (if notifyInput then to_int64 (totalCommitted p + 1) else totalCommitted p) /\
    totalSize p' =
      (if notifyInput then to_int64 (totalSize p + Size e) else totalSize p) /\
    maxSize p' = (if notifyInput then Z.max (maxSize p) (Size e) else maxSize p) /\
    outSample p' =
      (if notifyInput && (len (outSample p) =? 0) && Z.odd coin
       then outSample p ++ Encode env (Root e) else outSample p) /\
    eventPool p' = (if backEvent then pool_back e (eventPool p) else eventPool p) /\
    eventLog p' =
      (if backEvent && eventLogEnabled p
       then eventLog p ++ [EncodeToString env (Root e)] else eventLog p).
Proof.
  intros Hkind.
  assert (Hodd : (Z.land coin 1 =? 1) = Z.odd coin).
  { change 1 with (Z.ones 1) at 1. rewrite Z.land_ones by lia.
    rewrite Zmod_odd. destruct (Z.odd coin); reflexivity. }
  unfold finalize, eventPool_back. rewrite Hkind, Hodd. step_monad.
  pose proof (larger_is_max (Size e) (maxSize p)) as Hmax.
  destruct notifyInput, backEvent; cbn;
    destruct (len (outSample p) =? 0); cbn;
      destruct (Z.odd coin); cbn;
        destruct (Size e >? maxSize p); cbn;
          destruct (eventLogEnabled p); cbn;
            eexists; (split; [reflexivity |]); cbn;
              rewrite <- ?app_assoc, ?to_int64_add_r, <- ?Hmax;
                repeat split; reflexivity.
Qed.

Lemma finalize_by_flags_witness :
  exists p',
    finalize Sample.env (Sample.event_with JNull) false true 1 (Sample.pipeline JSON false)
    = Returned tt p' /\
    history p' = [] ++ [] ++ [StreamCommit (Sample.event_with JNull)] ++
                 [PoolBack (Sample.event_with JNull)] /\
    totalCommitted p' = 0 /\ totalSize p' = 0 /\ maxSize p' = 0 /\ outSample p' = [] /\
    eventPool p' = pool_back (Sample.event_with JNull)
                     (eventPool (Sample.pipeline JSON false)) /\
    eventLog p' = [].
Proof.
  apply (finalize_by_flags Sample.env (Sample.event_with JNull) false true 1
           (Sample.pipeline JSON false)).
  reflexivity.
Defined.

Lemma finalize_timeout env e notifyInput backEvent coin p :
  IsTimeoutKind e = true -> finalize env e notifyInput backEvent coin p = Returned tt p.
Proof. intros H. unfold finalize. rewrite H. reflexivity. Qed.

Lemma to_int64_is_int64 z : is_int64 (to_int64 z).
Proof.
  unfold is_int64, to_int64, wrap_signed, max_int64.
  pose proof (Z.mod_pos_bound (z + 2 ^ (64 - 1)) (2 ^ 64) eq_refl) as H.
  change (2 ^ (64 - 1)) with 9223372036854775808 in *.
  change (2 ^ 64) with 18446744073709551616 in *.
  change (2 ^ 63) with 9223372036854775808. lia.
Qed.

(** X7.  Commits add up.  After [Commit] was called for the events of a
    list, in that order, the events of timeout kind have left no trace,
    and for the others: the input plugin was told to commit each, in the
    order of the list; each is back in the pool, behind those that were
    free; [totalCommitted] has grown by their number and [totalSize] by the
    sum of their sizes (in int64 arithmetic), and [maxSize] is the largest
    size seen. *)
Theorem commits_add_up env es :
  forall p,
    is_int64 (totalCommitted p) ->
    is_int64 (totalSize p) ->
    let p' := run_ops env (commits es) p in
    totalCommitted p' = to_int64 (totalCommitted p + len (not_timeouts es)) /\
    totalSize p' = to_int64 (totalSize p + sum_sizes (not_timeouts es)) /\
    maxSize p' = fold_left (fun m ec => Z.max m (Size (fst ec))) (not_timeouts es) (maxSize p) /\
    committed (history p') = committed (history p) ++ map fst (not_timeouts es) /\
    free (eventPool p') = free (eventPool p) ++ map fst (not_timeouts es).
Proof.
  induction es as [| [e coin] es IH]; intros p Hc Hs.
  - cbn. rewrite !Z.add_0_r, !app_nil_r.
    rewrite !to_int64_small by assumption. repeat split.
  - cbv zeta. cbn [commits].
    change (run_ops env (?op :: ?ops) p) with (run_ops env ops (run_op env op p)).
    cbn [run_op]. unfold Commit, not_timeouts. cbn [filter fst].
    destruct (IsTimeoutKind e) eqn:Hkind; cbn [negb].
    + rewrite finalize_timeout by exact Hkind. cbn [final]. apply IH; assumption.
    + destruct (finalize_by_flags env e true true coin p Hkind)
        as [q [Hrun [Hhist [Htc [Hts [Hmax [_ [Hpool _]]]]]]]].
      rewrite Hrun. cbn [final].
      destruct (IH q) as [H1 [H2 [H3 [H4 H5]]]].
      { rewrite Htc. apply to_int64_is_int64. }
      { rewrite Hts. apply to_int64_is_int64. }
      fold (not_timeouts es).
      rewrite H1, H2, H3, H4, H5, Htc, Hts, Hmax, Hhist, Hpool.
      cbn [fold_left fst sum_sizes map pool_back free].
      rewrite !committed_app. cbn [committed flat_map app].
      rewrite !to_int64_add_l, <- !app_assoc.
      repeat split.
      * f_equal. unfold len. cbn [List.length]. lia.
      * f_equal. lia.
Qed.

Lemma commits_add_up_witness :
  let p' := run_ops Sample.env
              (commits [(Sample.event_with JNull, 1); (Sample.event_with JNull, 2)])
              (Sample.pipeline JSON false) in
  totalCommitted p' = 2 /\ totalSize p' = 28 /\ maxSize p' = 14 /\
  committed (history p') = [Sample.event_with JNull; Sample.event_with JNull] /\
  free (eventPool p') =
  [Sample.blank 7; Sample.blank 8; Sample.event_with JNull; Sample.event_with JNull].
Proof.
  apply (commits_add_up Sample.env
           [(Sample.event_with JNull, 1); (Sample.event_with JNull, 2)]
           (Sample.pipeline JSON false)); unfold is_int64, max_int64; cbn; lia.
Defined.

(** ** The event log *)

Lemma GetEventLogItem_inside index p :
  0 <= index < len (eventLog p) ->
  GetEventLogItem index p = Returned (nth (Z.to_nat index) (eventLog p) EmptyString) p.
Proof.
  intros [Hlo Hhi]. unfold GetEventLogItem. step_monad.
  replace (index >=? len (eventLog p)) with false by (symmetry; rewrite Z.geb_leb; apply Z.leb_gt; lia).
  cbn. replace (index <? 0) with false by (symmetry; apply Z.ltb_ge; lia).
  reflexivity.
Qed.

(** X8.  With the event log enabled, an event that [Commit] finalizes is
    appended to the log: [GetEventLogItem] at the former length of the log
    returns its encoded document, and the items logged before are returned
    as before.  An index at or beyond the length of the log ends the
    process; a negative index panics. *)
Theorem event_log_keeps_commits env e coin p0 :
  IsTimeoutKind e = false ->
  let p := final (EnableEventLog p0) in
  let p' := final (Commit env e coin p) in
  len (eventLog p') = len (eventLog p0) + 1 /\
  GetEventLogItem (len (eventLog p0)) p' = Returned (EncodeToString env (Root e)) p' /\
  (forall index, 0 <= index < len (eventLog p0) ->
     GetEventLogItem index p' =
     Returned (nth (Z.to_nat index) (eventLog p0) EmptyString) p') /\
  (forall index, len (eventLog p') <= index ->
     GetEventLogItem index p' =
     Fatal (set_history (history p' ++ [LogFatal "can't find log item with index %d"]) p')) /\
  (forall index, index < 0 -> GetEventLogItem index p' = Panicked p').
Proof.
  intros Hkind p p'.
  destruct (finalize_by_flags env e true true coin p Hkind)
    as [q [Hrun [_ [_ [_ [_ [_ [_ Hlog]]]]]]]].
  assert (Hp' : p' = q) by (unfold p', Commit; rewrite Hrun; reflexivity).
  assert (Hq : eventLog p' = eventLog p0 ++ [EncodeToString env (Root e)]).
  { rewrite Hp', Hlog. reflexivity. }
  clearbody p'. clear Hp' Hrun Hlog q.
  assert (Hlen : len (eventLog p') = len (eventLog p0) + 1).
  { rewrite Hq, len_app. reflexivity. }
  pose proof (len_nonneg (eventLog p0)) as Hnn.
  split; [exact Hlen |]. split; [| split; [| split]].
  - rewrite GetEventLogItem_inside by lia. f_equal.
    rewrite Hq. unfold len. rewrite Nat2Z.id, nth_middle. reflexivity.
  - intros index Hi. rewrite GetEventLogItem_inside by lia. f_equal.
    rewrite Hq. apply app_nth1. unfold len in Hi. lia.
  - intros index Hi. unfold GetEventLogItem. step_monad.
    replace (index >=? len (eventLog p')) with true
      by (symmetry; rewrite Z.geb_leb; apply Z.leb_le; lia).
    reflexivity.
  - intros index Hi. unfold GetEventLogItem. step_monad.
    replace (index >=? len (eventLog p')) with false
      by (symmetry; rewrite Z.geb_leb; apply Z.leb_gt; lia).
    cbn. replace (index <? 0) with true by (symmetry; apply Z.ltb_lt; lia).
    reflexivity.
Qed.

Lemma event_log_keeps_commits_witness :
  let p := final (EnableEventLog (Sample.pipeline JSON false)) in
  let p' := final (Commit Sample.env (Sample.event_with JNull) 1 p) in
  len (eventLog p') = 0 + 1 /\
  GetEventLogItem 0 p' = Returned "{}" p'.
Proof.
  destruct (event_log_keeps_commits Sample.env (Sample.event_with JNull) 1
              (Sample.pipeline JSON false) eq_refl) as [H1 [H2 _]].
  split; [exact H1 | exact H2].
Defined.

(** ** Samples *)

Lemma len_zero {A} (l : list A) : (len l =? 0) = true -> l = [].
Proof. intros H. apply Z.eqb_eq in H. destruct l; [reflexivity | unfold len in H; cbn in H; lia]. Qed.

(** X9.  [In] keeps the first record it decodes as the input sample and no
    later one: when the sample is empty it becomes the encoded document of
    the record, otherwise it is left alone; this holds even if the filing
    that follows panics. *)
Theorem In_samples_first_record
        env p sourceID sourceName offset bytes isNewSource e rest root :
  isEmpty bytes = false ->
  isSpam env (history p) sourceID sourceName isNewSource = false ->
  free (eventPool p) = e :: rest ->
  decoded env p bytes = Some root ->
  inSample (final (In env sourceID sourceName offset bytes isNewSource p)) =
  match inSample p with
  | [] => Encode env root
  | _ :: _ => inSample p
  end.
Proof.
  intros Hne Hspam Hfree Hdecoded.
  rewrite (In_decoded env p sourceID sourceName offset bytes isNewSource e rest root
             Hne Hspam Hfree Hdecoded).
  rewrite In_enqueue_files, streamEvent_files.
  set (q := sampled env _ _).
  assert (Hq : inSample q = match inSample p with [] => Encode env root | _ :: _ => inSample p end).
  { unfold q, sampled. cbn [inSample set_history set_eventPool Root set_Root].
    destruct (inSample p) as [| b l] eqn:Hi; [reflexivity |].
    replace (len (b :: l) =? 0) with false
      by (symmetry; apply Z.eqb_neq; unfold len; cbn [List.length]; lia).
    cbn [inSample set_history set_eventPool]. exact Hi. }
  destruct (filed env q _); cbn [final inSample set_history]; exact Hq.
Qed.

Lemma In_samples_first_record_witness :
  inSample (final (In Sample.env 3 "file.log" 10 Sample.record_A false
                      (set_inSample [x61] (Sample.pipeline JSON false)))) = [x61].
Proof.
  apply (In_samples_first_record Sample.env (set_inSample [x61] (Sample.pipeline JSON false))
           3 "file.log" 10 Sample.record_A false (Sample.blank 7) [Sample.blank 8]
           (JObject [("stream", JString "A")])); reflexivity.
Defined.



(** ** More on the fleet *)

(** X11.  [initProcs] with [gomaxprocs] cores, twice as many fitting 32
    bits: the processor count is set to twice the cores, or to 1 when
    parallelism is disabled; that many processors are made, numbered from
    0; and the count of active processors starts at 0. *)
Theorem initProcs_fills_the_fleet gomaxprocs p :
  0 < gomaxprocs -> 2 * gomaxprocs <= max_int32 ->
  let c := if singleProc p then 1 else 2 * gomaxprocs in
  exists p',
    initProcs gomaxprocs p = Returned tt p' /\
    procCount p' = Some c /\ 0 < c <= max_int32 /\
    activeProcs p' = Some 0 /\
    Procs p' = spawned 0 (Z.to_nat c) /\ len (Procs p') = c.
Proof.
  intros Hpos Hfit c.
  assert (Hc : 0 < c <= max_int32).
  { unfold c, max_int32 in *. destruct (singleProc p); lia. }
  assert (Hint : (if singleProc p then 1 else to_int (gomaxprocs * 2)) = c).
  { unfold c. destruct (singleProc p); [reflexivity |].
    rewrite to_int_small; unfold max_int32, max_int64 in *; lia. }
  unfold initProcs. unfold bind at 1. unfold get at 1. rewrite Hint.
  rewrite to_int32_small by (unfold max_int32 in *; lia).
  repeat (unfold bind at 1; unfold Infof, call, modify at 1).
  rewrite enlist_loop. eexists. split; [reflexivity |].
  cbn [procCount activeProcs Procs set_procCount set_activeProcs set_Procs set_history app len
       List.length Z.of_nat].
  repeat split; try apply Hc.
  unfold len. rewrite length_spawned. lia.
Qed.

Lemma initProcs_fills_the_fleet_witness :
  exists p',
    initProcs 4 (Sample.pipeline JSON false) = Returned tt p' /\
    procCount p' = Some 8 /\ 0 < 8 <= max_int32 /\
    activeProcs p' = Some 0 /\
    Procs p' = spawned 0 (Z.to_nat 8) /\ len (Procs p') = 8.
Proof.
  apply (initProcs_fills_the_fleet 4 (Sample.pipeline JSON false)); unfold max_int32; lia.
Defined.

(** X12.  A turn of [growProcs] that sees the active count differ from the
    target does not expand, provided its two readings of the clock are not
    more than the interval apart: it restarts its timer at the first
    reading and leaves the pipeline as it was, but for the sleep. *)
Theorem growProcs_turn_restarts_timer p n a t now1 now2 :
  shouldStop p = false ->
  procCount p = Some n ->
  activeProcs p = Some a ->
  n <> a ->
  now2 - now1 <= growth_interval ->
  growProcs_turn t now1 now2 p =
  Returned (Some now1) (set_history (history p ++ [Sleep growth_interval]) p).
Proof.
  intros Hstop Hpc Hap Hne Hclock.
  unfold growProcs_turn. fold growth_interval.
  unfold bind at 1. unfold call at 1, modify at 1.
  unfold bind at 1. unfold get at 1. cbn [shouldStop set_history procCount activeProcs].
  rewrite Hstop, Hpc, Hap. cbv zeta.
  apply Z.eqb_neq in Hne. rewrite Hne. cbn [negb].
  replace (now2 - now1 >? growth_interval) with false
    by (symmetry; rewrite Z.gtb_ltb; apply Z.ltb_ge; lia).
  reflexivity.
Qed.

Lemma growProcs_turn_restarts_timer_witness :
  growProcs_turn 0 (150 * millisecond) (150 * millisecond) (Sample.pipeline JSON false) =
  Returned (Some (150 * millisecond))
    (set_history [Sleep growth_interval] (Sample.pipeline JSON false)).
Proof.
  apply (growProcs_turn_restarts_timer (Sample.pipeline JSON false) 2 0 0
           (150 * millisecond) (150 * millisecond)); try reflexivity.
  - discriminate.
  - unfold growth_interval, millisecond. lia.
Defined.

Lemma run_op_keeps_singleProc env op p :
  singleProc p = true -> singleProc (run_op env op p) = true.
Proof.
  intros Hsingle.
  destruct op; cbn [run_op]; try (cbn; first [exact Hsingle | reflexivity]).
  - assert (H : unchanged singleProc (In env sourceID sourceName offset bytes isNewSource)).
    { unfold In, In_enqueue, streamEvent. still. }
    rewrite (H p). exact Hsingle.
  - assert (H : unchanged singleProc (Commit env e coin)) by (unfold Commit, finalize; still).
    rewrite (H p). exact Hsingle.
  - assert (H : unchanged singleProc (finalize env e notifyInput backEvent coin))
      by (unfold finalize; still).
    rewrite (H p). exact Hsingle.
  - assert (H : unchanged singleProc (Error err)) by (unfold Error; still).
    rewrite (H p). exact Hsingle.
  - rewrite expandProcs_single by exact Hsingle. exact Hsingle.
  - assert (H : unchanged singleProc (growProcs_turn t now1 now2)).
    { assert (He : unchanged singleProc expandProcs)
        by (unfold expandProcs, spawn, newProc; still).
      unfold growProcs_turn.
      apply unchanged_bind; [still_one | intros _].
      apply unchanged_bind; [still_one | intros q].
      destruct (shouldStop q); [apply unchanged_ret |].
      destruct (procCount q); [| still_one].
      destruct (activeProcs q); [| still_one].
      cbv zeta. apply unchanged_bind; [| intros _; apply unchanged_ret].
      apply unchanged_when. exact He. }
    rewrite (H p). exact Hsingle.
  - assert (H : unchanged singleProc (maintenance_turn lastCommitted lastSize))
      by (unfold maintenance_turn; still).
    rewrite (H p). exact Hsingle.
  - rewrite Stop_runs. exact Hsingle.
Qed.

Lemma run_op_single_fleet env op p :
  singleProc p = true -> same_fleet p (run_op env op p).
Proof.
  intros Hsingle. destruct op; cbn [run_op]; try (split; reflexivity).
  - apply In_keeps_fleet.
  - unfold Commit. apply finalize_keeps_fleet.
  - apply finalize_keeps_fleet.
  - apply Error_keeps_fleet.
  - rewrite expandProcs_single by exact Hsingle. apply same_fleet_refl.
  - unfold growProcs_turn. unfold bind at 1. unfold call at 1, modify at 1.
    unfold bind at 1. unfold get at 1. cbn [shouldStop set_history procCount activeProcs].
    destruct (shouldStop p); [split; reflexivity |].
    destruct (procCount p) as [n |]; [| split; reflexivity].
    destruct (activeProcs p) as [a |]; [| split; reflexivity].
    cbv zeta. unfold bind at 1. unfold when.
    destruct (_ >? _).
    + rewrite expandProcs_single by exact Hsingle. split; reflexivity.
    + split; reflexivity.
  - apply maintenance_turn_keeps_fleet.
  - apply Stop_keeps_fleet.
Qed.

(** X13.  With parallelism disabled the pipeline starts with one processor
    and keeps it: whatever runs afterwards, growth turns included, the
    processor count stays 1 and no processor is added. *)
Theorem single_processor_never_grows env gomaxprocs p0 ops :
  let p := final (initProcs gomaxprocs (final (DisableParallelism p0))) in
  procCount p = Some 1 /\
  Procs p = [mkProcessor 0] /\
  procCount (run_ops env ops p) = Some 1 /\
  Procs (run_ops env ops p) = [mkProcessor 0].
Proof.
  intros p.
  assert (Hp : singleProc p = true /\ procCount p = Some 1 /\ Procs p = [mkProcessor 0]).
  { unfold p, initProcs, DisableParallelism.
    unfold bind at 1. unfold get at 1. cbn [final modify singleProc set_singleProc].
    unfold bind at 1. unfold Infof, call, modify at 1.
    unfold bind at 1. unfold modify at 1.
    unfold bind at 1. unfold modify at 1.
    unfold bind at 1. unfold modify at 1.
    rewrite enlist_loop. cbn. repeat split. }
  destruct Hp as [Hsingle [Hpc Hprocs]].
  split; [exact Hpc |]. split; [exact Hprocs |].
  rewrite <- Hpc, <- Hprocs. clearbody p. clear Hpc Hprocs.
  revert p Hsingle. induction ops as [| op ops IH]; intros p Hsingle.
  - split; reflexivity.
  - change (run_ops env (op :: ops) p) with (run_ops env ops (run_op env op p)).
    destruct (run_op_single_fleet env op p Hsingle) as [H1 H2].
    destruct (IH (run_op env op p) (run_op_keeps_singleProc env op p Hsingle)) as [H3 H4].
    split; congruence.
Qed.

(** ** A new pipeline *)


(** ** The info handler *)

(** X15.  For an action with a metric name, the info handler answers with
    status 200 and the three counts of the metric of that name, in the
    order received, discarded, passed, a status the metric has no counter
    for counting 0; when no metric has that name the handler panics after
    setting the content type, before it writes anything. *)
Theorem serveActionInfo_reports Marshal_ErrResp Marshal_events info holder :
  MetricName info <> EmptyString ->
  match find_metric (MetricName info) holder with
  | Some m =>
      serveActionInfo Marshal_ErrResp Marshal_events info holder newResponseWriter =
      Returned tt
        (error_response StatusOK
           (Marshal_events [mkInfoEvent "received" (count_of m "received");
                            mkInfoEvent "discarded" (count_of m "discarded");
                            mkInfoEvent "passed" (count_of m "passed")]))
  | None =>
      serveActionInfo Marshal_ErrResp Marshal_events info holder newResponseWriter =
      Panicked (mkResponseWriter [("Content-Type", "application/json")] None [])
  end.
Proof.
  intros Hname. apply String.eqb_neq in Hname.
  unfold serveActionInfo. rewrite Hname.
  destruct (find_metric (MetricName info) holder) as [m |]; [| reflexivity].
  unfold count_of, eventStatusReceived, eventStatusDiscarded, eventStatusPassed.
  cbn [map].
  destruct (counter_of "received" (totalCounter m)),
           (counter_of "discarded" (totalCounter m)),
           (counter_of "passed" (totalCounter m)); reflexivity.
Qed.

Lemma serveActionInfo_reports_witness :
  serveActionInfo Sample.marshal_error Sample.marshal_events (mkActionInfo "throttled")
    Sample.holder newResponseWriter =
  Returned tt
    (error_response StatusOK
       (Sample.marshal_events [mkInfoEvent "received" 5; mkInfoEvent "discarded" 0;
                               mkInfoEvent "passed" 3])).
Proof.
  apply (serveActionInfo_reports Sample.marshal_error Sample.marshal_events
           (mkActionInfo "throttled") Sample.holder).
  discriminate.
Defined.

(** ** Strings and numbers as text *)

Lemma length_append (a b : string) :
  String.length (a ++ b)%string = (String.length a + String.length b)%nat.
Proof. induction a as [| c a IH]; cbn; [| rewrite IH]; reflexivity. Qed.

Lemma slen_append (a b : string) : slen (a ++ b)%string = slen a + slen b.
Proof. unfold slen. rewrite length_append. lia. Qed.

Lemma slen_nonneg (s : string) : 0 <= slen s.
Proof. unfold slen. lia. Qed.

Lemma substring_whole (s : string) : substring 0 (String.length s) s = s.
Proof. induction s as [| c s IH]; cbn; [| rewrite IH]; reflexivity. Qed.

Lemma substring_prefix (a b : string) : substring 0 (String.length a) (a ++ b)%string = a.
Proof.
  induction a as [| c a IH]; cbn.
  - destruct b; reflexivity.
  - rewrite IH. reflexivity.
Qed.

Lemma substring_skip (a b : string) n m :
  substring (String.length a + n) m (a ++ b)%string = substring n m b.
Proof. induction a as [| c a IH]; cbn; [reflexivity | exact IH]. Qed.

Lemma substring_cut (s : string) n :
  (n <= String.length s)%nat ->
  (substring 0 n s ++ substring n (String.length s - n) s)%string = s.
Proof.
  revert n. induction s as [| c s IH]; intros n Hn.
  - destruct n; [reflexivity | cbn in Hn; lia].
  - destruct n as [| n].
    + cbn. rewrite substring_whole. reflexivity.
    + cbn in *. rewrite IH by lia. reflexivity.
Qed.

Lemma length_substring (s : string) n m :
  (n + m <= String.length s)%nat -> String.length (substring n m s) = m.
Proof.
  revert n m. induction s as [| c s IH]; intros n m H.
  - cbn in H. destruct n, m; try reflexivity; lia.
  - destruct n as [| n]; cbn in *.
    + destruct m as [| m]; [reflexivity |]. cbn. rewrite IH by lia. reflexivity.
    + apply IH. lia.
Qed.

(** [s[lo:hi]] of a string made of three parts gives the middle one. *)
Lemma slice_middle (a b c : string) :
  slice (a ++ b ++ c)%string (slen a) (slen a + slen b) = Some b.
Proof.
  unfold slice. pose proof (slen_nonneg a). pose proof (slen_nonneg b).
  pose proof (slen_nonneg c).
  rewrite !slen_append.
  replace ((0 <=? slen a) && (slen a <=? slen a + slen b)
           && (slen a + slen b <=? slen a + (slen b + slen c))) with true
    by (symmetry; rewrite !andb_true_iff, !Z.leb_le; lia).
  f_equal. unfold slen. rewrite Nat2Z.id.
  replace (Z.to_nat (Z.of_nat (String.length a) + Z.of_nat (String.length b)
                     - Z.of_nat (String.length a))) with (String.length b) by lia.
  replace (String.length a) with (String.length a + 0)%nat at 1 by lia.
  rewrite substring_skip. apply substring_prefix.
Qed.

Lemma slice_front (b c : string) : slice (b ++ c)%string 0 (slen b) = Some b.
Proof. exact (slice_middle EmptyString b c). Qed.

Lemma last_index_bounds c s pos :
  0 <= pos ->
  last_index_from c s pos = -1 \/
  pos <= last_index_from c s pos < pos + slen s.
Proof.
  revert pos. induction s as [| a s IH]; intros pos Hpos; [left; reflexivity |].
  cbn [last_index_from]. unfold slen in *. cbn [String.length].
  destruct (IH (pos + 1) ltac:(lia)) as [H | H].
  - rewrite H. cbn. destruct (Ascii.eqb a c); [right; lia | left; reflexivity].
  - replace (0 <=? last_index_from c s (pos + 1)) with true
      by (symmetry; apply Z.leb_le; lia).
    right. lia.
Qed.

Lemma digits_start_with_a_digit d :
  d <> Decimal.Nil ->
  exists c rest,
    NilEmpty.string_of_uint d = String c rest /\
    Ascii.eqb c "+" = false /\ Ascii.eqb c "-" = false.
Proof.
  destruct d; intros H; try (exfalso; apply H; reflexivity);
    eexists; eexists; cbn [NilEmpty.string_of_uint]; repeat split.
Qed.

Lemma uint_of_positive p :
  NilZero.uint_of_string (NilEmpty.string_of_uint (Pos.to_uint p)) = Some (Pos.to_uint p) /\
  Z.of_uint (Pos.to_uint p) = Z.pos p.
Proof.
  pose proof (Unsigned.to_uint_nonnil p) as Hnil. split.
  - pose proof (NilZero.usu (Pos.to_uint p) Hnil) as H.
    unfold NilZero.string_of_uint in H. destruct (Pos.to_uint p); try exact H.
    exfalso. apply Hnil. reflexivity.
  - unfold Z.of_uint. rewrite Unsigned.of_to. reflexivity.
Qed.

(** What [%d] prints, [ParseInt] reads back. *)
Lemma ParseInt_Sprint_d z : is_int64 z -> ParseInt (Sprint_d z) = Ok z.
Proof.
  intros [Hlo Hhi]. unfold max_int64 in Hhi. unfold Sprint_d.
  destruct z as [| p | p]; [reflexivity | |].
  - cbn [Z.to_int NilZero.string_of_int].
    destruct (uint_of_positive p) as [Hparse Hval].
    destruct (digits_start_with_a_digit (Pos.to_uint p) (Unsigned.to_uint_nonnil p))
      as [c [rest [Hs [Hplus Hminus]]]].
    assert (Hstr : NilZero.string_of_uint (Pos.to_uint p)
                   = NilEmpty.string_of_uint (Pos.to_uint p)).
    { unfold NilZero.string_of_uint. destruct (Pos.to_uint p) eqn:E; try reflexivity.
      exfalso. exact (Unsigned.to_uint_nonnil p E). }
    rewrite Hstr. unfold ParseInt. rewrite Hs, Hplus, Hminus. cbn [orb].
    rewrite <- Hs, Hparse. cbv zeta. rewrite Hval.
    replace (Z.pos p <? 2 ^ 63) with true by (symmetry; apply Z.ltb_lt; lia).
    reflexivity.
  - cbn [Z.to_int NilZero.string_of_int].
    destruct (uint_of_positive p) as [Hparse Hval].
    assert (Hstr : NilZero.string_of_uint (Pos.to_uint p)
                   = NilEmpty.string_of_uint (Pos.to_uint p)).
    { unfold NilZero.string_of_uint. destruct (Pos.to_uint p) eqn:E; try reflexivity.
      exfalso. exact (Unsigned.to_uint_nonnil p E). }
    rewrite Hstr. unfold ParseInt.
    change (Ascii.eqb "-" "-") with true. change (Ascii.eqb "-" "+") with false.
    cbn [orb]. rewrite Hparse. cbv zeta. rewrite Hval.
    replace (Z.pos p <=? 2 ^ 63) with true by (symmetry; apply Z.leb_le; lia).
    reflexivity.
Qed.

(** ** The file output: names and rotation *)

Lemma Split_joins path : (fst (Split path) ++ snd (Split path))%string = path.
Proof.
  unfold Split, from_index, LastIndexByte. cbn [fst snd].
  destruct (last_index_bounds "/" path 0 ltac:(lia)) as [H | H].
  - rewrite H. cbn. rewrite Nat.sub_0_r, substring_whole.
    destruct path; reflexivity.
  - apply substring_cut. unfold slen in H. lia.
Qed.

Lemma append_empty (s : string) : (s ++ EmptyString)%string = s.
Proof. induction s as [| c s IH]; cbn; [| rewrite IH]; reflexivity. Qed.

Lemma slice_whole (s : string) : slice s 0 (slen s) = Some s.
Proof.
  pose proof (slice_front s EmptyString) as H. rewrite append_empty in H. exact H.
Qed.

Lemma Ext_cuts file :
  exists name,
    slice file 0 (slen file - slen (Ext file)) = Some name /\
    (name ++ Ext file)%string = file.
Proof.
  unfold Ext, LastIndexByte.
  destruct (Z.ltb_spec (last_index_from "/" file 0) (last_index_from "." file 0))
    as [Hlt | Hge].
  - destruct (last_index_bounds "." file 0 ltac:(lia)) as [Hd | Hd];
      destruct (last_index_bounds "/" file 0 ltac:(lia)) as [Hs | Hs]; try lia.
    + set (d := last_index_from "." file 0) in *. unfold slen in Hd.
      exists (substring 0 (Z.to_nat d) file).
      assert (Hlen : String.length (from_index file d) = (String.length file - Z.to_nat d)%nat).
      { unfold from_index. apply length_substring. lia. }
      split.
      * unfold slice, slen. rewrite Hlen.
        replace ((0 <=? 0)
                 && (0 <=? Z.of_nat (String.length file)
                           - Z.of_nat (String.length file - Z.to_nat d))
                 && (Z.of_nat (String.length file)
                     - Z.of_nat (String.length file - Z.to_nat d)
                     <=? Z.of_nat (String.length file))) with true
          by (symmetry; rewrite !andb_true_iff, !Z.leb_le; lia).
        f_equal. f_equal. lia.
      * unfold from_index. apply substring_cut. lia.
    + set (d := last_index_from "." file 0) in *. unfold slen in Hd.
      exists (substring 0 (Z.to_nat d) file).
      assert (Hlen : String.length (from_index file d) = (String.length file - Z.to_nat d)%nat).
      { unfold from_index. apply length_substring. lia. }
      split.
      * unfold slice, slen. rewrite Hlen.
        replace ((0 <=? 0)
                 && (0 <=? Z.of_nat (String.length file)
                           - Z.of_nat (String.length file - Z.to_nat d))
                 && (Z.of_nat (String.length file)
                     - Z.of_nat (String.length file - Z.to_nat d)
                     <=? Z.of_nat (String.length file))) with true
          by (symmetry; rewrite !andb_true_iff, !Z.leb_le; lia).
        f_equal. f_equal. lia.
      * unfold from_index. apply substring_cut. lia.
  - exists file. change (slen EmptyString) with 0. rewrite Z.sub_0_r.
    split; [apply slice_whole | apply append_empty].
Qed.

Lemma string_app_assoc (a b c : string) :
  ((a ++ b) ++ c)%string = (a ++ b ++ c)%string.
Proof. induction a as [| x a IH]; cbn; [| rewrite IH]; reflexivity. Qed.

(** ** Times of the file output *)

Lemma retention_is_int64 c : is_int64 (FileSeal.RetentionInterval_ c).
Proof. apply to_int64_is_int64. Qed.

(** A duration as [Add] cuts it: whole seconds, rounded down, and the
    nanoseconds left, from 0 to 999999999. *)
Lemma Add_cuts t d :
  exists dsec ns,
    d = dsec * 1000000000 + ns /\ 0 <= ns < 1000000000 /\
    FileSeal.Add (FileSeal.mkTime t 0) d = FileSeal.addSec dsec (FileSeal.mkTime t ns).
Proof.
  unfold FileSeal.Add. cbn [FileSeal.ext FileSeal.nsec].
  pose proof (Z.quot_rem' d 1000000000) as Hd.
  rewrite Z.add_0_l.
  destruct (Z_lt_le_dec d 0) as [Hneg | Hpos].
  - pose proof (Z.rem_bound_pos_neg d 1000000000 ltac:(lia) ltac:(lia)) as Hr.
    replace (Z.rem d 1000000000 >=? 1000000000) with false
      by (symmetry; rewrite Z.geb_leb; apply Z.leb_gt; lia).
    destruct (Z.ltb_spec (Z.rem d 1000000000) 0) as [Hlt | Hge].
    + exists (Z.quot d 1000000000 - 1), (Z.rem d 1000000000 + 1000000000).
      repeat split; lia.
    + exists (Z.quot d 1000000000), (Z.rem d 1000000000). repeat split; lia.
  - pose proof (Z.rem_bound_pos d 1000000000 Hpos ltac:(lia)) as Hr.
    replace (Z.rem d 1000000000 >=? 1000000000) with false
      by (symmetry; rewrite Z.geb_leb; apply Z.leb_gt; lia).
    replace (Z.rem d 1000000000 <? 0) with false by (symmetry; apply Z.ltb_ge; lia).
    exists (Z.quot d 1000000000), (Z.rem d 1000000000). repeat split; lia.
Qed.

(** [addSec] where the sum fits. *)
Lemma addSec_fits d t ns :
  is_int64 t -> is_int64 (t + d) ->
  FileSeal.addSec d (FileSeal.mkTime t ns) = FileSeal.mkTime (t + d) ns.
Proof.
  intros Ht Hsum. unfold FileSeal.addSec. cbn [FileSeal.ext FileSeal.nsec].
  rewrite (to_int64_small (t + d)) by exact Hsum.
  replace (Bool.eqb (t + d >? t) (d >? 0)) with true; [reflexivity |].
  symmetry. apply Bool.eqb_true_iff.
  destruct (Z.gtb_spec d 0); destruct (Z.gtb_spec (t + d) t); try reflexivity; lia.
Qed.

(** [time.Unix(t, 0).Add(d)] for a time [t] of some 146 thousand million
    years around the epoch and a duration [d]: nothing wraps, and the
    instant is [d] nanoseconds after the second [t]. *)
Lemma Unix_Add_exact t d :
  - 2 ^ 62 <= t < 2 ^ 62 -> is_int64 d ->
  FileSeal.instant (FileSeal.Add (FileSeal.Unix t) d) = t * second + d.
Proof.
  intros Ht [Hlo Hhi]. unfold max_int64 in Hhi.
  change (2 ^ 62) with 4611686018427387904 in Ht.
  change (2 ^ 63) with 9223372036854775808 in Hlo, Hhi.
  unfold FileSeal.Unix.
  rewrite (to_int64_small (t + FileSeal.unixToInternal))
    by (unfold FileSeal.unixToInternal, max_int64;
        change (2 ^ 63) with 9223372036854775808; lia).
  destruct (Add_cuts (t + FileSeal.unixToInternal) d) as [dsec [ns [Hd [Hns HAdd]]]].
  rewrite HAdd.
  rewrite addSec_fits.
  - unfold FileSeal.instant, second, millisecond. cbn [FileSeal.ext FileSeal.nsec]. lia.
  - unfold is_int64, FileSeal.unixToInternal, max_int64.
    change (2 ^ 63) with 9223372036854775808. lia.
  - unfold is_int64, FileSeal.unixToInternal, max_int64.
    change (2 ^ 63) with 9223372036854775808. lia.
Qed.

(** A time [t] so late that [time.Unix] wraps: whatever the duration, the
    instant lies before the epoch. *)
Lemma Unix_Add_wraps t d :
  is_int64 t -> max_int64 - FileSeal.unixToInternal < t -> is_int64 d ->
  FileSeal.instant (FileSeal.Add (FileSeal.Unix t) d) < 0.
Proof.
  intros [Htlo Hthi] Hlate [Hlo Hhi]. unfold max_int64 in *.
  change (2 ^ 63) with 9223372036854775808 in *.
  unfold FileSeal.unixToInternal in Hlate.
  unfold FileSeal.Unix.
  assert (Hwrap : to_int64 (t + FileSeal.unixToInternal)
                  = t + FileSeal.unixToInternal - 18446744073709551616).
  { unfold to_int64, wrap_signed, FileSeal.unixToInternal.
    change (2 ^ (64 - 1)) with 9223372036854775808.
    change (2 ^ 64) with 18446744073709551616.
    replace (t + 62135596800 + 9223372036854775808)
      with (t + 62135596800 - 9223372036854775808 + 1 * 18446744073709551616) by lia.
    rewrite Z.mod_add by lia. rewrite Z.mod_small by lia. lia. }
  rewrite Hwrap.
  destruct (Add_cuts (t + FileSeal.unixToInternal - 18446744073709551616) d)
    as [dsec [ns [Hd [Hns HAdd]]]].
  rewrite HAdd. unfold FileSeal.addSec. cbn [FileSeal.ext FileSeal.nsec].
  pose proof (to_int64_is_int64
                (t + FileSeal.unixToInternal - 18446744073709551616 + dsec)) as [Hs1 Hs2].
  unfold max_int64 in *. change (2 ^ 63) with 9223372036854775808 in *.
  unfold FileSeal.unixToInternal in *.
  destruct (Bool.eqb _ _) eqn:Hcmp.
  - (* the sum was kept: it is above the start exactly when [dsec] is positive *)
    apply Bool.eqb_prop in Hcmp.
    unfold FileSeal.instant, second, millisecond. cbn [FileSeal.ext FileSeal.nsec].
    assert (Hsum : to_int64 (t + 62135596800 - 18446744073709551616 + dsec)
                   <= t + 62135596800 - 18446744073709551616 + 9223372037).
    { destruct (Z.gtb_spec dsec 0) as [Hd0 | Hd0].
      - (* no wrap upwards is possible from so low a start *)
        rewrite to_int64_small
          by (unfold max_int64; change (2 ^ 63) with 9223372036854775808; lia).
        lia.
      - destruct (Z.gtb_spec (to_int64 (t + 62135596800 - 18446744073709551616 + dsec))
                             (t + 62135596800 - 18446744073709551616)); [discriminate | lia]. }
    unfold FileSeal.unixToInternal. lia.
  - destruct (dsec >? 0) eqn:Hd0.
    + (* a positive [dsec] cannot overflow here *)
      exfalso. apply Z.gtb_lt in Hd0.
      rewrite to_int64_small in Hcmp
        by (unfold max_int64; change (2 ^ 63) with 9223372036854775808; lia).
      replace (t + 62135596800 - 18446744073709551616 + dsec
               >? t + 62135596800 - 18446744073709551616) with true in Hcmp
        by (symmetry; apply Z.gtb_lt; lia).
      discriminate Hcmp.
    + unfold FileSeal.instant, second, millisecond, max_int64.
      cbn [FileSeal.ext FileSeal.nsec]. unfold FileSeal.unixToInternal.
      change (2 ^ 63) with 9223372036854775808. lia.
Qed.

(** [createNew] when the glob does not come back with exactly one match:
    the file gets a name of its own and is opened under it. *)
Lemma createNew_names_by_time fs unix p matches :
  let pattern := (FileSeal.targetDir p ++ "*" ++ FileSeal.fileNameSeparator
                  ++ FileSeal.fileName p ++ FileSeal.fileExtension p)%string in
  let f := (FileSeal.targetDir p ++ fresh_name p unix)%string in
  match FileSeal.glob_result fs (FileSeal.history p) pattern with
  | Ok ms => ms
  | Err _ => []
  end = matches ->
  len matches <> 1 ->
  FileSeal.open_error fs (FileSeal.history p ++ [FileSeal.Glob pattern]) f = None ->
  FileSeal.createNew fs unix p =
  Returned tt
    (FileSeal.set_file (Some f)
       (FileSeal.set_history
          (FileSeal.history p ++
           [FileSeal.Glob pattern; FileSeal.OpenFile f (FileSeal.FileMode_ (FileSeal.config p))])
          (FileSeal.set_tsFileName (fresh_name p unix) p))).
Proof.
  intros pattern f Hglob Hlen Hopen.
  unfold FileSeal.createNew, FileSeal.glob, FileSeal.call.
  unfold bind, modify, get, ret.
  cbn [FileSeal.history FileSeal.set_tsFileName FileSeal.set_history FileSeal.targetDir
       FileSeal.fileName FileSeal.fileExtension FileSeal.tsFileName FileSeal.config].
  fold pattern. fold (fresh_name p unix). fold f.
  rewrite Hglob. apply Z.eqb_neq in Hlen. rewrite Hlen.
  cbn [FileSeal.history FileSeal.set_tsFileName FileSeal.set_history FileSeal.targetDir
       FileSeal.fileName FileSeal.fileExtension FileSeal.tsFileName FileSeal.config].
  rewrite Hopen. unfold FileSeal.set_file, FileSeal.set_history, FileSeal.set_tsFileName.
  cbn. rewrite <- app_assoc. reflexivity.
Qed.

(** [setNextSealUpTime] reads the time a file was made at off its name. *)
Lemma setNextSealUpTime_reads text p :
  FileSeal.tsFileName p =
    (text ++ FileSeal.fileNameSeparator ++ FileSeal.fileName p
     ++ FileSeal.fileExtension p)%string ->
  FileSeal.setNextSealUpTime p =
  match ParseInt text with
  | Ok t =>
      Returned tt
        (FileSeal.set_nextSealUpTime
           (FileSeal.instant
              (FileSeal.Add (FileSeal.Unix t)
                 (FileSeal.RetentionInterval_ (FileSeal.config p)))) p)
  | Err _ =>
      Panicked
        (FileSeal.set_history
           (FileSeal.history p ++
            [FileSeal.LogPanic "coult nod convert timestamp to int for file: %s, error: %s"])
           p)
  end.
Proof.
  intros Hname. unfold FileSeal.setNextSealUpTime. unfold bind, get.
  rewrite Hname.
  replace (slen (text ++ FileSeal.fileNameSeparator ++ FileSeal.fileName p
                 ++ FileSeal.fileExtension p)%string
           - slen FileSeal.fileNameSeparator - slen (FileSeal.fileName p)
           - slen (FileSeal.fileExtension p)) with (slen text)
    by (rewrite !slen_append; lia).
  rewrite slice_front.
  destruct (ParseInt text); reflexivity.
Qed.

(** The slice of [getStartIdx] takes the text between the first two
    separators when the time stamp is as long as the layout. *)
Lemma index_of_name p text stamp :
  slen stamp = slen (FileSeal.Layout (FileSeal.config p)) ->
  let file := (FileSeal.fileName p ++ FileSeal.fileNameSeparator ++ text
               ++ FileSeal.fileNameSeparator ++ stamp ++ FileSeal.fileExtension p)%string in
  slice file (slen (FileSeal.fileName p) + slen FileSeal.fileNameSeparator)
        (slen file - slen (FileSeal.fileExtension p)
         - slen (FileSeal.Layout (FileSeal.config p)) - slen FileSeal.fileNameSeparator)
  = Some text.
Proof.
  intros Hstamp file.
  replace (slen file - slen (FileSeal.fileExtension p)
           - slen (FileSeal.Layout (FileSeal.config p)) - slen FileSeal.fileNameSeparator)
    with (slen (FileSeal.fileName p ++ FileSeal.fileNameSeparator)%string + slen text)
    by (unfold file; rewrite !slen_append; lia).
  rewrite <- slen_append.
  replace file
    with ((FileSeal.fileName p ++ FileSeal.fileNameSeparator) ++ text
          ++ (FileSeal.fileNameSeparator ++ stamp ++ FileSeal.fileExtension p))%string
    by (unfold file; apply string_app_assoc).
  apply slice_middle.
Qed.

Lemma scan_sealed p v i rest idx :
  is_sealed p v i ->
  FileSeal.scan p (v :: rest) idx = FileSeal.scan p rest (Z.max idx i).
Proof.
  intros [stamp [Hbase [Hstamp Hfits]]].
  cbn [FileSeal.scan]. rewrite Hbase. unfold sealed_name.
  rewrite (index_of_name p (Sprint_d i) stamp Hstamp).
  unfold Atoi. rewrite (ParseInt_Sprint_d i Hfits).
  rewrite larger_is_max. reflexivity.
Qed.

Lemma scan_unreadable p v rest idx :
  is_unreadable p v -> FileSeal.scan p (v :: rest) idx = Some idx.
Proof.
  intros [text [stamp [msg [Hbase [Hstamp Herr]]]]].
  cbn [FileSeal.scan]. rewrite Hbase.
  rewrite (index_of_name p text stamp Hstamp). rewrite Herr. reflexivity.
Qed.

Lemma scan_all_sealed p matches indices idx :
  Forall2 (is_sealed p) matches indices ->
  FileSeal.scan p matches idx = Some (fold_left Z.max indices idx).
Proof.
  intros H. revert idx. induction H as [| v i matches indices Hv _ IH]; intros idx.
  - reflexivity.
  - rewrite (scan_sealed p v i matches idx Hv). apply IH.
Qed.

Lemma scan_until_unreadable p before v after indices idx :
  Forall2 (is_sealed p) before indices ->
  is_unreadable p v ->
  FileSeal.scan p (before ++ v :: after) idx = Some (fold_left Z.max indices idx).
Proof.
  intros H Hv. revert idx. induction H as [| w i before indices Hw _ IH]; intros idx.
  - apply scan_unreadable. exact Hv.
  - change ((w :: before) ++ v :: after) with (w :: (before ++ v :: after)).
    rewrite (scan_sealed p w i _ idx Hw). apply IH.
Qed.

(** X16.  [getStartIdx] where every file the glob finds is a sealed one
    (its name is what [sealUp] gives: the file name, an index, a time stamp
    as long as the layout, the extension): the index it returns is one more
    than the largest index found, whatever the order of the files, and 0
    when there is none.  Nothing but the glob is asked of the file system. *)
Theorem getStartIdx_follows_the_sealed fs p matches indices :
  let pattern := (FileSeal.targetDir p ++ "/" ++ FileSeal.fileName p
                  ++ FileSeal.fileNameSeparator ++ "*" ++ FileSeal.fileNameSeparator
                  ++ "*" ++ FileSeal.fileExtension p)%string in
  FileSeal.glob_result fs (FileSeal.history p) pattern = Ok matches ->
  Forall2 (is_sealed p) matches indices ->
  FileSeal.getStartIdx fs p =
  Returned (to_int (fold_left Z.max indices (-1) + 1))
           (FileSeal.set_history (FileSeal.history p ++ [FileSeal.Glob pattern]) p).
Proof.
  intros pattern Hglob Hsealed.
  unfold FileSeal.getStartIdx, FileSeal.glob, bind, get. fold pattern.
  rewrite Hglob. rewrite (scan_all_sealed p matches indices (-1) Hsealed).
  reflexivity.
Qed.

Lemma getStartIdx_follows_the_sealed_witness :
  FileSeal.getStartIdx (Sample.disk Sample.sealed_files 0) Sample.sealing =
  Returned 2
    (FileSeal.set_history [FileSeal.Glob "/var/log//file-d_*_*.log"] Sample.sealing).
Proof.
  apply (getStartIdx_follows_the_sealed (Sample.disk Sample.sealed_files 0)
           Sample.sealing Sample.sealed_files [0; 1]).
  - reflexivity.
  - repeat constructor.
    + exists "09-13-2020_12:26:40". repeat split; vm_compute; congruence.
    + exists "09-13-2020_13:26:40". repeat split; vm_compute; congruence.
Defined.

(** X17.  The loop of [getStartIdx] ends at the first file whose index does
    not read as a number: the sealed files the glob lists after it are not
    counted, so the index returned can be one that a sealed file already
    has. *)
Theorem getStartIdx_stops_at_unreadable fs p before v after indices :
  let pattern := (FileSeal.targetDir p ++ "/" ++ FileSeal.fileName p
                  ++ FileSeal.fileNameSeparator ++ "*" ++ FileSeal.fileNameSeparator
                  ++ "*" ++ FileSeal.fileExtension p)%string in
  FileSeal.glob_result fs (FileSeal.history p) pattern = Ok (before ++ v :: after) ->
  Forall2 (is_sealed p) before indices ->
  is_unreadable p v ->
  FileSeal.getStartIdx fs p =
  Returned (to_int (fold_left Z.max indices (-1) + 1))
           (FileSeal.set_history (FileSeal.history p ++ [FileSeal.Glob pattern]) p).
Proof.
  intros pattern Hglob Hsealed Hv.
  unfold FileSeal.getStartIdx, FileSeal.glob, bind, get. fold pattern.
  rewrite Hglob. rewrite (scan_until_unreadable p before v after indices (-1) Hsealed Hv).
  reflexivity.
Qed.

Lemma getStartIdx_stops_at_unreadable_witness :
  FileSeal.getStartIdx
    (Sample.disk ["/var/log/file-d_0_09-13-2020_12:26:40.log";
                  "/var/log/file-d_old_09-13-2020_12:26:40.log";
                  "/var/log/file-d_7_09-13-2020_13:26:40.log"] 0)
    Sample.sealing =
  Returned 1
    (FileSeal.set_history [FileSeal.Glob "/var/log//file-d_*_*.log"] Sample.sealing).
Proof.
  apply (getStartIdx_stops_at_unreadable
           (Sample.disk ["/var/log/file-d_0_09-13-2020_12:26:40.log";
                         "/var/log/file-d_old_09-13-2020_12:26:40.log";
                         "/var/log/file-d_7_09-13-2020_13:26:40.log"] 0)
           Sample.sealing
           ["/var/log/file-d_0_09-13-2020_12:26:40.log"]
           "/var/log/file-d_old_09-13-2020_12:26:40.log"
           ["/var/log/file-d_7_09-13-2020_13:26:40.log"] [0]).
  - reflexivity.
  - repeat constructor.
    exists "09-13-2020_12:26:40". repeat split; vm_compute; congruence.
  - exists "old", "09-13-2020_12:26:40", "invalid syntax". repeat split.
Defined.

Lemma getStartIdx_runs fs p matches idx :
  let pattern := (FileSeal.targetDir p ++ "/" ++ FileSeal.fileName p
                  ++ FileSeal.fileNameSeparator ++ "*" ++ FileSeal.fileNameSeparator
                  ++ "*" ++ FileSeal.fileExtension p)%string in
  FileSeal.glob_result fs (FileSeal.history p) pattern = Ok matches ->
  FileSeal.scan p matches (-1) = Some idx ->
  FileSeal.getStartIdx fs p =
  Returned (to_int (idx + 1))
           (FileSeal.set_history (FileSeal.history p ++ [FileSeal.Glob pattern]) p).
Proof.
  intros pattern Hglob Hscan.
  unfold FileSeal.getStartIdx, FileSeal.glob, bind, get. fold pattern.
  rewrite Hglob, Hscan. reflexivity.
Qed.

(** X18.  [Start] on a directory that holds no file of this output, on a
    file system that fails nothing: the target file is cut into directory,
    name and extension that put together give it back; the index starts at
    0; the file is named by the time of the start and opened under that
    name in the directory; the next seal-up is one retention interval after
    that time; and the calls are, in this order, the new batcher, the
    directory, the two globs, the open, the seal-up ticker and the start of
    the batcher. *)
Theorem Start_on_fresh_directory fs cfg unix p :
  (forall h d, FileSeal.mkdir_error fs h d = None) ->
  (forall h pattern, FileSeal.glob_result fs h pattern = Ok []) ->
  (forall h f, FileSeal.open_error fs h f = None) ->
  0 <= unix < 2 ^ 62 ->
  0 <= FileSeal.RetentionInterval_ cfg ->
  exists q,
    FileSeal.Start fs cfg unix p = Returned tt q /\
    (FileSeal.targetDir q ++ FileSeal.fileName q ++ FileSeal.fileExtension q)%string
      = FileSeal.TargetFile cfg /\
    FileSeal.idx q = 0 /\
    FileSeal.tsFileName q = fresh_name q unix /\
    FileSeal.file q = Some (FileSeal.targetDir q ++ fresh_name q unix)%string /\
    FileSeal.nextSealUpTime q = unix * second + FileSeal.RetentionInterval_ cfg /\
    FileSeal.history q =
      FileSeal.history p ++
      [FileSeal.NewBatcher;
       FileSeal.MkdirAll (FileSeal.targetDir q);
       FileSeal.Glob (FileSeal.targetDir q ++ "/" ++ FileSeal.fileName q ++ "_*_*"
                      ++ FileSeal.fileExtension q);
       FileSeal.Glob (FileSeal.targetDir q ++ "*_" ++ FileSeal.fileName q
                      ++ FileSeal.fileExtension q);
       FileSeal.OpenFile (FileSeal.targetDir q ++ fresh_name q unix) (FileSeal.FileMode_ cfg);
       FileSeal.GoSealUpTicker;
       FileSeal.BatcherStart].
Proof.
  intros Hmk Hglob Hopen Hunix Hret.
  pose proof (Split_joins (FileSeal.TargetFile cfg)) as Hsplit.
  unfold FileSeal.Start.
  destruct (Split (FileSeal.TargetFile cfg)) as [dir file'] eqn:HS. cbn [fst snd] in Hsplit.
  destruct (Ext_cuts file') as [name [Hslice Hname]].
  destruct p as [c0 f0 i0 n0 d0 e0 fn0 ts0 cb h0].
  unfold bind, modify, get. seal_fields.
  rewrite Hslice.
  unfold FileSeal.call, modify. seal_fields.
  rewrite Hmk.
  erewrite getStartIdx_runs; [| apply Hglob | reflexivity]. seal_fields.
  erewrite createNew_names_by_time; [| rewrite Hglob; reflexivity | discriminate | apply Hopen ].
  unfold fresh_name. seal_fields.
  rewrite (setNextSealUpTime_reads (Sprint_d unix)) by reflexivity.
  rewrite ParseInt_Sprint_d by (unfold is_int64, max_int64; lia).
  seal_fields.
  rewrite (Unix_Add_exact unix (FileSeal.RetentionInterval_ cfg))
    by first [apply retention_is_int64
             | change (2 ^ 62) with 4611686018427387904 in *; lia].
  unfold FileSeal.when, FileSeal.call, modify, ret.
  replace (unix * second + FileSeal.RetentionInterval_ cfg =? FileSeal.zero_time) with false
    by (symmetry; apply Z.eqb_neq; unfold FileSeal.zero_time, second, millisecond; lia).
  seal_fields.
  eexists. split; [reflexivity |]. seal_fields.
  split; [rewrite Hname; exact Hsplit |]. repeat split.
  rewrite <- !app_assoc. reflexivity.
Qed.

Lemma Start_on_fresh_directory_witness :
  exists q,
    FileSeal.Start (Sample.disk [] 0) Sample.seal_config 1600000000 (FileSeal.blank true)
      = Returned tt q /\
    (FileSeal.targetDir q ++ FileSeal.fileName q ++ FileSeal.fileExtension q)%string
      = "/var/log/file-d.log" /\
    FileSeal.idx q = 0 /\
    FileSeal.tsFileName q = fresh_name q 1600000000 /\
    FileSeal.file q = Some (FileSeal.targetDir q ++ fresh_name q 1600000000)%string /\
    FileSeal.nextSealUpTime q = 1600000000 * second + 3600 * second /\
    FileSeal.history q =
      [FileSeal.NewBatcher;
       FileSeal.MkdirAll (FileSeal.targetDir q);
       FileSeal.Glob (FileSeal.targetDir q ++ "/" ++ FileSeal.fileName q ++ "_*_*"
                      ++ FileSeal.fileExtension q);
       FileSeal.Glob (FileSeal.targetDir q ++ "*_" ++ FileSeal.fileName q
                      ++ FileSeal.fileExtension q);
       FileSeal.OpenFile (FileSeal.targetDir q ++ fresh_name q 1600000000) 438;
       FileSeal.GoSealUpTicker;
       FileSeal.BatcherStart].
Proof.
  apply (Start_on_fresh_directory (Sample.disk [] 0) Sample.seal_config 1600000000
           (FileSeal.blank true)).
  - reflexivity.
  - reflexivity.
  - reflexivity.
  - lia.
  - vm_compute. discriminate.
Defined.

Lemma createNew_takes_the_match fs unix p m :
  let pattern := (FileSeal.targetDir p ++ "*" ++ FileSeal.fileNameSeparator
                  ++ FileSeal.fileName p ++ FileSeal.fileExtension p)%string in
  let f := (FileSeal.targetDir p ++ Base m)%string in
  FileSeal.glob_result fs (FileSeal.history p) pattern = Ok [m] ->
  FileSeal.open_error fs (FileSeal.history p ++ [FileSeal.Glob pattern]) f = None ->
  FileSeal.createNew fs unix p =
  Returned tt
    (FileSeal.set_file (Some f)
       (FileSeal.set_history
          (FileSeal.history p ++
           [FileSeal.Glob pattern; FileSeal.OpenFile f (FileSeal.FileMode_ (FileSeal.config p))])
          (FileSeal.set_tsFileName (Base m) p))).
Proof.
  intros pattern f Hglob Hopen. destruct p as [c0 f0 i0 n0 d0 e0 fn0 ts0 cb h0].
  unfold FileSeal.createNew, FileSeal.glob, FileSeal.call.
  unfold bind, modify, get, ret. seal_fields.
  cbv [FileSeal.targetDir FileSeal.fileName FileSeal.fileExtension FileSeal.history] in *.
  fold pattern. rewrite Hglob.
  change (len [m] =? 1) with true. seal_fields. cbn [nth].
  fold f. rewrite Hopen. seal_fields. rewrite <- app_assoc. reflexivity.
Qed.

(** X19.  [createNew] followed by [setNextSealUpTime], as [Start] runs
    them, when the glob finds exactly one file and its name is the one
    [createNew] gave a file at the second [t]: that file is opened again,
    not a new one, and the next seal-up is what [time.Unix(t, 0)] and [Add]
    of the retention interval make of [t], whatever the time is now.  For
    [t] within 2^62 seconds of the epoch that is one retention interval
    after [t]; for a [t] so late that adding the seconds from year 1 to
    1970 leaves int64, [time.Unix] wraps and the next seal-up lies before
    the epoch. *)
Theorem createNew_takes_up_the_open_file fs unix p m t :
  let pattern := (FileSeal.targetDir p ++ "*" ++ FileSeal.fileNameSeparator
                  ++ FileSeal.fileName p ++ FileSeal.fileExtension p)%string in
  let f := (FileSeal.targetDir p ++ fresh_name p t)%string in
  let next := FileSeal.instant
                (FileSeal.Add (FileSeal.Unix t)
                   (FileSeal.RetentionInterval_ (FileSeal.config p))) in
  FileSeal.glob_result fs (FileSeal.history p) pattern = Ok [m] ->
  Base m = fresh_name p t ->
  is_int64 t ->
  FileSeal.open_error fs (FileSeal.history p ++ [FileSeal.Glob pattern]) f = None ->
  (FileSeal.createNew fs unix ;;; FileSeal.setNextSealUpTime) p =
  Returned tt
    (FileSeal.set_nextSealUpTime next
       (FileSeal.set_file (Some f)
          (FileSeal.set_history
             (FileSeal.history p ++
              [FileSeal.Glob pattern;
               FileSeal.OpenFile f (FileSeal.FileMode_ (FileSeal.config p))])
             (FileSeal.set_tsFileName (fresh_name p t) p))))
  /\
  (- 2 ^ 62 <= t < 2 ^ 62 ->
   next = t * second + FileSeal.RetentionInterval_ (FileSeal.config p))
  /\
  (max_int64 - FileSeal.unixToInternal < t -> next < 0).
Proof.
  intros pattern f next Hglob Hbase Hfits Hopen. split; [| split].
  - unfold bind at 1.
    rewrite (createNew_takes_the_match fs unix p m) by (rewrite ?Hbase; assumption).
    rewrite Hbase. fold pattern. fold f.
    rewrite (setNextSealUpTime_reads (Sprint_d t)) by reflexivity.
    rewrite (ParseInt_Sprint_d t Hfits). reflexivity.
  - intros Hnear. apply Unix_Add_exact; [exact Hnear | apply retention_is_int64].
  - intros Hlate. apply Unix_Add_wraps; [exact Hfits | exact Hlate | apply retention_is_int64].
Qed.

Lemma createNew_takes_up_the_open_file_witness :
  (FileSeal.createNew (Sample.disk ["/var/log/1600000000_file-d.log"] 0) 1600005000 ;;;
   FileSeal.setNextSealUpTime) Sample.sealing =
  Returned tt
    (FileSeal.set_nextSealUpTime (1600000000 * second + 3600 * second)
       (FileSeal.set_file (Some "/var/log/1600000000_file-d.log")
          (FileSeal.set_history
             [FileSeal.Glob "/var/log/*_file-d.log";
              FileSeal.OpenFile "/var/log/1600000000_file-d.log" 438]
             (FileSeal.set_tsFileName "1600000000_file-d.log" Sample.sealing))))
  /\
  FileSeal.nextSealUpTime
    (final ((FileSeal.createNew
               (Sample.disk ["/var/log/9223372036854775807_file-d.log"] 0) 1600005000 ;;;
             FileSeal.setNextSealUpTime) Sample.sealing))
  = - 9223372036854772209 * second.
Proof.
  split.
  - apply (createNew_takes_up_the_open_file
             (Sample.disk ["/var/log/1600000000_file-d.log"] 0) 1600005000 Sample.sealing
             "/var/log/1600000000_file-d.log" 1600000000).
    + reflexivity.
    + reflexivity.
    + unfold is_int64, max_int64. lia.
    + reflexivity.
  - destruct (createNew_takes_up_the_open_file
                (Sample.disk ["/var/log/9223372036854775807_file-d.log"] 0) 1600005000
                Sample.sealing "/var/log/9223372036854775807_file-d.log"
                9223372036854775807) as [Hrun _].
    + reflexivity.
    + reflexivity.
    + unfold is_int64, max_int64. lia.
    + reflexivity.
    + rewrite Hrun. reflexivity.
Defined.

(** X20.  [createNew] followed by [setNextSealUpTime] when the one file the
    glob finds has, before the separator and the file name, a text that
    does not read as a number: the file is opened under that name all the
    same, and then the plugin panics. *)
Theorem createNew_panics_on_a_foreign_file fs unix p m text msg :
  let pattern := (FileSeal.targetDir p ++ "*" ++ FileSeal.fileNameSeparator
                  ++ FileSeal.fileName p ++ FileSeal.fileExtension p)%string in
  let f := (FileSeal.targetDir p ++ Base m)%string in
  FileSeal.glob_result fs (FileSeal.history p) pattern = Ok [m] ->
  Base m = (text ++ FileSeal.fileNameSeparator ++ FileSeal.fileName p
            ++ FileSeal.fileExtension p)%string ->
  ParseInt text = Err msg ->
  FileSeal.open_error fs (FileSeal.history p ++ [FileSeal.Glob pattern]) f = None ->
  (FileSeal.createNew fs unix ;;; FileSeal.setNextSealUpTime) p =
  Panicked
    (FileSeal.set_file (Some f)
       (FileSeal.set_history
          (FileSeal.history p ++
           [FileSeal.Glob pattern;
            FileSeal.OpenFile f (FileSeal.FileMode_ (FileSeal.config p));
            FileSeal.LogPanic "coult nod convert timestamp to int for file: %s, error: %s"])
          (FileSeal.set_tsFileName (Base m) p))).
Proof.
  intros pattern f Hglob Hbase Herr Hopen.
  unfold bind at 1.
  rewrite (createNew_takes_the_match fs unix p m) by assumption.
  fold pattern. fold f.
  rewrite (setNextSealUpTime_reads text) by exact Hbase.
  rewrite Herr. destruct p as [c0 f0 i0 n0 d0 e0 fn0 ts0 cb h0]. seal_fields.
  rewrite <- app_assoc. reflexivity.
Qed.

Lemma createNew_panics_on_a_foreign_file_witness :
  (FileSeal.createNew (Sample.disk ["/var/log/backup_file-d.log"] 0) 1600005000 ;;;
   FileSeal.setNextSealUpTime) Sample.sealing =
  Panicked
    (FileSeal.set_file (Some "/var/log/backup_file-d.log")
       (FileSeal.set_history
          [FileSeal.Glob "/var/log/*_file-d.log";
           FileSeal.OpenFile "/var/log/backup_file-d.log" 438;
           FileSeal.LogPanic "coult nod convert timestamp to int for file: %s, error: %s"]
          (FileSeal.set_tsFileName "backup_file-d.log" Sample.sealing))).
Proof.
  apply (createNew_panics_on_a_foreign_file
           (Sample.disk ["/var/log/backup_file-d.log"] 0) 1600005000 Sample.sealing
           "/var/log/backup_file-d.log" "backup" "invalid syntax").
  - reflexivity.
  - reflexivity.
  - reflexivity.
  - reflexivity.
Defined.

(** X21.  [sealUp] of an empty file asks for its size and nothing else: no
    rename, no new file, the index and the next seal-up time stay as they
    were. *)
Theorem sealUp_leaves_an_empty_file fs Join stamp unix now p :
  FileSeal.stat_size fs (FileSeal.history p) (FileSeal.file p) = Ok 0 ->
  FileSeal.sealUp fs Join stamp unix now p =
  Returned tt
    (FileSeal.set_history (FileSeal.history p ++ [FileSeal.Stat (FileSeal.file p)]) p).
Proof.
  intros Hstat. unfold FileSeal.sealUp, bind, get, FileSeal.call, modify.
  rewrite Hstat. reflexivity.
Qed.

Lemma sealUp_leaves_an_empty_file_witness :
  FileSeal.sealUp (Sample.disk [] 0) Sample.join "09-13-2020_13:26:40" 1600003600
    (1600003600 * second) Sample.sealing =
  Returned tt
    (FileSeal.set_history [FileSeal.Stat (Some "/var/log/1600000000_file-d.log")]
       Sample.sealing).
Proof.
  apply (sealUp_leaves_an_empty_file (Sample.disk [] 0) Sample.join "09-13-2020_13:26:40"
           1600003600 (1600003600 * second) Sample.sealing).
  reflexivity.
Defined.

(** X22.  [sealUp] of a file that holds something, on a file system that
    fails nothing and where no other file of this output is open: the file
    is renamed to the file name, the index and the time stamp, with the
    extension, in the target directory; the index goes up by one; a file
    named by the time now is opened; the next seal-up is one retention
    interval from now; the old file is closed after the new one is opened;
    and the callback, if there is one, is started with the sealed name. *)
Theorem sealUp_rotates fs Join stamp unix now p size :
  let sealed := Join (FileSeal.targetDir p) (sealed_name p (FileSeal.idx p) stamp) in
  let opened := (FileSeal.targetDir p ++ fresh_name p unix)%string in
  FileSeal.stat_size fs (FileSeal.history p) (FileSeal.file p) = Ok size ->
  size <> 0 ->
  (forall h pattern, FileSeal.glob_result fs h pattern = Ok []) ->
  (forall h a b, FileSeal.rename_error fs h a b = None) ->
  (forall h f, FileSeal.open_error fs h f = None) ->
  (forall h f, FileSeal.close_error fs h f = None) ->
  FileSeal.sealUp fs Join stamp unix now p =
  Returned tt
    (FileSeal.set_history
       (FileSeal.history p ++
        [FileSeal.Stat (FileSeal.file p);
         FileSeal.Rename (FileSeal.targetDir p ++ FileSeal.tsFileName p) sealed;
         FileSeal.Glob (FileSeal.targetDir p ++ "*_" ++ FileSeal.fileName p
                        ++ FileSeal.fileExtension p);
         FileSeal.OpenFile opened (FileSeal.FileMode_ (FileSeal.config p));
         FileSeal.Close (FileSeal.file p)]
        ++ (if FileSeal.hasSealUpCallback p then [FileSeal.GoSealUpCallback sealed] else []))
       (FileSeal.set_nextSealUpTime (now + FileSeal.RetentionInterval_ (FileSeal.config p))
          (FileSeal.set_file (Some opened)
             (FileSeal.set_tsFileName (fresh_name p unix)
                (FileSeal.set_idx (to_int (FileSeal.idx p + 1)) p))))).
Proof.
  intros sealed opened Hstat Hsize Hglob Hrename Hopen Hclose.
  destruct p as [c0 f0 i0 n0 d0 e0 fn0 ts0 cb h0].
  unfold FileSeal.sealUp, FileSeal.rename, bind, get, FileSeal.call, modify.
  seal_fields. cbv [FileSeal.history FileSeal.file] in Hstat.
  rewrite Hstat. apply Z.eqb_neq in Hsize. rewrite Hsize.
  rewrite Hrename.
  erewrite createNew_names_by_time; [| rewrite Hglob; reflexivity | discriminate | apply Hopen].
  unfold fresh_name in *. seal_fields.
  rewrite Hclose. unfold FileSeal.when, FileSeal.call, modify, ret.
  unfold sealed, opened, sealed_name, fresh_name. seal_fields.
  destruct cb; seal_fields; rewrite <- ?app_assoc; reflexivity.
Qed.

Lemma sealUp_rotates_witness :
  FileSeal.sealUp (Sample.disk [] 10) Sample.join "09-13-2020_13:26:40" 1600003600
    (1600003600 * second) Sample.sealing =
  Returned tt
    (FileSeal.set_history
       [FileSeal.Stat (Some "/var/log/1600000000_file-d.log");
        FileSeal.Rename "/var/log/1600000000_file-d.log"
                        "/var/log/file-d_2_09-13-2020_13:26:40.log";
        FileSeal.Glob "/var/log/*_file-d.log";
        FileSeal.OpenFile "/var/log/1600003600_file-d.log" 438;
        FileSeal.Close (Some "/var/log/1600000000_file-d.log");
        FileSeal.GoSealUpCallback "/var/log/file-d_2_09-13-2020_13:26:40.log"]
       (FileSeal.set_nextSealUpTime (1600003600 * second + 3600 * second)
          (FileSeal.set_file (Some "/var/log/1600003600_file-d.log")
             (FileSeal.set_tsFileName "1600003600_file-d.log"
                (FileSeal.set_idx 3 Sample.sealing))))).
Proof.
  apply (sealUp_rotates (Sample.disk [] 10) Sample.join "09-13-2020_13:26:40" 1600003600
           (1600003600 * second) Sample.sealing 10).
  - reflexivity.
  - lia.
  - reflexivity.
  - reflexivity.
  - reflexivity.
  - reflexivity.
Defined.

(** X23.  [Start] when the target directory cannot be made: the process
    exits with the fatal line after the batcher is made and before any file
    is looked for or opened. *)
Theorem Start_without_directory fs cfg unix p msg :
  FileSeal.mkdir_error fs (FileSeal.history p ++ [FileSeal.NewBatcher])
    (fst (Split (FileSeal.TargetFile cfg))) = Some msg ->
  exists q,
    FileSeal.Start fs cfg unix p = Fatal q /\
    FileSeal.file q = FileSeal.file p /\
    FileSeal.history q =
      FileSeal.history p ++
      [FileSeal.NewBatcher;
       FileSeal.MkdirAll (fst (Split (FileSeal.TargetFile cfg)));
       FileSeal.LogFatal "could not create target dir: %s, error: %s"].
Proof.
  intros Hmk. unfold FileSeal.Start.
  destruct (Split (FileSeal.TargetFile cfg)) as [dir file'] eqn:HS. cbn [fst snd] in Hmk.
  destruct (Ext_cuts file') as [name [Hslice Hname]].
  destruct p as [c0 f0 i0 n0 d0 e0 fn0 ts0 cb h0].
  unfold bind, modify, get. seal_fields. rewrite Hslice.
  unfold FileSeal.call, modify. seal_fields.
  cbv [FileSeal.history] in Hmk. rewrite Hmk.
  unfold FileSeal.Fatalf. seal_fields.
  eexists. split; [reflexivity |]. seal_fields. cbn [fst].
  split; [reflexivity |]. rewrite <- !app_assoc. reflexivity.
Qed.

Lemma Start_without_directory_witness :
  exists q,
    FileSeal.Start Sample.read_only Sample.seal_config 1600000000 (FileSeal.blank true)
      = Fatal q /\
    FileSeal.file q = None /\
    FileSeal.history q =
      [FileSeal.NewBatcher;
       FileSeal.MkdirAll "/var/log/";
       FileSeal.LogFatal "could not create target dir: %s, error: %s"].
Proof.
  apply (Start_without_directory Sample.read_only Sample.seal_config 1600000000
           (FileSeal.blank true) "read-only file system").
  reflexivity.
Defined.

(** ** The output plugins: what a batch is turned into *)

Lemma file_lines_from (Encode : Event -> list byte) events acc :
  fold_left (fun outBuf event => (outBuf ++ Encode event) ++ [x0a]) events acc =
  acc ++ flat_map (fun e => Encode e ++ [x0a]) events.
Proof.
  revert acc. induction events as [| e events IH]; intros acc; cbn.
  - rewrite app_nil_r. reflexivity.
  - rewrite IH. rewrite <- !app_assoc. reflexivity.
Qed.

Lemma splunk_documents_from (Encode : Node -> list byte) events acc :
  fold_left (fun outBuf event => outBuf ++ Encode (JObject [("event", Root event)]))
            events acc =
  acc ++ flat_map (fun e => Encode (JObject [("event", Root e)])) events.
Proof.
  revert acc. induction events as [| e events IH]; intros acc; cbn.
  - rewrite app_nil_r. reflexivity.
  - rewrite IH. rewrite <- app_assoc. reflexivity.
Qed.

(** X24.  The flush function of the file output, when the write succeeds:
    the whole batch goes to the file in one write, which holds the events
    in the order of the batch, each as its encoding followed by a line
    feed; what the worker's buffer held before is not part of it, and the
    buffer is left holding what was written. *)
Theorem file_out_writes_lines file_Write Encode (batch : Batch) (p : FileOutput.Plugin) :
  let payload := flat_map (fun e => Encode e ++ [x0a]) (Events batch) in
  file_Write payload = None ->
  FileOutput.out file_Write Encode batch p =
  Returned tt
    (FileOutput.mkPlugin (FileOutput.BatchSize_ p) (FileOutput.avgLogSize p)
       (Some payload) (FileOutput.history p ++ [FileOutput.FileWrite payload])).
Proof.
  intros payload Hwrite.
  unfold FileOutput.out, FileOutput.write, FileOutput.call, FileOutput.encode_batch.
  rewrite file_lines_from. cbn [app]. fold payload.
  unfold bind, modify, ret. rewrite Hwrite. reflexivity.
Qed.

Lemma file_out_writes_lines_witness :
  FileOutput.out (fun _ => None) Sample.encode_event Sample.batch Sample.file =
  Returned tt
    (FileOutput.mkPlugin 4 0 (Some (list_byte_of_string "{}" ++ [x0a]))
       [FileOutput.FileWrite (list_byte_of_string "{}" ++ [x0a])]).
Proof.
  apply (file_out_writes_lines (fun _ => None) Sample.encode_event Sample.batch Sample.file).
  reflexivity.
Defined.

(** X25.  The payload the splunk output posts for a batch: for each event,
    in the order of the batch, the encoding of an object whose only field,
    [event], is the root of the event, with nothing between two of them;
    so the payload of two batches put together is the two payloads put
    together. *)
Theorem splunk_payload_by_event Encode (events more : list Event) :
  Splunk.encode_batch Encode (mkBatch events) =
    flat_map (fun e => Encode (JObject [("event", Root e)])) events /\
  Splunk.encode_batch Encode (mkBatch (events ++ more)) =
    Splunk.encode_batch Encode (mkBatch events) ++ Splunk.encode_batch Encode (mkBatch more).
Proof.
  unfold Splunk.encode_batch. cbn [Events].
  rewrite !splunk_documents_from. cbn [app].
  split; [reflexivity | apply flat_map_app].
Qed.
